(** * PathTree frontend: a shallow embedding of the client-side logic

The development follows the TypeScript sources of the frontend:
- [lib/api.ts]                      (module [Api])
- [components/features/file-upload.tsx]   (module [FileUpload])
- [components/features/flashcards.tsx]    (module [Flashcards])
- [components/features/knowledge-tree.tsx] (module [KnowledgeTree])
- [components/features/tutor-chat.tsx]    (module [TutorChat])
- [components/features/dashboard.tsx]     (modules [Dashboard], [DashboardUI],
                                           [DashboardSession])

React state is modelled by explicit state passing: a handler is a
function from the rendered state (the values its closure captured) to the
next state, together with the requests and timers it starts.  Promises
are modelled by the events that settle them. *)

From Stdlib Require Import ZArith Ascii String.
From stdpp Require Import base numbers list strings gmap pretty.

#[local] Open Scope Z_scope.

(** ** JavaScript strings *)

(** A JavaScript string is a sequence of UTF-16 code units. *)
Abbreviation jsstring := (list N).

Module JS.

Fixpoint lit (s : string) : jsstring :=
  match s with
  | EmptyString => []
  | String a rest => N_of_ascii a :: lit rest
  end.

(** [WhiteSpace] and [LineTerminator] code points of ECMAScript, the
    characters [String.prototype.trim] strips (all of them are in the
    basic plane, so each is one code unit). *)
Definition isWhiteSpace (c : N) : bool :=
  (bool_decide (c ∈ [0x09; 0x0A; 0x0B; 0x0C; 0x0D; 0x20; 0xA0; 0x1680;
                     0x2028; 0x2029; 0x202F; 0x205F; 0x3000; 0xFEFF]%N))
  || ((0x2000 <=? c)%N && (c <=? 0x200A)%N).

Fixpoint trimStart (s : jsstring) : jsstring :=
  match s with
  | [] => []
  | c :: rest => if isWhiteSpace c then trimStart rest else s
  end.

Definition trimEnd (s : jsstring) : jsstring :=
  reverse (trimStart (reverse s)).

Definition trim (s : jsstring) : jsstring := trimEnd (trimStart s).

(** Truthiness of a string: only the empty string is falsy. *)
Definition truthy (s : jsstring) : bool :=
  match s with [] => false | _ => true end.

(** [n.toString()] for an integer-valued number. *)
Definition toString (n : Z) : jsstring := lit (pretty n).

(** [xs.includes(x)] on an array of strings (strict equality). *)
Definition includes (xs : list jsstring) (x : jsstring) : bool :=
  bool_decide (x ∈ xs).

End JS.

(** ** lib/api.ts *)

Module Api.

Record DocumentUploadResponse := {
  document_id : jsstring;
  filename : jsstring;
  topics : list jsstring;
  sections : list (jsstring * jsstring);      (* title, content_preview *)
  concept_list : list (jsstring * jsstring);  (* term, definition *)
  raw_text : jsstring;
  word_count : Z;
  page_count : Z
}.

Record GraphNode := {
  node_id : jsstring;
  node_type : jsstring;          (* 'root' | 'branch' | 'leaf' *)
  node_label : jsstring;
  node_description : jsstring;
  node_level : Z;
  node_x : Z;
  node_y : Z
}.

Record GraphEdge := {
  edge_id : jsstring;
  edge_source : jsstring;
  edge_target : jsstring;
  edge_type : jsstring
}.

Record KnowledgeGraphResponse := {
  nodes : list GraphNode;
  edges : list GraphEdge;
  layout : jsstring
}.

Record SummaryResponse := {
  one_page : jsstring;
  five_page : jsstring;
  bullet_points : list jsstring;
  chapters : list (jsstring * jsstring * jsstring)  (* chapter, title, summary *)
}.

Record Flashcard := {
  card_id : jsstring;
  question : jsstring;
  answer : jsstring;
  card_difficulty : jsstring;    (* 'easy' | 'medium' | 'hard' *)
  card_category : jsstring;
  tags : list jsstring
}.

Record FlashcardResponse := {
  flashcards : list Flashcard
}.

Record TutorResponse := {
  explanation : jsstring;
  examples : list jsstring;
  practice_questions : list (jsstring * jsstring);  (* question, hint *)
  tips : list jsstring;
  summary : list jsstring;
  difficulty_level : jsstring;
  related_topics : list jsstring;
  response_type : jsstring
}.

(** The values the request bodies are built from: strings, numbers and
    [undefined] (an omitted optional argument). *)
Inductive JsValue :=
| VUndefined
| VString (s : jsstring)
| VNumber (n : Z).

(** An object literal, its properties in source order. *)
Definition ObjectLiteral := list (jsstring * JsValue).

(** The members of a serialised JSON object. *)
Inductive JsonValue :=
| JString (s : jsstring)
| JNumber (n : Z).

Definition JsonObject := list (jsstring * JsonValue).

Definition serialize_value (v : JsValue) : option JsonValue :=
  match v with
  | VUndefined => None
  | VString s => Some (JString s)
  | VNumber n => Some (JNumber n)
  end.

(** [JSON.stringify] of an object literal; the JSON text is represented by
    its members.  A property whose value is [undefined] is left out. *)
Definition JSON_stringify (o : ObjectLiteral) : JsonObject :=
  omap (λ kv, match serialize_value kv.2 with
              | Some j => Some (kv.1, j)
              | None => None
              end) o.

(** The arguments of one [apiCall(endpoint, options)]; [apiCall] itself
    lives in lib/utils and performs the HTTP request. *)
Record ApiCall := {
  endpoint : jsstring;
  method : jsstring;
  body : JsonObject
}.

Definition generateKnowledgeGraph (documentId content : jsstring) : ApiCall :=
  {| endpoint := JS.lit "/generate/graph";
     method := JS.lit "POST";
     body := JSON_stringify [ (JS.lit "document_id", VString documentId);
                              (JS.lit "content", VString content) ] |}.

Definition generateSummary (documentId content : jsstring) : ApiCall :=
  {| endpoint := JS.lit "/generate/summary";
     method := JS.lit "POST";
     body := JSON_stringify [ (JS.lit "document_id", VString documentId);
                              (JS.lit "content", VString content) ] |}.

Definition generateFlashcards (documentId content : jsstring) : ApiCall :=
  {| endpoint := JS.lit "/generate/flashcards";
     method := JS.lit "POST";
     body := JSON_stringify [ (JS.lit "document_id", VString documentId);
                              (JS.lit "content", VString content) ] |}.

(** [context?: string]: an omitted context is [undefined]. *)
Definition optional (o : option jsstring) : JsValue :=
  match o with
  | Some s => VString s
  | None => VUndefined
  end.

Definition askTutor (question : jsstring) (context : option jsstring) : ApiCall :=
  {| endpoint := JS.lit "/tutor";
     method := JS.lit "POST";
     body := JSON_stringify [ (JS.lit "question", VString question);
                              (JS.lit "context", optional context) ] |}.

Definition generateQuiz (topic : jsstring) (difficulty : option jsstring)
    (numQuestions : option Z) : ApiCall :=
  {| endpoint := JS.lit "/generate/quiz";
     method := JS.lit "POST";
     body := JSON_stringify
               [ (JS.lit "topic", VString topic);
                 (JS.lit "difficulty", VString (default (JS.lit "medium") difficulty));
                 (JS.lit "num_questions", VNumber (default 10 numQuestions)) ] |}.

Definition keys (o : JsonObject) : list jsstring := fst <$> o.

End Api.

(** ** components/features/file-upload.tsx *)

Module FileUpload.

(** The parts of a browser [File] the component reads. *)
Record File := {
  name : jsstring;
  type : jsstring;
  size : Z
}.

Record UploadState := {
  file : option File;
  uploading : bool;
  progress : Z;
  error : option jsstring;
  success : bool
}.

Definition initialState : UploadState :=
  {| file := None; uploading := false; progress := 0;
     error := None; success := false |}.

Definition allowedTypes : list jsstring :=
  [ JS.lit "application/pdf";
    JS.lit "application/vnd.openxmlformats-officedocument.presentationml.presentation";
    JS.lit "text/plain" ].

Definition unsupportedFormatMessage : jsstring :=
  JS.lit "Please select a PDF, PPTX, or TXT file".

Definition payloadTooLargeMessage : jsstring :=
  JS.lit "File size must be less than 50MB".

(** [handleFileSelect(file)]: the [setUploadState] update it performs. *)
Definition handleFileSelect (f : File) (prev : UploadState) : UploadState :=
  if negb (JS.includes allowedTypes (type f)) then
    {| file := None; uploading := uploading prev; progress := progress prev;
       error := Some unsupportedFormatMessage; success := success prev |}
  else if bool_decide (size f > 50 * 1024 * 1024) then
    {| file := None; uploading := uploading prev; progress := progress prev;
       error := Some payloadTooLargeMessage; success := success prev |}
  else
    {| file := Some f; uploading := uploading prev; progress := progress prev;
       error := None; success := false |}.

Definition handleRemoveFile (_ : UploadState) : UploadState := initialState.

End FileUpload.

(** ** components/features/tutor-chat.tsx *)

Module TutorChat.

Inductive MessageType := user | tutor.

Record Message := {
  id : jsstring;
  type : MessageType;
  content : jsstring;
  timestamp : Z;
  tutorData : option Api.TutorResponse
}.

(** The three [useState] cells of the component. *)
Record State := {
  messages : list Message;
  inputValue : jsstring;
  isLoading : bool
}.

(** The two clock readings a handler takes: [Date.now()] and [new Date()]. *)
Record Clock := {
  now : Z;
  date : Z
}.

Definition greeting : jsstring :=
  JS.lit "Hello! I'm your AI tutor. I'm here to help you understand concepts from your document. Ask me anything!".

Definition initialState (clock : Clock) : State :=
  {| messages := [ {| id := JS.lit "1"; type := tutor; content := greeting;
                      timestamp := date clock; tutorData := None |} ];
     inputValue := [];
     isLoading := false |}.

(** [onChange] of the input field. *)
Definition handleInputChange (value : jsstring) (st : State) : State :=
  {| messages := messages st; inputValue := value; isLoading := isLoading st |}.

(** [handleSendMessage] up to its [await]: the state after the three
    setters, and the request handed to [askTutor] (if any). *)
Definition handleSendMessage (context : option jsstring) (clock : Clock)
    (st : State) : State * option Api.ApiCall :=
  if negb (JS.truthy (JS.trim (inputValue st))) || isLoading st then (st, None)
  else
    let userMessage :=
      {| id := JS.toString (now clock); type := user; content := inputValue st;
         timestamp := date clock; tutorData := None |} in
    ({| messages := messages st ++ [userMessage];
        inputValue := [];
        isLoading := true |},
     Some (Api.askTutor (inputValue st) context)).

Definition errorText : jsstring :=
  JS.lit "I'm sorry, I encountered an error while processing your question. Please try again.".

(** The rest of [handleSendMessage], run when the promise of [askTutor]
    settles: [Some response] when it is fulfilled, [None] when it is
    rejected; the [finally] block runs in both cases. *)
Definition handleSendMessage_settled (outcome : option Api.TutorResponse)
    (clock : Clock) (st : State) : State :=
  let reply :=
    match outcome with
    | Some response =>
        {| id := JS.toString (now clock + 1); type := tutor;
           content := Api.explanation response;
           timestamp := date clock; tutorData := Some response |}
    | None =>
        {| id := JS.toString (now clock + 1); type := tutor;
           content := errorText;
           timestamp := date clock; tutorData := None |}
    end in
  {| messages := messages st ++ [reply];
     inputValue := inputValue st;
     isLoading := false |}.

End TutorChat.

(** ** components/features/flashcards.tsx *)

Module Flashcards.

Record FlashcardState := {
  currentIndex : Z;
  isFlipped : bool;
  showAnswer : bool;
  correctAnswers : Z;
  incorrectAnswers : Z;
  studiedCards : gset jsstring;
  difficulty : jsstring;   (* 'all' | 'easy' | 'medium' | 'hard' *)
  category : jsstring      (* 'all' | 'concept' | 'definition' | 'application' | 'analysis' *)
}.

Definition initialState : FlashcardState :=
  {| currentIndex := 0; isFlipped := false; showAnswer := false;
     correctAnswers := 0; incorrectAnswers := 0; studiedCards := ∅;
     difficulty := JS.lit "all"; category := JS.lit "all" |}.

(** [xs[i]] for a numeric index: [undefined] outside the array. *)
Definition index {A} (xs : list A) (i : Z) : option A :=
  if bool_decide (0 ≤ i) then xs !! Z.to_nat i else None.

Section Render.

(** The [data] prop. *)
Variable data : Api.FlashcardResponse.

(** The values computed at each render, from the rendered state. *)
Definition filteredCards (state : FlashcardState) : list Api.Flashcard :=
  List.filter (λ card,
    let difficultyMatch :=
      bool_decide (difficulty state = JS.lit "all")
      || bool_decide (Api.card_difficulty card = difficulty state) in
    let categoryMatch :=
      bool_decide (category state = JS.lit "all")
      || bool_decide (Api.card_category card = category state) in
    difficultyMatch && categoryMatch) (Api.flashcards data).

Definition currentCard (state : FlashcardState) : option Api.Flashcard :=
  index (filteredCards state) (currentIndex state).

Definition totalCards (state : FlashcardState) : Z :=
  Z.of_nat (length (filteredCards state)).

(** *** Handlers

A handler is created at a render and closes over that render's
[state], [totalCards] and [currentCard]; what it passes to [setState]
is a function of the state at the time the update is applied
([prev]).  The first argument [state] below is the rendered state
of the closure. *)

Definition handleFlip (prev : FlashcardState) : FlashcardState :=
  {| currentIndex := currentIndex prev;
     isFlipped := negb (isFlipped prev);
     showAnswer := negb (showAnswer prev);
     correctAnswers := correctAnswers prev;
     incorrectAnswers := incorrectAnswers prev;
     studiedCards := studiedCards prev;
     difficulty := difficulty prev; category := category prev |}.

Definition handleNext (state : FlashcardState) (prev : FlashcardState)
    : FlashcardState :=
  if bool_decide (currentIndex state < totalCards state - 1) then
    {| currentIndex := currentIndex prev + 1;
       isFlipped := false; showAnswer := false;
       correctAnswers := correctAnswers prev;
       incorrectAnswers := incorrectAnswers prev;
       studiedCards := studiedCards prev;
       difficulty := difficulty prev; category := category prev |}
  else prev.

Definition handlePrevious (state : FlashcardState) (prev : FlashcardState)
    : FlashcardState :=
  if bool_decide (currentIndex state > 0) then
    {| currentIndex := currentIndex prev - 1;
       isFlipped := false; showAnswer := false;
       correctAnswers := correctAnswers prev;
       incorrectAnswers := incorrectAnswers prev;
       studiedCards := studiedCards prev;
       difficulty := difficulty prev; category := category prev |}
  else prev.

(** The [setState] update of [handleCorrect], for the card shown at the
    render ([currentCard.id]); the handler also starts a timer, see
    [dispatch]. *)
Definition handleCorrect (card : Api.Flashcard) (prev : FlashcardState)
    : FlashcardState :=
  {| currentIndex := currentIndex prev;
     isFlipped := isFlipped prev; showAnswer := showAnswer prev;
     correctAnswers := correctAnswers prev + 1;
     incorrectAnswers := incorrectAnswers prev;
     studiedCards := studiedCards prev ∪ {[ Api.card_id card ]};
     difficulty := difficulty prev; category := category prev |}.

Definition handleIncorrect (card : Api.Flashcard) (prev : FlashcardState)
    : FlashcardState :=
  {| currentIndex := currentIndex prev;
     isFlipped := isFlipped prev; showAnswer := showAnswer prev;
     correctAnswers := correctAnswers prev;
     incorrectAnswers := incorrectAnswers prev + 1;
     studiedCards := studiedCards prev ∪ {[ Api.card_id card ]};
     difficulty := difficulty prev; category := category prev |}.

Definition handleShuffle (prev : FlashcardState) : FlashcardState :=
  {| currentIndex := 0;
     isFlipped := false; showAnswer := false;
     correctAnswers := correctAnswers prev;
     incorrectAnswers := incorrectAnswers prev;
     studiedCards := studiedCards prev;
     difficulty := difficulty prev; category := category prev |}.

Definition handleReset (prev : FlashcardState) : FlashcardState :=
  {| currentIndex := 0;
     isFlipped := false; showAnswer := false;
     correctAnswers := 0;
     incorrectAnswers := 0;
     studiedCards := ∅;
     difficulty := difficulty prev; category := category prev |}.

(** [onChange] of the two filter [select]s. *)
Definition handleDifficultyChange (value : jsstring) (prev : FlashcardState)
    : FlashcardState :=
  {| currentIndex := 0;
     isFlipped := isFlipped prev; showAnswer := showAnswer prev;
     correctAnswers := correctAnswers prev;
     incorrectAnswers := incorrectAnswers prev;
     studiedCards := studiedCards prev;
     difficulty := value; category := category prev |}.

Definition handleCategoryChange (value : jsstring) (prev : FlashcardState)
    : FlashcardState :=
  {| currentIndex := 0;
     isFlipped := isFlipped prev; showAnswer := showAnswer prev;
     correctAnswers := correctAnswers prev;
     incorrectAnswers := incorrectAnswers prev;
     studiedCards := studiedCards prev;
     difficulty := difficulty prev; category := value |}.

(** [onClick] of the "Clear Filters" button. *)
Definition handleClearFilters (prev : FlashcardState) : FlashcardState :=
  {| currentIndex := currentIndex prev;
     isFlipped := isFlipped prev; showAnswer := showAnswer prev;
     correctAnswers := correctAnswers prev;
     incorrectAnswers := incorrectAnswers prev;
     studiedCards := studiedCards prev;
     difficulty := JS.lit "all"; category := JS.lit "all" |}.

(** *** What is on screen *)

Inductive Screen :=
| NoFlashcards                    (* "No flashcards available" *)
| NoMatch                         (* "No flashcards match the current filters" *)
| Study (card : Api.Flashcard)    (* the study view, showing [card] *)
| RenderError.                    (* [currentCard] is undefined: reading
                                     [currentCard.tags] throws *)

Definition render (state : FlashcardState) : Screen :=
  if bool_decide (length (Api.flashcards data) = 0%nat) then NoFlashcards
  else if bool_decide (totalCards state = 0) then NoMatch
  else match currentCard state with
       | Some card => Study card
       | None => RenderError
       end.

(** *** The component as a transition system

Besides the state, the component has the callbacks it gave to
[setTimeout(handleNext, 500)] and that have not run yet.  Each one
is the [handleNext] of the render at which it was scheduled, so it
is recorded as that render's state.  All delays are equal, so the
timers fire oldest first. *)

Record Component := {
  state : FlashcardState;
  timers : list FlashcardState
}.

Definition mount : Component := {| state := initialState; timers := [] |}.

Inductive Event :=
| ClickCard
| ClickNext
| ClickPrevious
| ClickCorrect
| ClickIncorrect
| ClickShuffle
| ClickReset
| SelectDifficulty (value : jsstring)
| SelectCategory (value : jsstring)
| ClickClearFilters
| TimerFires.

Definition difficultyOptions : list jsstring :=
  [ JS.lit "all"; JS.lit "easy"; JS.lit "medium"; JS.lit "hard" ].

Definition categoryOptions : list jsstring :=
  [ JS.lit "all"; JS.lit "concept"; JS.lit "definition";
    JS.lit "application"; JS.lit "analysis" ].

(** Whether the rendered screen offers the control of an event: the
    buttons exist only on the screen that renders them, "Next" and
    "Previous" carry a [disabled] attribute, and the mark buttons are
    part of the answer side of the card. *)
Definition offered (c : Component) (ev : Event) : bool :=
  match ev, render (state c) with
  | TimerFires, _ => bool_decide (timers c ≠ [])
  | ClickClearFilters, NoMatch => true
  | ClickCard, Study _ => true
  | ClickNext, Study _ =>
      negb (bool_decide (currentIndex (state c) = totalCards (state c) - 1))
  | ClickPrevious, Study _ =>
      negb (bool_decide (currentIndex (state c) = 0))
  | ClickCorrect, Study _ => showAnswer (state c)
  | ClickIncorrect, Study _ => showAnswer (state c)
  | ClickShuffle, Study _ => true
  | ClickReset, Study _ => true
  | SelectDifficulty v, Study _ => bool_decide (v ∈ difficultyOptions)
  | SelectCategory v, Study _ => bool_decide (v ∈ categoryOptions)
  | _, _ => false
  end.

Definition setState (f : FlashcardState → FlashcardState) (c : Component)
    : Component :=
  {| state := f (state c); timers := timers c |}.

Definition setTimeout_handleNext (rendered : FlashcardState) (c : Component)
    : Component :=
  {| state := state c; timers := timers c ++ [rendered] |}.

(** One event.  The handlers of a click are those of the current
    render, so they close over the current state. *)
Definition dispatch (c : Component) (ev : Event) : Component :=
  if negb (offered c ev) then c
  else
    let rendered := state c in
    match ev with
    | ClickCard => setState handleFlip c
    | ClickNext => setState (handleNext rendered) c
    | ClickPrevious => setState (handlePrevious rendered) c
    | ClickCorrect =>
        match currentCard rendered with
        | Some card =>
            setTimeout_handleNext rendered (setState (handleCorrect card) c)
        | None => c
        end
    | ClickIncorrect =>
        match currentCard rendered with
        | Some card =>
            setTimeout_handleNext rendered (setState (handleIncorrect card) c)
        | None => c
        end
    | ClickShuffle => setState handleShuffle c
    | ClickReset => setState handleReset c
    | SelectDifficulty v => setState (handleDifficultyChange v) c
    | SelectCategory v => setState (handleCategoryChange v) c
    | ClickClearFilters => setState handleClearFilters c
    | TimerFires =>
        match timers c with
        | rendered_then :: rest =>
            {| state := handleNext rendered_then (state c); timers := rest |}
        | [] => c
        end
    end.

Definition run (c : Component) (evs : list Event) : Component :=
  foldl dispatch c evs.

(** The index designates a card of the filtered deck (or the deck is
    empty). *)
Definition index_in_bounds (s : FlashcardState) : Prop :=
  totalCards s = 0 ∨ 0 ≤ currentIndex s < totalCards s.

(** All pending timers fire, oldest first. *)
Definition settle (c : Component) : Component :=
  foldl (λ c' _, dispatch c' TimerFires) c (timers c).

(** A run in which the timers an event starts fire before the next event. *)
Definition run_settled (c : Component) (evs : list Event) : Component :=
  foldl (λ c' ev, settle (dispatch c' ev)) c evs.

(** Every event of the sequence is offered when its turn comes. *)
Fixpoint all_offered (c : Component) (evs : list Event) : bool :=
  match evs with
  | [] => true
  | ev :: rest => offered c ev && all_offered (dispatch c ev) rest
  end.

(** What the handlers keep when no timer is pending: the index is 0, or
    it designates a card. *)
Definition settled (c : Component) : Prop :=
  timers c = []
  ∧ (currentIndex (state c) = 0
     ∨ 0 ≤ currentIndex (state c)
         < totalCards (state c)).

End Render.

End Flashcards.

(** ** components/features/knowledge-tree.tsx *)

Module KnowledgeTree.

(** An edge as React Flow holds it: the fields of an edge of the
    [KnowledgeGraphResponse], the optional handles and the selection
    flag ([undefined] is [false]). *)
Record Edge := {
  id : jsstring;
  source : jsstring;
  target : jsstring;
  type : option jsstring;
  sourceHandle : option jsstring;
  targetHandle : option jsstring;
  edge_selected : bool
}.

(** React Flow's [Connection]: what the user drew ([null] is [None]). *)
Record Connection := {
  conn_source : option jsstring;
  conn_target : option jsstring;
  conn_sourceHandle : option jsstring;
  conn_targetHandle : option jsstring
}.

Definition falsy (h : option jsstring) : bool :=
  match h with
  | None => true
  | Some s => negb (JS.truthy s)
  end.

(** *** [addEdge] of the reactflow package

The component imports [addEdge] from reactflow (version 11); these
three definitions follow that library's [getEdgeId],
[connectionExists] and [addEdge]. *)

Definition getEdgeId (source target : jsstring)
    (sourceHandle targetHandle : option jsstring) : jsstring :=
  JS.lit "reactflow__edge-" ++ source ++ default [] sourceHandle
    ++ JS.lit "-" ++ target ++ default [] targetHandle.

Definition connectionExists (edge : Edge) (edges : list Edge) : bool :=
  existsb (λ el,
    bool_decide (source el = source edge)
    && bool_decide (target el = target edge)
    && (bool_decide (sourceHandle el = sourceHandle edge)
        || (falsy (sourceHandle el) && falsy (sourceHandle edge)))
    && (bool_decide (targetHandle el = targetHandle edge)
        || (falsy (targetHandle el) && falsy (targetHandle edge)))) edges.

Definition addEdge (params : Connection) (edges : list Edge) : list Edge :=
  match conn_source params, conn_target params with
  | Some s, Some t =>
      if negb (JS.truthy s) || negb (JS.truthy t) then edges
      else
        let edge :=
          {| id := getEdgeId s t (conn_sourceHandle params) (conn_targetHandle params);
             source := s; target := t; type := None;
             sourceHandle := conn_sourceHandle params;
             targetHandle := conn_targetHandle params;
             edge_selected := false |} in
        if connectionExists edge edges then edges else edges ++ [edge]
  | _, _ => edges
  end.

(** *** The change handlers of [useNodesState] and [useEdgesState]

[useNodesState] returns [onNodesChange], which is
[(changes) => setNodes((nds) => applyNodeChanges(changes, nds))], and
[useEdgesState] the same for edges.  React Flow calls them with the
changes a user interaction produced: a node was measured, dragged,
selected or deselected, or removed with the delete key (Backspace), an
edge was selected, deselected or removed.  Changes of type [add] and
[reset] arise only from calls of [useReactFlow().addNodes], [setNodes]
and the like, which the component does not make.  The definitions
follow [applyChanges] of reactflow 11. *)

(** A node as React Flow holds it: the node of the
    [KnowledgeGraphResponse] (id, type, data and position), and what the
    change handlers write ([undefined] flags are [false]). *)
Record Node := {
  graphNode : Api.GraphNode;
  selected : bool;
  dragging : bool;
  dimensions : option (Z * Z)          (* width and height *)
}.

Inductive NodeChange :=
| NodeDimensionChange (id : jsstring) (size : option (Z * Z))
| NodePositionChange (id : jsstring) (position : option (Z * Z))
                     (drag : option bool)
| NodeSelectionChange (id : jsstring) (value : bool)
| NodeRemoveChange (id : jsstring).

Inductive EdgeChange :=
| EdgeSelectionChange (id : jsstring) (value : bool)
| EdgeRemoveChange (id : jsstring).

Definition nodeChangeId (c : NodeChange) : jsstring :=
  match c with
  | NodeDimensionChange i _ | NodePositionChange i _ _
  | NodeSelectionChange i _ | NodeRemoveChange i => i
  end.

Definition edgeChangeId (c : EdgeChange) : jsstring :=
  match c with
  | EdgeSelectionChange i _ | EdgeRemoveChange i => i
  end.

Definition setPosition (n : Api.GraphNode) (position : Z * Z) : Api.GraphNode :=
  {| Api.node_id := Api.node_id n; Api.node_type := Api.node_type n;
     Api.node_label := Api.node_label n;
     Api.node_description := Api.node_description n;
     Api.node_level := Api.node_level n;
     Api.node_x := position.1; Api.node_y := position.2 |}.

(** One change applied to the copy of the item: [None] is the [return res]
    of a [remove] change, which drops the item. *)
Definition applyNodeChange (item : Node) (c : NodeChange) : option Node :=
  match c with
  | NodeSelectionChange _ value =>
      Some {| graphNode := graphNode item; selected := value;
              dragging := dragging item; dimensions := dimensions item |}
  | NodePositionChange _ position drag =>
      Some {| graphNode := from_option (setPosition (graphNode item))
                             (graphNode item) position;
              selected := selected item;
              dragging := default (dragging item) drag;
              dimensions := dimensions item |}
  | NodeDimensionChange _ size =>
      Some {| graphNode := graphNode item; selected := selected item;
              dragging := dragging item;
              dimensions := match size with
                            | Some d => Some d
                            | None => dimensions item
                            end |}
  | NodeRemoveChange _ => None
  end.

(** The changes of one item, in order, until a [remove]. *)
Definition applyNodeChangesTo (changes : list NodeChange) (item : Node)
    : option Node :=
  foldl (λ acc c, acc ≫= λ updateItem, applyNodeChange updateItem c)
    (Some item)
    (List.filter (λ c, bool_decide (nodeChangeId c = Api.node_id (graphNode item)))
       changes).

Definition applyNodeChanges (changes : list NodeChange) (nodes : list Node)
    : list Node :=
  omap (applyNodeChangesTo changes) nodes.

Definition applyEdgeChange (item : Edge) (c : EdgeChange) : option Edge :=
  match c with
  | EdgeSelectionChange _ value =>
      Some {| id := id item; source := source item; target := target item;
              type := type item; sourceHandle := sourceHandle item;
              targetHandle := targetHandle item; edge_selected := value |}
  | EdgeRemoveChange _ => None
  end.

Definition applyEdgeChangesTo (changes : list EdgeChange) (item : Edge)
    : option Edge :=
  foldl (λ acc c, acc ≫= λ updateItem, applyEdgeChange updateItem c)
    (Some item)
    (List.filter (λ c, bool_decide (edgeChangeId c = id item)) changes).

Definition applyEdgeChanges (changes : list EdgeChange) (edges : list Edge)
    : list Edge :=
  omap (applyEdgeChangesTo changes) edges.

(** *** The component *)

(** The state cells: [useNodesState], [useEdgesState] and [selectedNode]. *)
Record State := {
  nodes : list Node;
  edges : list Edge;
  selectedNode : option Node
}.

Definition fromGraphNode (n : Api.GraphNode) : Node :=
  {| graphNode := n; selected := false; dragging := false;
     dimensions := None |}.

Definition fromGraphEdge (e : Api.GraphEdge) : Edge :=
  {| id := Api.edge_id e; source := Api.edge_source e;
     target := Api.edge_target e; type := Some (Api.edge_type e);
     sourceHandle := None; targetHandle := None; edge_selected := false |}.

(** The first render: the state cells are initialised from the [data]
    prop. *)
Definition mount (data : Api.KnowledgeGraphResponse) : State :=
  {| nodes := fromGraphNode <$> Api.nodes data;
     edges := fromGraphEdge <$> Api.edges data;
     selectedNode := None |}.

(** [onNodesChange] of [useNodesState]. *)
Definition onNodesChange (changes : list NodeChange) (st : State) : State :=
  {| nodes := applyNodeChanges changes (nodes st);
     edges := edges st;
     selectedNode := selectedNode st |}.

(** [onEdgesChange] of [useEdgesState]. *)
Definition onEdgesChange (changes : list EdgeChange) (st : State) : State :=
  {| nodes := nodes st;
     edges := applyEdgeChanges changes (edges st);
     selectedNode := selectedNode st |}.

(** [onConnect]: [setEdges((eds) => addEdge(params, eds))]. *)
Definition onConnect (params : Connection) (st : State) : State :=
  {| nodes := nodes st;
     edges := addEdge params (edges st);
     selectedNode := selectedNode st |}.

(** [onNodeClickHandler]: [setSelectedNode(node)]. *)
Definition onNodeClickHandler (node : Node) (st : State) : State :=
  {| nodes := nodes st;
     edges := edges st;
     selectedNode := Some node |}.

(** The structure of the rendered graph: node ids, and edge ids with
    their endpoints. *)
Definition nodeIds (st : State) : list jsstring :=
  (λ n, Api.node_id (graphNode n)) <$> nodes st.

Definition edgeRef (e : Edge) : jsstring * jsstring * jsstring :=
  (id e, source e, target e).

Definition edgeRefs (st : State) : list (jsstring * jsstring * jsstring) :=
  edgeRef <$> edges st.

(** What a node says: its id, type and data.  Position, selection,
    dragging and dimensions are layout. *)
Definition nodeContent (n : Api.GraphNode)
    : jsstring * jsstring * jsstring * jsstring * Z :=
  (Api.node_id n, Api.node_type n, Api.node_label n,
   Api.node_description n, Api.node_level n).

Definition renderedContent (st : State) :=
  (λ n, nodeContent (graphNode n)) <$> nodes st.

(** The handlers the [ReactFlow] element is given (lines 172-183). *)
Inductive Interaction :=
| NodesChange (changes : list NodeChange)
| EdgesChange (changes : list EdgeChange)
| Connect (params : Connection)
| NodeClick (node : Node).

Definition interact (st : State) (i : Interaction) : State :=
  match i with
  | NodesChange changes => onNodesChange changes st
  | EdgesChange changes => onEdgesChange changes st
  | Connect params => onConnect params st
  | NodeClick node => onNodeClickHandler node st
  end.

(** The connections drawn in a sequence of interactions. *)
Definition drawn (actions : list Interaction) : list Connection :=
  omap (λ i, match i with Connect params => Some params | _ => None end)
    actions.

(** Where a rendered edge comes from: the given graph, or a connection
    drawn among [actions]. *)
Definition edgeOrigin (data : Api.KnowledgeGraphResponse)
    (actions : list Interaction) (e : Edge) : Prop :=
  (∃ given, given ∈ Api.edges data
            ∧ edgeRef e
              = (Api.edge_id given, Api.edge_source given, Api.edge_target given))
  ∨ (∃ params, params ∈ drawn actions
               ∧ conn_source params = Some (source e)
               ∧ conn_target params = Some (target e)).

End KnowledgeTree.

(** ** components/features/dashboard.tsx *)

Module Dashboard.

Inductive View :=
| view_upload
| view_knowledge_tree
| view_summaries
| view_flashcards
| view_tutor.

Record DashboardState := {
  currentView : View;
  document : option Api.DocumentUploadResponse;
  knowledgeGraph : option Api.KnowledgeGraphResponse;
  flashcards : option Api.FlashcardResponse;
  summaries : option Api.SummaryResponse;
  isGenerating : bool;
  generationProgress : Z
}.

Definition initialState : DashboardState :=
  {| currentView := view_upload; document := None; knowledgeGraph := None;
     flashcards := None; summaries := None;
     isGenerating := false; generationProgress := 0 |}.

Definition handleViewChange (view : View) (prev : DashboardState)
    : DashboardState :=
  {| currentView := view; document := document prev;
     knowledgeGraph := knowledgeGraph prev; flashcards := flashcards prev;
     summaries := summaries prev; isGenerating := isGenerating prev;
     generationProgress := generationProgress prev |}.

(** *** The [setState] updates of [handleUploadComplete] *)

(** First statement of the handler. *)
Definition begin_generation (doc : Api.DocumentUploadResponse)
    (prev : DashboardState) : DashboardState :=
  {| currentView := currentView prev; document := Some doc;
     knowledgeGraph := knowledgeGraph prev; flashcards := flashcards prev;
     summaries := summaries prev;
     isGenerating := true; generationProgress := 0 |}.

(** The callback of [setInterval(..., 500)]. *)
Definition progress_tick (prev : DashboardState) : DashboardState :=
  {| currentView := currentView prev; document := document prev;
     knowledgeGraph := knowledgeGraph prev; flashcards := flashcards prev;
     summaries := summaries prev; isGenerating := isGenerating prev;
     generationProgress := Z.min (generationProgress prev + 10) 90 |}.

(** After the [await], with the three results. *)
Definition store_artifacts (g : Api.KnowledgeGraphResponse)
    (f : Api.FlashcardResponse) (s : Api.SummaryResponse)
    (prev : DashboardState) : DashboardState :=
  {| currentView := view_knowledge_tree; document := document prev;
     knowledgeGraph := Some g; flashcards := Some f; summaries := Some s;
     isGenerating := false; generationProgress := 100 |}.

(** In the [catch] block. *)
Definition generation_failed (prev : DashboardState) : DashboardState :=
  {| currentView := currentView prev; document := document prev;
     knowledgeGraph := knowledgeGraph prev; flashcards := flashcards prev;
     summaries := summaries prev;
     isGenerating := false; generationProgress := 0 |}.

(** *** [handleUploadComplete] as a transition system

The handler runs up to [await Promise.all([...])], is suspended, and
is resumed when the combined promise settles: fulfilled once all three
requests are fulfilled, rejected as soon as one of them is rejected.
While it is suspended the interval callback and the settlements of the
three requests arrive in any order.

Here one run is followed on its own: [ui] is the state as this run
leaves it when nothing else writes to the cell in between.  The state
cell shared with the navigation and with other runs is the subject of
[DashboardSession] below. *)

Inductive Promise (A : Type) :=
| Pending
| Fulfilled (value : A)
| Rejected.
Arguments Pending {A}.
Arguments Fulfilled {A} value.
Arguments Rejected {A}.

(** What the handler does, in program order. *)
Inductive Effect :=
| SetState (after : DashboardState)
| SetInterval
| ClearInterval
| Call (request : Api.ApiCall)
| AwaitAll
| ConsoleError.

Record Run := {
  ui : DashboardState;
  graphPromise : Promise Api.KnowledgeGraphResponse;
  flashcardsPromise : Promise Api.FlashcardResponse;
  summaryPromise : Promise Api.SummaryResponse;
  progressInterval : bool;     (* the interval is armed *)
  suspended : bool;            (* the handler waits at the [await] *)
  effects : list Effect
}.

(** The handler from its call to the [await]. *)
Definition handleUploadComplete (doc : Api.DocumentUploadResponse)
    (prev : DashboardState) : Run :=
  let s := begin_generation doc prev in
  {| ui := s;
     graphPromise := Pending;
     flashcardsPromise := Pending;
     summaryPromise := Pending;
     progressInterval := true;
     suspended := true;
     effects :=
       [ SetState s;
         SetInterval;
         Call (Api.generateKnowledgeGraph (Api.document_id doc) (Api.raw_text doc));
         Call (Api.generateFlashcards (Api.document_id doc) (Api.raw_text doc));
         Call (Api.generateSummary (Api.document_id doc) (Api.raw_text doc));
         AwaitAll ] |}.

(** The state of [Promise.all] over the three requests. *)
Definition all_promise (r : Run)
    : Promise (Api.KnowledgeGraphResponse * Api.FlashcardResponse
               * Api.SummaryResponse) :=
  match graphPromise r, flashcardsPromise r, summaryPromise r with
  | Rejected, _, _ | _, Rejected, _ | _, _, Rejected => Rejected
  | Fulfilled g, Fulfilled f, Fulfilled s => Fulfilled (g, f, s)
  | _, _, _ => Pending
  end.

(** The continuation of the [await]: the rest of the [try] block, or the
    [catch] block. *)
Definition resume (r : Run) : Run :=
  if negb (suspended r) then r
  else
    match all_promise r with
    | Pending => r
    | Fulfilled (g, f, s) =>
        let s' := store_artifacts g f s (ui r) in
        {| ui := s';
           graphPromise := graphPromise r;
           flashcardsPromise := flashcardsPromise r;
           summaryPromise := summaryPromise r;
           progressInterval := false;
           suspended := false;
           effects := effects r ++ [ClearInterval; SetState s'] |}
    | Rejected =>
        let s' := generation_failed (ui r) in
        {| ui := s';
           graphPromise := graphPromise r;
           flashcardsPromise := flashcardsPromise r;
           summaryPromise := summaryPromise r;
           progressInterval := progressInterval r;
           suspended := false;
           effects := effects r ++ [ConsoleError; SetState s'] |}
    end.

(** What can happen while the handler is suspended, and after: [None] in
    a settlement is a rejection. *)
Inductive Event :=
| IntervalFires
| GraphSettles (outcome : option Api.KnowledgeGraphResponse)
| FlashcardsSettle (outcome : option Api.FlashcardResponse)
| SummarySettles (outcome : option Api.SummaryResponse).

Definition settle {A} (p : Promise A) (outcome : option A) : Promise A :=
  match p with
  | Pending =>
      match outcome with
      | Some v => Fulfilled v
      | None => Rejected
      end
  | _ => p            (* a promise settles once *)
  end.

Definition deliver (r : Run) (ev : Event) : Run :=
  match ev with
  | IntervalFires =>
      if progressInterval r then
        let s' := progress_tick (ui r) in
        {| ui := s';
           graphPromise := graphPromise r;
           flashcardsPromise := flashcardsPromise r;
           summaryPromise := summaryPromise r;
           progressInterval := progressInterval r;
           suspended := suspended r;
           effects := effects r ++ [SetState s'] |}
      else r
  | GraphSettles o =>
      resume {| ui := ui r;
                graphPromise := settle (graphPromise r) o;
                flashcardsPromise := flashcardsPromise r;
                summaryPromise := summaryPromise r;
                progressInterval := progressInterval r;
                suspended := suspended r;
                effects := effects r |}
  | FlashcardsSettle o =>
      resume {| ui := ui r;
                graphPromise := graphPromise r;
                flashcardsPromise := settle (flashcardsPromise r) o;
                summaryPromise := summaryPromise r;
                progressInterval := progressInterval r;
                suspended := suspended r;
                effects := effects r |}
  | SummarySettles o =>
      resume {| ui := ui r;
                graphPromise := graphPromise r;
                flashcardsPromise := flashcardsPromise r;
                summaryPromise := settle (summaryPromise r) o;
                progressInterval := progressInterval r;
                suspended := suspended r;
                effects := effects r |}
  end.

(** A whole run: the upload completes with [doc] in state [prev], then
    the events arrive. *)
Definition execute (doc : Api.DocumentUploadResponse) (prev : DashboardState)
    (evs : list Event) : Run :=
  foldl deliver (handleUploadComplete doc prev) evs.

(** The three artifact cells of the state. *)
Definition artifacts (s : DashboardState) :=
  (knowledgeGraph s, flashcards s, summaries s).

Definition all_fulfilled (r : Run) : Prop :=
  ∃ g f s, graphPromise r = Fulfilled g ∧ flashcardsPromise r = Fulfilled f
           ∧ summaryPromise r = Fulfilled s.

(** The phase is marked complete. *)
Definition marked_complete (s : DashboardState) : Prop :=
  isGenerating s = false ∧ generationProgress s = 100
  ∧ currentView s = view_knowledge_tree.

Definition some_rejected (r : Run) : Prop :=
  graphPromise r = Rejected
  ∨ flashcardsPromise r = Rejected
  ∨ summaryPromise r = Rejected.

(** What holds of a run at every moment, by the state of the combined
    promise. *)
Definition run_invariant (doc : Api.DocumentUploadResponse)
    (prev : DashboardState) (r : Run) : Prop :=
  effects (handleUploadComplete doc prev)
    `prefix_of` effects r
  ∧ match all_promise r with
    | Pending =>
        suspended r = true
        ∧ artifacts (ui r) = artifacts prev
        ∧ isGenerating (ui r) = true
        ∧ generationProgress (ui r) ≤ 90
    | Rejected =>
        suspended r = false
        ∧ artifacts (ui r) = artifacts prev
        ∧ isGenerating (ui r) = false
        ∧ generationProgress (ui r) ≤ 90
        ∧ ConsoleError ∈ effects r
    | Fulfilled (g, f, s) =>
        suspended r = false
        ∧ progressInterval r = false
        ∧ artifacts (ui r) = (Some g, Some f, Some s)
        ∧ marked_complete (ui r)
    end.

End Dashboard.

(** ** The Knowledge-Tree stage (backend)

The stage runs in the backend ([agents/knowledge_tree_agent.py] behind
[POST /generate/graph]); the frontend only declares the shape of its
result ([KnowledgeGraphResponse]) and calls it. *)

Module KnowledgeTreeStage.

Inductive StageError :=
| TransportError
| RateLimited
| MalformedResponse.

Definition nodeIds (g : Api.KnowledgeGraphResponse) : list jsstring :=
  Api.node_id <$> Api.nodes g.

Definition isRoot (n : Api.GraphNode) : bool :=
  bool_decide (Api.node_type n = JS.lit "root").

Definition isLeaf (n : Api.GraphNode) : bool :=
  bool_decide (Api.node_type n = JS.lit "leaf").

Definition roots (g : Api.KnowledgeGraphResponse) : list Api.GraphNode :=
  List.filter isRoot (Api.nodes g).

(** *** What the specification asks of a graph *)

(** An edge of [g] leads from the node with id [a] to the node with id [b]. *)
Definition edge_between (g : Api.KnowledgeGraphResponse) (a b : jsstring) : Prop :=
  ∃ e, e ∈ Api.edges g ∧ Api.edge_source e = a ∧ Api.edge_target e = b.

(** [b] is reachable from [a] by a path of any length, also of none. *)
Definition reachable (g : Api.KnowledgeGraphResponse) : jsstring → jsstring → Prop :=
  rtc (edge_between g).

(** [b] is reachable from [a] via edges: by a path of at least one edge. *)
Definition reachable_via_edges (g : Api.KnowledgeGraphResponse)
    : jsstring → jsstring → Prop :=
  tc (edge_between g).

Definition endpoints_exist (g : Api.KnowledgeGraphResponse) : Prop :=
  ∀ e, e ∈ Api.edges g →
    Api.edge_source e ∈ nodeIds g ∧ Api.edge_target e ∈ nodeIds g.

Definition unique_root (g : Api.KnowledgeGraphResponse) (r : Api.GraphNode) : Prop :=
  roots g = [r].

(** Every non-root node is reachable from a root-variant node via edges. *)
Definition connected (g : Api.KnowledgeGraphResponse) : Prop :=
  ∀ n, n ∈ Api.nodes g → isRoot n = false →
    ∃ r, r ∈ Api.nodes g ∧ isRoot r = true
         ∧ reachable_via_edges g (Api.node_id r) (Api.node_id n).

(** A path of [g]: nodes of [g], each linked to the next by an edge. *)
Inductive path (g : Api.KnowledgeGraphResponse) : list Api.GraphNode → Prop :=
| path_end n :
    n ∈ Api.nodes g → path g [n]
| path_step a b rest :
    a ∈ Api.nodes g →
    edge_between g (Api.node_id a) (Api.node_id b) →
    path g (b :: rest) →
    path g (a :: b :: rest).

Definition root_to_leaf (g : Api.KnowledgeGraphResponse) (p : list Api.GraphNode) : Prop :=
  path g p
  ∧ (∃ r, head p = Some r ∧ isRoot r = true)
  ∧ (∃ l, last p = Some l ∧ isLeaf l = true).

Definition levels_non_decreasing (p : list Api.GraphNode) : Prop :=
  ∀ i j a b, (i ≤ j)%nat → p !! i = Some a → p !! j = Some b →
    Api.node_level a ≤ Api.node_level b.

(** *** Validation, as the stage can run it *)

Definition variants : list jsstring :=
  [ JS.lit "root"; JS.lit "branch"; JS.lit "leaf" ].

Definition check_variants (g : Api.KnowledgeGraphResponse) : bool :=
  forallb (λ n, bool_decide (Api.node_type n ∈ variants)) (Api.nodes g).

Definition check_endpoints (g : Api.KnowledgeGraphResponse) : bool :=
  forallb (λ e, bool_decide (Api.edge_source e ∈ nodeIds g)
                && bool_decide (Api.edge_target e ∈ nodeIds g)) (Api.edges g).

(** The targets of the edges that leave the set. *)
Definition successors (g : Api.KnowledgeGraphResponse) (seen : gset jsstring)
    : gset jsstring :=
  list_to_set
    (Api.edge_target <$>
       List.filter (λ e, bool_decide (Api.edge_source e ∈ seen)) (Api.edges g)).

(** One round of the search. *)
Definition expand (g : Api.KnowledgeGraphResponse) (seen : gset jsstring)
    : gset jsstring :=
  seen ∪ successors g seen.

Fixpoint search (g : Api.KnowledgeGraphResponse) (rounds : nat)
    (seen : gset jsstring) : gset jsstring :=
  match rounds with
  | O => seen
  | S rounds' => search g rounds' (expand g seen)
  end.

(** The ids an edge leads to from what the search from the roots finds:
    every node that is not a root must have its id among them. *)
Definition check_connected (g : Api.KnowledgeGraphResponse) : bool :=
  let seen := search g (length (Api.nodes g))
                (list_to_set (Api.node_id <$> roots g)) in
  let reached := successors g seen in
  forallb (λ n, isRoot n || bool_decide (Api.node_id n ∈ reached)) (Api.nodes g).

Definition check_levels (g : Api.KnowledgeGraphResponse) : bool :=
  forallb (λ e,
    forallb (λ a,
      forallb (λ b,
        negb (bool_decide (Api.node_id a = Api.edge_source e)
              && bool_decide (Api.node_id b = Api.edge_target e))
        || (Api.node_level a <=? Api.node_level b))
      (Api.nodes g)) (Api.nodes g)) (Api.edges g).

(** Modelled from the spec: the validation the stage applies to the reply
    (sections 3, 4.3 and 8): the variant tag of every node, the endpoints
    of every edge, every non-root node reachable from a root via edges,
    and no edge leading to a lower level.  That there is exactly one root
    is not checked: section 3 calls it "not strictly enforced". *)
Definition validate (g : Api.KnowledgeGraphResponse) : bool :=
  check_variants g && check_endpoints g && check_connected g && check_levels g.

(** No edge leads to a lower level. *)
Definition edge_levels (g : Api.KnowledgeGraphResponse) : Prop :=
  ∀ a b, a ∈ Api.nodes g → b ∈ Api.nodes g →
    edge_between g (Api.node_id a) (Api.node_id b) →
    Api.node_level a ≤ Api.node_level b.

(** All that the validation asks of a knowledge graph. *)
Definition well_formed (g : Api.KnowledgeGraphResponse) : Prop :=
  (∀ n, n ∈ Api.nodes g → Api.node_type n ∈ variants)
  ∧ endpoints_exist g
  ∧ connected g
  ∧ edge_levels g.

Section Stage.

(** The Completion Client, for the prompt built from a document text:
    the parsed reply, or the error of the call. *)
Variable complete : jsstring → StageError + Api.KnowledgeGraphResponse.

(** Modelled from the spec: the Knowledge-Tree stage is not among the
    sources (backend, [agents/knowledge_tree_agent.py]).  By sections
    4.2 and 4.3 of the specification a stage is one call of the
    Completion Client followed by deterministic validation of the
    returned structure; a validation failure is a [MalformedResponse]
    stage failure; the stage neither substitutes defaults nor invents
    edges, so a reply that passes is returned as it is. *)
Definition knowledge_tree_stage (text : jsstring)
    : StageError + Api.KnowledgeGraphResponse :=
  match complete text with
  | inl err => inl err
  | inr g => if validate g then inr g else inl MalformedResponse
  end.

End Stage.

End KnowledgeTreeStage.

(** ** lib/api.ts: the upload request *)

Module ApiUpload.

(** The arguments of [apiCall('/upload', ...)]: the body is a [FormData]
    (its entries in order), and the headers are the empty object. *)
Record FormCall := {
  endpoint : jsstring;
  method : jsstring;
  formData : list (jsstring * FileUpload.File);
  headers : list (jsstring * jsstring)
}.

Definition uploadDocument (file : FileUpload.File) : FormCall :=
  {| endpoint := JS.lit "/upload";
     method := JS.lit "POST";
     formData := [ (JS.lit "file", file) ];
     headers := [] |}.

End ApiUpload.

(** ** file-upload.tsx: the component *)

Module FileUploadComponent.

(** [handleDrop] and [handleFileInputChange]: the first file of the list
    is selected, an empty list is ignored. *)
Definition handleFiles (files : list FileUpload.File)
    (prev : FileUpload.UploadState) : FileUpload.UploadState :=
  match files with
  | file :: _ => FileUpload.handleFileSelect file prev
  | [] => prev
  end.

(** A file passes both checks of [handleFileSelect]. *)
Definition accepted (f : FileUpload.File) : Prop :=
  FileUpload.type f ∈ FileUpload.allowedTypes
  ∧ FileUpload.size f ≤ 50 * 1024 * 1024.

(** *** The [setUploadState] updates of [handleUpload] *)

Definition upload_started (prev : FileUpload.UploadState) : FileUpload.UploadState :=
  {| FileUpload.file := FileUpload.file prev; FileUpload.uploading := true;
     FileUpload.progress := 0; FileUpload.error := None;
     FileUpload.success := FileUpload.success prev |}.

(** The callback of [setInterval(..., 200)]. *)
Definition upload_tick (prev : FileUpload.UploadState) : FileUpload.UploadState :=
  {| FileUpload.file := FileUpload.file prev;
     FileUpload.uploading := FileUpload.uploading prev;
     FileUpload.progress := Z.min (FileUpload.progress prev + 10) 90;
     FileUpload.error := FileUpload.error prev;
     FileUpload.success := FileUpload.success prev |}.

Definition upload_succeeded (prev : FileUpload.UploadState) : FileUpload.UploadState :=
  {| FileUpload.file := FileUpload.file prev; FileUpload.uploading := false;
     FileUpload.progress := 100; FileUpload.error := FileUpload.error prev;
     FileUpload.success := true |}.

(** What [uploadDocument] can come back with: a document, an [Error]
    carrying a message, or any other thrown value. *)
Inductive Outcome :=
| Uploaded (result : Api.DocumentUploadResponse)
| ThrewError (message : jsstring)
| ThrewOther.

(** [error instanceof Error ? error.message : 'Upload failed'] *)
Definition failureMessage (o : Outcome) : jsstring :=
  match o with
  | ThrewError message => message
  | _ => JS.lit "Upload failed"
  end.

(** In the [catch] block. *)
Definition upload_failed (o : Outcome) (prev : FileUpload.UploadState)
    : FileUpload.UploadState :=
  {| FileUpload.file := FileUpload.file prev; FileUpload.uploading := false;
     FileUpload.progress := 0; FileUpload.error := Some (failureMessage o);
     FileUpload.success := FileUpload.success prev |}.

(** *** What is on screen *)

(** [uploadState.error && ...]: [null] and the empty string are falsy. *)
Definition errorShown (s : FileUpload.UploadState) : option jsstring :=
  match FileUpload.error s with
  | Some message => if JS.truthy message then Some message else None
  | None => None
  end.

Record Card := {
  shownFile : FileUpload.File;
  removeButton : bool;        (* the X button *)
  progressPanel : bool;       (* "Uploading..." with the percentage *)
  errorPanel : option jsstring;
  successPanel : bool;        (* "File uploaded successfully!" *)
  actionButtons : bool        (* "Upload & Process" and "Cancel" *)
}.

Inductive Screen :=
| DropZone
| FileCard (card : Card).

Definition render (s : FileUpload.UploadState) : Screen :=
  match FileUpload.file s with
  | None => DropZone
  | Some f =>
      FileCard
        {| shownFile := f;
           removeButton := negb (FileUpload.uploading s) && negb (FileUpload.success s);
           progressPanel := FileUpload.uploading s;
           errorPanel := errorShown s;
           successPanel := FileUpload.success s;
           actionButtons :=
             negb (FileUpload.uploading s) && negb (FileUpload.success s)
             && negb (bool_decide (is_Some (errorShown s))) |}
  end.

(** *** The component as a transition system

Besides the state cells the component has: the calls of
[uploadDocument] that have not settled, the number of armed progress
intervals, and the results waiting in [setTimeout(() =>
onUploadComplete(result), 500)].  Three logs record what it did: the
files handed to [uploadDocument], the messages computed in the [catch]
block, and the calls of [onUploadComplete]. *)

Record Component := {
  state : FileUpload.UploadState;
  inFlight : list ApiUpload.FormCall;
  intervals : nat;
  timeouts : list Api.DocumentUploadResponse;
  uploads : list FileUpload.File;
  failures : list jsstring;
  completed : list Api.DocumentUploadResponse
}.

Definition mount : Component :=
  {| state := FileUpload.initialState; inFlight := []; intervals := 0%nat;
     timeouts := []; uploads := []; failures := []; completed := [] |}.

Inductive Event :=
| SelectFiles (files : list FileUpload.File)   (* drop, or the file dialog *)
| ClickUpload
| ClickRemove                                  (* the X button, or "Cancel" *)
| IntervalFires
| UploadSettles (outcome : Outcome)
| TimeoutFires.

Definition offered (c : Component) (ev : Event) : bool :=
  match ev, render (state c) with
  | SelectFiles _, DropZone => true
  | ClickUpload, FileCard card => actionButtons card
  | ClickRemove, FileCard card => removeButton card
  | IntervalFires, _ => bool_decide (intervals c ≠ 0%nat)
  | UploadSettles _, _ => bool_decide (inFlight c ≠ [])
  | TimeoutFires, _ => bool_decide (timeouts c ≠ [])
  | _, _ => false
  end.

Definition setUploadState (f : FileUpload.UploadState → FileUpload.UploadState)
    (c : Component) : Component :=
  {| state := f (state c); inFlight := inFlight c; intervals := intervals c;
     timeouts := timeouts c; uploads := uploads c; failures := failures c;
     completed := completed c |}.

(** [handleUpload] from its call to the [await]. *)
Definition handleUpload (c : Component) : Component :=
  match FileUpload.file (state c) with
  | None => c
  | Some f =>
      {| state := upload_started (state c);
         inFlight := inFlight c ++ [ApiUpload.uploadDocument f];
         intervals := S (intervals c);
         timeouts := timeouts c;
         uploads := uploads c ++ [f];
         failures := failures c;
         completed := completed c |}
  end.

(** The continuation of the [await]: the rest of the [try] block, which
    clears the interval of this call, or the [catch] block, which does
    not. *)
Definition handleUpload_settled (o : Outcome) (c : Component) : Component :=
  match inFlight c with
  | [] => c
  | _ :: rest =>
      match o with
      | Uploaded result =>
          {| state := upload_succeeded (state c);
             inFlight := rest;
             intervals := pred (intervals c);
             timeouts := timeouts c ++ [result];
             uploads := uploads c;
             failures := failures c;
             completed := completed c |}
      | _ =>
          {| state := upload_failed o (state c);
             inFlight := rest;
             intervals := intervals c;
             timeouts := timeouts c;
             uploads := uploads c;
             failures := failures c ++ [failureMessage o];
             completed := completed c |}
      end
  end.

Definition dispatch (c : Component) (ev : Event) : Component :=
  if negb (offered c ev) then c
  else
    match ev with
    | SelectFiles files => setUploadState (handleFiles files) c
    | ClickUpload => handleUpload c
    | ClickRemove => setUploadState FileUpload.handleRemoveFile c
    | IntervalFires => setUploadState upload_tick c
    | UploadSettles o => handleUpload_settled o c
    | TimeoutFires =>
        match timeouts c with
        | result :: rest =>
            {| state := state c; inFlight := inFlight c;
               intervals := intervals c; timeouts := rest;
               uploads := uploads c; failures := failures c;
               completed := completed c ++ [result] |}
        | [] => c
        end
    end.

Definition run (evs : list Event) : Component := foldl dispatch mount evs.

(** The documents the server returned in a sequence of events. *)
Definition returned (evs : list Event) : list Api.DocumentUploadResponse :=
  omap (λ ev, match ev with UploadSettles (Uploaded r) => Some r | _ => None end) evs.

(** What every reachable component satisfies. *)
Definition consistent (c : Component) : Prop :=
  match inFlight c with
  | [] => FileUpload.uploading (state c) = false
  | [call] =>
      FileUpload.uploading (state c) = true
      ∧ FileUpload.success (state c) = false
      ∧ ∃ f, FileUpload.file (state c) = Some f
             ∧ call = ApiUpload.uploadDocument f
  | _ => False
  end
  ∧ (∀ f, FileUpload.file (state c) = Some f → accepted f)
  ∧ Forall accepted (uploads c)
  ∧ (if FileUpload.success (state c)
     then is_Some (FileUpload.file (state c))
          ∧ length (timeouts c ++ completed c) = 1%nat
     else timeouts c = [] ∧ completed c = [])
  ∧ 0 ≤ FileUpload.progress (state c) ≤ 100
  ∧ (∀ f m, FileUpload.file (state c) = Some f →
            FileUpload.error (state c) = Some m → m ∈ failures c)
  ∧ (intervals c = length (failures c) + length (inFlight c))%nat.

End FileUploadComponent.

(** ** tutor-chat.tsx: the component *)

Module TutorChatComponent.

Section Props.

(** The [context] prop. *)
Variable context : option jsstring.

(** Besides the state cells: the calls of [askTutor] that have not
    settled, and the log of all calls made. *)
Record Component := {
  state : TutorChat.State;
  pending : list Api.ApiCall;
  sent : list Api.ApiCall
}.

Definition mount (clock : TutorChat.Clock) : Component :=
  {| state := TutorChat.initialState clock; pending := []; sent := [] |}.

Inductive Event :=
| TypeText (value : jsstring)
| KeyPress (key : jsstring) (shiftKey : bool) (clock : TutorChat.Clock)
| ClickSend (clock : TutorChat.Clock)
| Settles (outcome : option Api.TutorResponse) (clock : TutorChat.Clock).

(** The input is [disabled] while a request is in flight; the button is
    [disabled] under the guard of [handleSendMessage]. *)
Definition offered (c : Component) (ev : Event) : bool :=
  match ev with
  | TypeText _ => negb (TutorChat.isLoading (state c))
  | KeyPress _ _ _ => negb (TutorChat.isLoading (state c))
  | ClickSend _ =>
      negb (negb (JS.truthy (JS.trim (TutorChat.inputValue (state c))))
            || TutorChat.isLoading (state c))
  | Settles _ _ => bool_decide (pending c ≠ [])
  end.

Definition send (clock : TutorChat.Clock) (c : Component) : Component :=
  let '(st, request) := TutorChat.handleSendMessage context clock (state c) in
  {| state := st;
     pending := pending c ++ option_list request;
     sent := sent c ++ option_list request |}.

(** [handleKeyPress]: Enter without Shift sends. *)
Definition handleKeyPress (key : jsstring) (shiftKey : bool)
    (clock : TutorChat.Clock) (c : Component) : Component :=
  if bool_decide (key = JS.lit "Enter") && negb shiftKey then send clock c else c.

Definition dispatch (c : Component) (ev : Event) : Component :=
  if negb (offered c ev) then c
  else
    match ev with
    | TypeText value =>
        {| state := TutorChat.handleInputChange value (state c);
           pending := pending c; sent := sent c |}
    | KeyPress key shiftKey clock => handleKeyPress key shiftKey clock c
    | ClickSend clock => send clock c
    | Settles outcome clock =>
        {| state := TutorChat.handleSendMessage_settled outcome clock (state c);
           pending := tail (pending c); sent := sent c |}
    end.

Definition run (clock : TutorChat.Clock) (evs : list Event) : Component :=
  foldl dispatch (mount clock) evs.

(** The types of the messages of a transcript with [n] finished exchanges:
    the greeting, then question and reply in turn, then the open question
    while a request is in flight. *)
Definition pattern (n : nat) (loading : bool) : list TutorChat.MessageType :=
  TutorChat.tutor
  :: mjoin (replicate n [TutorChat.user; TutorChat.tutor])
  ++ (if loading then [TutorChat.user] else []).

Definition questions (c : Component) : list jsstring :=
  TutorChat.content <$>
    List.filter (λ m, match TutorChat.type m with
                      | TutorChat.user => true
                      | TutorChat.tutor => false
                      end) (TutorChat.messages (state c)).

Definition consistent (c : Component) : Prop :=
  (∃ n, TutorChat.type <$> TutorChat.messages (state c)
        = pattern n (TutorChat.isLoading (state c)))
  ∧ (if TutorChat.isLoading (state c)
     then ∃ request, pending c = [request]
     else pending c = [])
  ∧ sent c = (λ q, Api.askTutor q context) <$> questions c.

End Props.

End TutorChatComponent.

(** ** knowledge-tree.tsx: the node statistics *)

Module KnowledgeTreeStats.

Record Stats := {
  total : Z;
  root : Z;
  branch : Z;
  leaf : Z
}.

(** One step of the [forEach]. *)
Definition count (stats : Stats) (node : Api.GraphNode) : Stats :=
  if bool_decide (Api.node_type node = JS.lit "root") then
    {| total := total stats; root := root stats + 1;
       branch := branch stats; leaf := leaf stats |}
  else if bool_decide (Api.node_type node = JS.lit "branch") then
    {| total := total stats; root := root stats;
       branch := branch stats + 1; leaf := leaf stats |}
  else if bool_decide (Api.node_type node = JS.lit "leaf") then
    {| total := total stats; root := root stats;
       branch := branch stats; leaf := leaf stats + 1 |}
  else stats.

Definition nodeStats (nodes : list Api.GraphNode) : Stats :=
  foldl count
    {| total := Z.of_nat (length nodes); root := 0; branch := 0; leaf := 0 |}
    nodes.

(** The number of nodes whose type is [t]. *)
Definition typed (t : string) (nodes : list Api.GraphNode) : Z :=
  Z.of_nat (length (List.filter
                      (λ n, bool_decide (Api.node_type n = JS.lit t)) nodes)).

(** The number of nodes whose type is none of the three. *)
Definition untyped (nodes : list Api.GraphNode) : Z :=
  Z.of_nat (length (List.filter
                      (λ n, negb (bool_decide (Api.node_type n
                                               ∈ KnowledgeTreeStage.variants)))
                      nodes)).

End KnowledgeTreeStats.

(** ** dashboard.tsx: navigation and the main content *)

Module DashboardUI.

(** Which navigation buttons can be clicked: all but "Upload" are rendered
    only once a document is there, and three of them are [disabled] while
    their artifact is missing. *)
Definition navEnabled (s : Dashboard.DashboardState) (view : Dashboard.View) : bool :=
  match view with
  | Dashboard.view_upload => true
  | Dashboard.view_knowledge_tree =>
      bool_decide (is_Some (Dashboard.document s))
      && bool_decide (is_Some (Dashboard.knowledgeGraph s))
  | Dashboard.view_summaries =>
      bool_decide (is_Some (Dashboard.document s))
      && bool_decide (is_Some (Dashboard.summaries s))
  | Dashboard.view_flashcards =>
      bool_decide (is_Some (Dashboard.document s))
      && bool_decide (is_Some (Dashboard.flashcards s))
  | Dashboard.view_tutor => bool_decide (is_Some (Dashboard.document s))
  end.

(** What [renderMainContent] returns. *)
Inductive Content :=
| UploadScreen
| KnowledgeTreeView (data : Api.KnowledgeGraphResponse)
| KnowledgeTreePlaceholder       (* "Knowledge tree is being generated..." *)
| SummariesView (data : Api.SummaryResponse)
| SummariesPlaceholder           (* "Summaries are being generated..." *)
| FlashcardsView (data : Api.FlashcardResponse)
| FlashcardsPlaceholder          (* "Flashcards are being generated..." *)
| TutorChatView (context : option jsstring).

Definition renderMainContent (s : Dashboard.DashboardState) : Content :=
  match Dashboard.currentView s with
  | Dashboard.view_upload => UploadScreen
  | Dashboard.view_knowledge_tree =>
      match Dashboard.knowledgeGraph s with
      | Some g => KnowledgeTreeView g
      | None => KnowledgeTreePlaceholder
      end
  | Dashboard.view_summaries =>
      match Dashboard.summaries s with
      | Some d => SummariesView d
      | None => SummariesPlaceholder
      end
  | Dashboard.view_flashcards =>
      match Dashboard.flashcards s with
      | Some d => FlashcardsView d
      | None => FlashcardsPlaceholder
      end
  | Dashboard.view_tutor =>
      TutorChatView (Api.raw_text <$> Dashboard.document s)
  end.

(** The state updates of the component, one at a time: those of
    [handleUploadComplete] (of any number of calls, in any interleaving)
    and the navigation clicks the screen offers. *)
Inductive Update :=
| Begin (doc : Api.DocumentUploadResponse)
| Tick
| Store (g : Api.KnowledgeGraphResponse) (f : Api.FlashcardResponse)
        (s : Api.SummaryResponse)
| Fail
| Navigate (view : Dashboard.View).

Definition apply (s : Dashboard.DashboardState) (u : Update) : Dashboard.DashboardState :=
  match u with
  | Begin doc => Dashboard.begin_generation doc s
  | Tick => Dashboard.progress_tick s
  | Store g f d => Dashboard.store_artifacts g f d s
  | Fail => Dashboard.generation_failed s
  | Navigate view =>
      if navEnabled s view then Dashboard.handleViewChange view s else s
  end.

Definition reach (us : list Update) : Dashboard.DashboardState :=
  foldl apply Dashboard.initialState us.

Definition isNavigate (u : Update) : bool :=
  match u with Navigate _ => true | _ => false end.

(** The current view has what it displays. *)
Definition view_ready (s : Dashboard.DashboardState) : Prop :=
  match Dashboard.currentView s with
  | Dashboard.view_upload => True
  | Dashboard.view_knowledge_tree => is_Some (Dashboard.knowledgeGraph s)
  | Dashboard.view_summaries => is_Some (Dashboard.summaries s)
  | Dashboard.view_flashcards => is_Some (Dashboard.flashcards s)
  | Dashboard.view_tutor => is_Some (Dashboard.document s)
  end.

End DashboardUI.

(** ** flashcards.tsx: what every run keeps *)

Module FlashcardsRun.

Definition deckIds (data : Api.FlashcardResponse) : gset jsstring :=
  list_to_set (Api.card_id <$> Api.flashcards data).

Definition sound (data : Api.FlashcardResponse) (s : Flashcards.FlashcardState) : Prop :=
  Flashcards.isFlipped s = Flashcards.showAnswer s
  ∧ 0 ≤ Flashcards.currentIndex s
  ∧ 0 ≤ Flashcards.correctAnswers s
  ∧ 0 ≤ Flashcards.incorrectAnswers s
  ∧ Flashcards.studiedCards s ⊆ deckIds data
  ∧ Z.of_nat (size (Flashcards.studiedCards s))
    ≤ Flashcards.correctAnswers s + Flashcards.incorrectAnswers s.

End FlashcardsRun.

(** ** dashboard.tsx: what a run of the fan-out keeps *)

Module DashboardRun.
(** What a run keeps besides [Dashboard.run_invariant]. *)
Definition interval_invariant (doc : Api.DocumentUploadResponse) (r : Dashboard.Run) : Prop :=
  Dashboard.document (Dashboard.ui r) = Some doc
  ∧ match Dashboard.all_promise r with
    | Dashboard.Fulfilled _ =>
        Dashboard.progressInterval r = false
        ∧ Dashboard.ClearInterval ∈ Dashboard.effects r
    | _ =>
        Dashboard.progressInterval r = true
        ∧ Dashboard.ClearInterval ∉ Dashboard.effects r
    end.
End DashboardRun.

(** ** dashboard.tsx: the state cell and the runs that write to it

[handleUploadComplete] never reads the state: each of its writes is a
functional update, [setState(prev => ...)].  What a run of the handler
does is therefore a sequence of effects that does not depend on the
state, while what the state becomes depends on everything else that
writes to the same cell in between: the navigation buttons, further
runs of the handler (the upload screen can be visited again), and the
interval of a run that failed, which is never cleared.  A session is
the cell together with all the runs started so far. *)

Module DashboardSession.

(** A promise; a rejected one holds the value it was rejected with. *)
Inductive Promise (A : Type) :=
| Pending
| Fulfilled (value : A)
| Rejected (reason : jsstring).
Arguments Pending {A}.
Arguments Fulfilled {A} value.
Arguments Rejected {A} reason.

(** What a run does, in program order.  A [SetState] holds the update
    function handed to [setState]; [ConsoleError] the two arguments of
    [console.error]. *)
Inductive Effect :=
| SetState (update : DashboardUI.Update)
| SetInterval
| ClearInterval
| Call (request : Api.ApiCall)
| AwaitAll
| ConsoleError (message : jsstring) (error : jsstring).

Definition Results : Type :=
  Api.KnowledgeGraphResponse * Api.FlashcardResponse * Api.SummaryResponse.

Record Run := {
  document : Api.DocumentUploadResponse;
  graphPromise : Promise Api.KnowledgeGraphResponse;
  flashcardsPromise : Promise Api.FlashcardResponse;
  summaryPromise : Promise Api.SummaryResponse;
  allPromise : Promise Results;       (* [Promise.all([...])], which the handler awaits *)
  progressInterval : bool;            (* the interval is armed *)
  effects : list Effect
}.

(** The effects of the handler from its call to the [await]. *)
Definition start (doc : Api.DocumentUploadResponse) : list Effect :=
  [ SetState (DashboardUI.Begin doc);
    SetInterval;
    Call (Api.generateKnowledgeGraph (Api.document_id doc) (Api.raw_text doc));
    Call (Api.generateFlashcards (Api.document_id doc) (Api.raw_text doc));
    Call (Api.generateSummary (Api.document_id doc) (Api.raw_text doc));
    AwaitAll ].

Definition handleUploadComplete (doc : Api.DocumentUploadResponse) : Run :=
  {| document := doc;
     graphPromise := Pending;
     flashcardsPromise := Pending;
     summaryPromise := Pending;
     allPromise := Pending;
     progressInterval := true;
     effects := start doc |}.

(** What happens to a run: its interval fires, or one of its requests
    settles, with a result ([inr]) or with an error ([inl]). *)
Inductive RunEvent :=
| IntervalFires
| GraphSettles (outcome : jsstring + Api.KnowledgeGraphResponse)
| FlashcardsSettle (outcome : jsstring + Api.FlashcardResponse)
| SummarySettles (outcome : jsstring + Api.SummaryResponse).

Definition settle {A} (outcome : jsstring + A) : Promise A :=
  match outcome with
  | inl reason => Rejected reason
  | inr value => Fulfilled value
  end.

Definition rejection {A} (outcome : jsstring + A) : option jsstring :=
  match outcome with
  | inl reason => Some reason
  | inr _ => None
  end.

Definition errorMessage : jsstring := JS.lit "Error generating content:".

(** One of the three requests has just settled.  [Promise.all] is settled
    by the first rejection, with its reason, or by the last fulfilment;
    the handler then continues with the [catch] block, or with the rest
    of the [try] block.  The run, and the updates handed to [setState]. *)
Definition resume (r : Run) (rejected : option jsstring)
    : Run * list DashboardUI.Update :=
  match allPromise r with
  | Pending =>
      match rejected with
      | Some reason =>
          ({| document := document r;
              graphPromise := graphPromise r;
              flashcardsPromise := flashcardsPromise r;
              summaryPromise := summaryPromise r;
              allPromise := Rejected reason;
              progressInterval := progressInterval r;
              effects := effects r ++ [ ConsoleError errorMessage reason;
                                        SetState DashboardUI.Fail ] |},
           [DashboardUI.Fail])
      | None =>
          match graphPromise r, flashcardsPromise r, summaryPromise r with
          | Fulfilled g, Fulfilled f, Fulfilled s =>
              ({| document := document r;
                  graphPromise := graphPromise r;
                  flashcardsPromise := flashcardsPromise r;
                  summaryPromise := summaryPromise r;
                  allPromise := Fulfilled (g, f, s);
                  progressInterval := false;
                  effects := effects r ++ [ ClearInterval;
                                            SetState (DashboardUI.Store g f s) ] |},
               [DashboardUI.Store g f s])
          | _, _, _ => (r, [])
          end
      end
  | _ => (r, [])                 (* settled before: nothing waits for it *)
  end.

Definition deliver (r : Run) (ev : RunEvent) : Run * list DashboardUI.Update :=
  match ev with
  | IntervalFires =>
      if progressInterval r then
        ({| document := document r;
            graphPromise := graphPromise r;
            flashcardsPromise := flashcardsPromise r;
            summaryPromise := summaryPromise r;
            allPromise := allPromise r;
            progressInterval := progressInterval r;
            effects := effects r ++ [SetState DashboardUI.Tick] |},
         [DashboardUI.Tick])
      else (r, [])
  | GraphSettles o =>
      match graphPromise r with
      | Pending =>
          resume {| document := document r;
                    graphPromise := settle o;
                    flashcardsPromise := flashcardsPromise r;
                    summaryPromise := summaryPromise r;
                    allPromise := allPromise r;
                    progressInterval := progressInterval r;
                    effects := effects r |} (rejection o)
      | _ => (r, [])             (* a promise settles once *)
      end
  | FlashcardsSettle o =>
      match flashcardsPromise r with
      | Pending =>
          resume {| document := document r;
                    graphPromise := graphPromise r;
                    flashcardsPromise := settle o;
                    summaryPromise := summaryPromise r;
                    allPromise := allPromise r;
                    progressInterval := progressInterval r;
                    effects := effects r |} (rejection o)
      | _ => (r, [])
      end
  | SummarySettles o =>
      match summaryPromise r with
      | Pending =>
          resume {| document := document r;
                    graphPromise := graphPromise r;
                    flashcardsPromise := flashcardsPromise r;
                    summaryPromise := settle o;
                    allPromise := allPromise r;
                    progressInterval := progressInterval r;
                    effects := effects r |} (rejection o)
      | _ => (r, [])
      end
  end.

(** The reason with which the event rejects a request of the run that is
    still pending. *)
Definition rejects (r : Run) (ev : RunEvent) : option jsstring :=
  match ev with
  | IntervalFires => None
  | GraphSettles o =>
      match graphPromise r with Pending => rejection o | _ => None end
  | FlashcardsSettle o =>
      match flashcardsPromise r with Pending => rejection o | _ => None end
  | SummarySettles o =>
      match summaryPromise r with Pending => rejection o | _ => None end
  end.

(** *** The session *)

Record Session := {
  ui : Dashboard.DashboardState;     (* the state cell of the dashboard *)
  runs : list Run                    (* the runs of the handler, oldest first *)
}.

Definition mount : Session :=
  {| ui := Dashboard.initialState; runs := [] |}.

Inductive Event :=
| UploadCompletes (doc : Api.DocumentUploadResponse)   (* [onUploadComplete(doc)] *)
| OfRun (i : nat) (ev : RunEvent)                      (* an event of run [i] *)
| ClickNavigation (view : Dashboard.View).

Definition dispatch (d : Session) (ev : Event) : Session :=
  match ev with
  | UploadCompletes doc =>
      {| ui := DashboardUI.apply (ui d) (DashboardUI.Begin doc);
         runs := runs d ++ [handleUploadComplete doc] |}
  | OfRun i ev =>
      match runs d !! i with
      | Some r =>
          {| ui := foldl DashboardUI.apply (ui d) (deliver r ev).2;
             runs := <[i := (deliver r ev).1]> (runs d) |}
      | None => d
      end
  | ClickNavigation view =>
      {| ui := DashboardUI.apply (ui d) (DashboardUI.Navigate view);
         runs := runs d |}
  end.

Definition run (evs : list Event) : Session := foldl dispatch mount evs.

(** *** What is said of a run *)

Definition fulfilled (r : Run) (g : Api.KnowledgeGraphResponse)
    (f : Api.FlashcardResponse) (s : Api.SummaryResponse) : Prop :=
  graphPromise r = Fulfilled g ∧ flashcardsPromise r = Fulfilled f
  ∧ summaryPromise r = Fulfilled s.

(** All three stages of the run have succeeded. *)
Definition all_fulfilled (r : Run) : Prop := ∃ g f s, fulfilled r g f s.

(** The request of some stage was rejected with [reason]. *)
Definition rejected_with (r : Run) (reason : jsstring) : Prop :=
  graphPromise r = Rejected reason
  ∨ flashcardsPromise r = Rejected reason
  ∨ summaryPromise r = Rejected reason.

(** A stage of the run has failed. *)
Definition some_rejected (r : Run) : Prop := ∃ reason, rejected_with r reason.

Definition ticks (k : nat) : list Effect :=
  replicate k (SetState DashboardUI.Tick).

(** What holds of a run at every moment, by the state of [Promise.all]. *)
Definition run_invariant (r : Run) : Prop :=
  match allPromise r with
  | Pending =>
      progressInterval r = true
      ∧ ¬ some_rejected r
      ∧ ¬ all_fulfilled r
      ∧ ∃ k, effects r = start (document r) ++ ticks k
  | Fulfilled (g, f, s) =>
      progressInterval r = false
      ∧ fulfilled r g f s
      ∧ ∃ k, effects r
             = start (document r) ++ ticks k
               ++ [ClearInterval; SetState (DashboardUI.Store g f s)]
  | Rejected reason =>
      progressInterval r = true
      ∧ rejected_with r reason
      ∧ ∃ k k', effects r
                = start (document r) ++ ticks k
                  ++ [ConsoleError errorMessage reason; SetState DashboardUI.Fail]
                  ++ ticks k'
  end.

(** Where the artifacts in the state come from: nowhere, or all three
    from one run whose stages all succeeded. *)
Definition artifacts_of_one_run (d : Session) : Prop :=
  Dashboard.artifacts (ui d) = (None, None, None)
  ∨ ∃ r g f s, r ∈ runs d ∧ allPromise r = Fulfilled (g, f, s)
               ∧ Dashboard.artifacts (ui d) = (Some g, Some f, Some s).

(** The updates that neither write an artifact nor mark the phase
    complete. *)
Definition keeps_phase (u : DashboardUI.Update) : Prop :=
  ∀ st, Dashboard.artifacts (DashboardUI.apply st u) = Dashboard.artifacts st
        ∧ ¬ Dashboard.marked_complete (DashboardUI.apply st u).

(** The number of times the interval of run [i] fired. *)
Definition intervalFired (i : nat) (evs : list Event) : Z :=
  Z.of_nat (length (List.filter
                      (λ ev, match ev with
                             | OfRun j IntervalFires => bool_decide (j = i)
                             | _ => false
                             end) evs)).

Definition isUpload (ev : Event) : bool :=
  match ev with UploadCompletes _ => true | _ => false end.

Arguments start : simpl never.
Arguments ticks : simpl never.
Arguments errorMessage : simpl never.

End DashboardSession.

(** ** Sample data *)

Definition sample_file (type : string) (size : Z) : FileUpload.File :=
  {| FileUpload.name := JS.lit "notes";
     FileUpload.type := JS.lit type;
     FileUpload.size := size |}.

Definition sample_node (id type : string) (level : Z) : Api.GraphNode :=
  {| Api.node_id := JS.lit id; Api.node_type := JS.lit type;
     Api.node_label := JS.lit id; Api.node_description := [];
     Api.node_level := level; Api.node_x := 0; Api.node_y := 0 |}.

Definition sample_edge (id source target : string) : Api.GraphEdge :=
  {| Api.edge_id := JS.lit id; Api.edge_source := JS.lit source;
     Api.edge_target := JS.lit target; Api.edge_type := JS.lit "smoothstep" |}.

(** A root with two children, one of which has a child of its own. *)
Definition sample_graph : Api.KnowledgeGraphResponse :=
  {| Api.nodes := [ sample_node "r" "root" 0; sample_node "a" "branch" 1;
                    sample_node "b" "leaf" 1; sample_node "c" "leaf" 2 ];
     Api.edges := [ sample_edge "e1" "r" "a"; sample_edge "e2" "r" "b";
                    sample_edge "e3" "a" "c" ];
     Api.layout := JS.lit "hierarchical" |}.

(** The user drags from the handle of the root to the handle of node c. *)
Definition sample_connection : KnowledgeTree.Connection :=
  {| KnowledgeTree.conn_source := Some (JS.lit "r");
     KnowledgeTree.conn_target := Some (JS.lit "c");
     KnowledgeTree.conn_sourceHandle := None;
     KnowledgeTree.conn_targetHandle := None |}.

(** A graph whose second node no edge leads to. *)
Definition sample_disconnected : Api.KnowledgeGraphResponse :=
  {| Api.nodes := [ sample_node "r" "root" 0; sample_node "a" "leaf" 1 ];
     Api.edges := [];
     Api.layout := JS.lit "hierarchical" |}.

(** A graph with two roots, one of them with a child. *)
Definition sample_two_roots : Api.KnowledgeGraphResponse :=
  {| Api.nodes := [ sample_node "r1" "root" 0; sample_node "r2" "root" 0;
                    sample_node "a" "leaf" 1 ];
     Api.edges := [ sample_edge "e1" "r1" "a" ];
     Api.layout := JS.lit "hierarchical" |}.

(** A root and a leaf that share an id, and no edge. *)
Definition sample_shared_id : Api.KnowledgeGraphResponse :=
  {| Api.nodes := [ sample_node "r" "root" 0; sample_node "r" "leaf" 1 ];
     Api.edges := [];
     Api.layout := JS.lit "hierarchical" |}.

Definition sample_document : Api.DocumentUploadResponse :=
  {| Api.document_id := JS.lit "doc-1"; Api.filename := JS.lit "notes.txt";
     Api.topics := []; Api.sections := []; Api.concept_list := [];
     Api.raw_text := JS.lit "Photosynthesis converts light into chemical energy.";
     Api.word_count := 7; Api.page_count := 1 |}.

Definition sample_summary : Api.SummaryResponse :=
  {| Api.one_page := JS.lit "Plants turn light into energy.";
     Api.five_page := []; Api.bullet_points := []; Api.chapters := [] |}.

Definition sample_card (id difficulty : string) : Api.Flashcard :=
  {| Api.card_id := JS.lit id; Api.question := JS.lit "What is it?";
     Api.answer := JS.lit "That."; Api.card_difficulty := JS.lit difficulty;
     Api.card_category := JS.lit "concept"; Api.tags := [] |}.

Definition sample_deck : Api.FlashcardResponse :=
  {| Api.flashcards := [ sample_card "1" "easy"; sample_card "2" "hard" ] |}.

Definition sample_pdf : FileUpload.File := sample_file "application/pdf" 1024.

(** A file is chosen and uploaded; the server returns a document, which is
    reported half a second later. *)
Definition sample_upload : list FileUploadComponent.Event :=
  [ FileUploadComponent.SelectFiles [sample_pdf];
    FileUploadComponent.ClickUpload;
    FileUploadComponent.IntervalFires;
    FileUploadComponent.UploadSettles (FileUploadComponent.Uploaded sample_document);
    FileUploadComponent.TimeoutFires ].

(** The same upload fails with an [Error]. *)
Definition sample_failed_upload : list FileUploadComponent.Event :=
  [ FileUploadComponent.SelectFiles [sample_pdf];
    FileUploadComponent.ClickUpload;
    FileUploadComponent.UploadSettles
      (FileUploadComponent.ThrewError (JS.lit "Network error")) ].

(** The upload completes; the summary and the graph arrive, the flashcards
    request fails. *)
Definition sample_failed_generation : list DashboardSession.Event :=
  [ DashboardSession.UploadCompletes sample_document;
    DashboardSession.OfRun 0
      (DashboardSession.SummarySettles (inr sample_summary));
    DashboardSession.OfRun 0
      (DashboardSession.GraphSettles (inr sample_graph));
    DashboardSession.OfRun 0
      (DashboardSession.FlashcardsSettle (inl (JS.lit "Bad Gateway"))) ].

(** The upload completes and the three results arrive, with a tick of the
    interval in between. *)
Definition sample_generation : list DashboardSession.Event :=
  [ DashboardSession.UploadCompletes sample_document;
    DashboardSession.OfRun 0
      (DashboardSession.FlashcardsSettle (inr sample_deck));
    DashboardSession.OfRun 0 DashboardSession.IntervalFires;
    DashboardSession.OfRun 0
      (DashboardSession.SummarySettles (inr sample_summary));
    DashboardSession.OfRun 0
      (DashboardSession.GraphSettles (inr sample_graph)) ].

(** The first run of a session, if there is one. *)
Definition first_run (evs : list DashboardSession.Event) : DashboardSession.Run :=
  default (DashboardSession.handleUploadComplete sample_document)
    (DashboardSession.runs (DashboardSession.run evs) !! 0%nat).

Definition sample_clock : TutorChat.Clock :=
  {| TutorChat.now := 1700000000000; TutorChat.date := 1700000000000 |}.

(** ** Proof automation *)

Ltac close_run_invariant :=
  simpl in *; destruct_and?; subst; simpl in *;
  try discriminate;
  repeat split;
  first [ done | lia | by apply prefix_app_r
        | apply elem_of_app; by left
        | apply elem_of_app; right; apply list_elem_of_here
        | idtac ].

Ltac clash_of_literals :=
  match goal with
  | H1 : Api.node_type ?n = _, H2 : Api.node_type ?n = _ |- _ =>
      rewrite H1 in H2; vm_compute in H2; discriminate H2
  end.

Ltac close_interval_invariant :=
  simpl in *; destruct_and?; subst; simpl in *;
  try discriminate;
  split_and?;
  first [ done
        | apply elem_of_app; right; apply list_elem_of_here
        | let Hin := fresh in
          intros Hin; apply elem_of_app in Hin as [Hin|Hin]; [done|];
          repeat (apply elem_of_cons in Hin as [Hin|Hin]; [discriminate Hin|]);
          by apply elem_of_nil in Hin
        | idtac ].

Ltac session_cases :=
  unfold DashboardSession.resume, DashboardSession.some_rejected,
    DashboardSession.rejected_with, DashboardSession.all_fulfilled,
    DashboardSession.fulfilled in *;
  cbn in *.

Ltac close_session_run :=
  try done;
  let H := fresh in
  intros H; destruct_and?;
  repeat match goal with
         | H : ∃ _ : nat, _ |- _ => destruct H
         end;
  subst; try discriminate;
  split_and?;
  first [ done
        | by left
        | by right; left
        | by right; right
        | by eexists
        | by eexists _, 0%nat
        | by eexists _, _
        | by intros (? & [?|[?|?]])
        | by intros (? & ? & ? & ? & ? & ?)
        | intuition congruence
        | exfalso;
          match goal with
          | H : ¬ (∃ _, _ ∨ _ ∨ _) |- _ =>
              apply H; eexists;
              first [ by left | by right; left | by right; right ]
          end ].

(** * Properties *)

(** ** lib/api.ts: the requests of the generation functions *)

(** C8. [generateKnowledgeGraph], [generateSummary] and [generateFlashcards]
    POST to [/generate/graph], [/generate/summary] and
    [/generate/flashcards]; the JSON body of each has exactly the members
    [document_id] and [content], holding the document id and the text they
    were given, and nothing else. *)
Theorem generate_requests_match_interface (documentId content : jsstring) :
  let expected endpoint :=
    {| Api.endpoint := JS.lit endpoint;
       Api.method := JS.lit "POST";
       Api.body := [ (JS.lit "document_id", Api.JString documentId);
                     (JS.lit "content", Api.JString content) ] |} in
  Api.generateKnowledgeGraph documentId content = expected "/generate/graph"%string
  ∧ Api.generateSummary documentId content = expected "/generate/summary"%string
  ∧ Api.generateFlashcards documentId content = expected "/generate/flashcards"%string
  ∧ Api.keys (Api.body (Api.generateKnowledgeGraph documentId content))
      = [JS.lit "document_id"; JS.lit "content"]
  ∧ Api.keys (Api.body (Api.generateSummary documentId content))
      = [JS.lit "document_id"; JS.lit "content"]
  ∧ Api.keys (Api.body (Api.generateFlashcards documentId content))
      = [JS.lit "document_id"; JS.lit "content"].
Proof. repeat split; reflexivity. Qed.

(** The body of a tutor request: the question, and the context when one
    was supplied. *)
Lemma askTutor_body (question : jsstring) (context : option jsstring) :
  Api.body (Api.askTutor question context)
  = (JS.lit "question", Api.JString question)
    :: match context with
       | Some c => [(JS.lit "context", Api.JString c)]
       | None => []
       end.
Proof. destruct context; reflexivity. Qed.

(** ** tutor-chat.tsx *)

Lemma trimStart_whitespace (s : jsstring) :
  Forall (λ c, JS.isWhiteSpace c = true) s → JS.trimStart s = [].
Proof.
  induction 1 as [|c rest Hc _ IH]; simpl; [done|].
  by rewrite Hc.
Qed.

Lemma trim_whitespace (s : jsstring) :
  Forall (λ c, JS.isWhiteSpace c = true) s → JS.trim s = [].
Proof.
  intros Hs. unfold JS.trim, JS.trimEnd.
  by rewrite (trimStart_whitespace s Hs).
Qed.

(** What [handleSendMessage] does when its guard lets the message through. *)
Lemma handleSendMessage_sends context clock st :
  JS.trim (TutorChat.inputValue st) ≠ [] →
  TutorChat.isLoading st = false →
  TutorChat.handleSendMessage context clock st
  = ({| TutorChat.messages :=
          TutorChat.messages st ++
            [ {| TutorChat.id := JS.toString (TutorChat.now clock);
                 TutorChat.type := TutorChat.user;
                 TutorChat.content := TutorChat.inputValue st;
                 TutorChat.timestamp := TutorChat.date clock;
                 TutorChat.tutorData := None |} ];
        TutorChat.inputValue := [];
        TutorChat.isLoading := true |},
     Some (Api.askTutor (TutorChat.inputValue st) context)).
Proof.
  intros Hq Hl. unfold TutorChat.handleSendMessage. rewrite Hl.
  destruct (JS.trim (TutorChat.inputValue st)); [done|reflexivity].
Qed.

Lemma handleSendMessage_blocked context clock st :
  JS.trim (TutorChat.inputValue st) = [] ∨ TutorChat.isLoading st = true →
  TutorChat.handleSendMessage context clock st = (st, None).
Proof.
  intros [Hq|Hl]; unfold TutorChat.handleSendMessage.
  - by rewrite Hq.
  - rewrite Hl. by rewrite orb_true_r.
Qed.

(** C6. The request of a tutor question does not depend on the transcript:
    two sends of the same question with the same context, from any two
    transcripts (and at any two times), hand the same request to
    [askTutor]; that request is [POST /tutor] with the question and, when
    supplied, the context as its only members. *)
Theorem tutor_request_independent_of_transcript
    (context : option jsstring) (question : jsstring) (loading : bool)
    (clock1 clock2 : TutorChat.Clock) (transcript1 transcript2 : list TutorChat.Message) :
  let send clock transcript :=
    (TutorChat.handleSendMessage context clock
       {| TutorChat.messages := transcript;
          TutorChat.inputValue := question;
          TutorChat.isLoading := loading |}).2 in
  send clock1 transcript1 = send clock2 transcript2
  ∧ ∀ request, send clock1 transcript1 = Some request →
      Api.endpoint request = JS.lit "/tutor"
      ∧ Api.method request = JS.lit "POST"
      ∧ Api.body request
        = (JS.lit "question", Api.JString question)
          :: match context with
             | Some c => [(JS.lit "context", Api.JString c)]
             | None => []
             end.
Proof.
  simpl. unfold TutorChat.handleSendMessage. simpl.
  destruct (negb (JS.truthy (JS.trim question)) || loading); simpl.
  - split; [done|]. intros ? [=].
  - split; [done|]. intros request [= <-].
    rewrite askTutor_body. done.
Qed.

Lemma tutor_request_independent_of_transcript_witness :
  ∃ request,
    (TutorChat.handleSendMessage (Some (JS.lit "notes")) {| TutorChat.now := 5; TutorChat.date := 5 |}
       {| TutorChat.messages := [];
          TutorChat.inputValue := JS.lit "why?";
          TutorChat.isLoading := false |}).2 = Some request
    ∧ Api.body request = [ (JS.lit "question", Api.JString (JS.lit "why?"));
                           (JS.lit "context", Api.JString (JS.lit "notes")) ].
Proof.
  eexists. split; [reflexivity|].
  pose proof (tutor_request_independent_of_transcript
                (Some (JS.lit "notes")) (JS.lit "why?") false
                {| TutorChat.now := 5; TutorChat.date := 5 |}
                {| TutorChat.now := 5; TutorChat.date := 5 |} [] []) as [_ H].
  destruct (H _ eq_refl) as (_ & _ & Hbody). exact Hbody.
Defined.

(** C10. [handleSendMessage] does nothing when the input is empty or
    consists of white space only, and when a request is in flight: the
    transcript, the input field and the loading flag are unchanged and no
    request is made.  The input field changes only when the message is
    sent (the guard passed and the request was handed to [askTutor]), and
    then it is emptied; the settling of the request leaves it alone. *)
Theorem send_message_noop_on_invalid_input
    (context : option jsstring) (clock : TutorChat.Clock) (st : TutorChat.State) :
  (Forall (λ c, JS.isWhiteSpace c = true) (TutorChat.inputValue st)
   ∨ TutorChat.isLoading st = true →
   TutorChat.handleSendMessage context clock st = (st, None))
  ∧ (TutorChat.inputValue (TutorChat.handleSendMessage context clock st).1
       ≠ TutorChat.inputValue st →
     TutorChat.inputValue (TutorChat.handleSendMessage context clock st).1 = []
     ∧ (TutorChat.handleSendMessage context clock st).2
         = Some (Api.askTutor (TutorChat.inputValue st) context)
     ∧ TutorChat.isLoading st = false
     ∧ JS.trim (TutorChat.inputValue st) ≠ [])
  ∧ (∀ outcome clock',
       TutorChat.inputValue (TutorChat.handleSendMessage_settled outcome clock' st)
       = TutorChat.inputValue st).
Proof.
  split; [|split].
  - intros [Hws|Hl]; apply handleSendMessage_blocked; [left|by right].
    by apply trim_whitespace.
  - intros Hchanged.
    destruct (decide (JS.trim (TutorChat.inputValue st) = [])) as [Hq|Hq].
    { rewrite handleSendMessage_blocked in Hchanged by (by left). done. }
    destruct (TutorChat.isLoading st) eqn:Hl.
    { rewrite handleSendMessage_blocked in Hchanged by (by right). done. }
    rewrite handleSendMessage_sends by done. done.
  - done.
Qed.

Lemma send_message_noop_on_invalid_input_witness :
  let blank :=
    {| TutorChat.messages := [];
       TutorChat.inputValue := JS.lit "   ";
       TutorChat.isLoading := false |} in
  let typed :=
    {| TutorChat.messages := [];
       TutorChat.inputValue := JS.lit "why?";
       TutorChat.isLoading := false |} in
  let clock := {| TutorChat.now := 5; TutorChat.date := 5 |} in
  TutorChat.handleSendMessage None clock blank = (blank, None)
  ∧ TutorChat.inputValue (TutorChat.handleSendMessage None clock typed).1 = [].
Proof.
  intros blank typed clock. split.
  - apply (send_message_noop_on_invalid_input None clock blank).
    left. repeat constructor.
  - apply (send_message_noop_on_invalid_input None clock typed).
    vm_compute. discriminate.
Defined.

(** ** file-upload.tsx *)

(** C3, as stated, fails: a file of an unsupported type that is also larger
    than 50 MiB is refused with the unsupported-format message, not with the
    size message. *)
Lemma oversized_unsupported_file_gets_format_error :
  let f := sample_file "image/png" (50 * 1024 * 1024 + 1) in
  FileUpload.size f > 50 * 1024 * 1024
  ∧ FileUpload.error (FileUpload.handleFileSelect f FileUpload.initialState)
      = Some FileUpload.unsupportedFormatMessage
  ∧ FileUpload.error (FileUpload.handleFileSelect f FileUpload.initialState)
      ≠ Some FileUpload.payloadTooLargeMessage.
Proof. vm_compute. split; [done|]. split; [done|]. discriminate. Qed.

(** C3, amended.  The type is checked first.  A file whose MIME type is not
    one of the three allowed types is refused with the unsupported-format
    message; a file of an allowed type with more than [50 * 1024 * 1024]
    bytes is refused with the size message; in every refusal (also of a
    file that fails both checks) no file is kept; a file that passes both
    checks is kept and the error is cleared. *)
Theorem handleFileSelect_validates (f : FileUpload.File) (prev : FileUpload.UploadState) :
  let next := FileUpload.handleFileSelect f prev in
  (FileUpload.type f ∉ FileUpload.allowedTypes →
     FileUpload.error next = Some FileUpload.unsupportedFormatMessage
     ∧ FileUpload.file next = None)
  ∧ (FileUpload.type f ∈ FileUpload.allowedTypes →
     FileUpload.size f > 50 * 1024 * 1024 →
     FileUpload.error next = Some FileUpload.payloadTooLargeMessage
     ∧ FileUpload.file next = None)
  ∧ (FileUpload.size f > 50 * 1024 * 1024 →
     is_Some (FileUpload.error next) ∧ FileUpload.file next = None)
  ∧ (FileUpload.type f ∈ FileUpload.allowedTypes →
     FileUpload.size f ≤ 50 * 1024 * 1024 →
     FileUpload.file next = Some f ∧ FileUpload.error next = None).
Proof.
  simpl. unfold FileUpload.handleFileSelect, JS.includes.
  repeat split; intros; repeat case_bool_decide; simpl in *;
    try done; try lia; eauto.
Qed.

Lemma handleFileSelect_validates_witness :
  let refused_type := sample_file "image/png" 10 in
  let refused_size := sample_file "application/pdf" (50 * 1024 * 1024 + 1) in
  let accepted := sample_file "text/plain" (50 * 1024 * 1024) in
  let select f := FileUpload.handleFileSelect f FileUpload.initialState in
  (FileUpload.error (select refused_type) = Some FileUpload.unsupportedFormatMessage
   ∧ FileUpload.file (select refused_type) = None)
  ∧ (FileUpload.error (select refused_size) = Some FileUpload.payloadTooLargeMessage
     ∧ FileUpload.file (select refused_size) = None)
  ∧ (is_Some (FileUpload.error (select refused_size))
     ∧ FileUpload.file (select refused_size) = None)
  ∧ (FileUpload.file (select accepted) = Some accepted
     ∧ FileUpload.error (select accepted) = None).
Proof.
  intros refused_type refused_size accepted select.
  split; [|split; [|split]].
  - apply (handleFileSelect_validates refused_type FileUpload.initialState).
    apply (bool_decide_eq_false_1 _). vm_compute. reflexivity.
  - apply (handleFileSelect_validates refused_size FileUpload.initialState).
    + apply (bool_decide_eq_true_1 _). vm_compute. reflexivity.
    + vm_compute. reflexivity.
  - apply (handleFileSelect_validates refused_size FileUpload.initialState).
    vm_compute. reflexivity.
  - apply (handleFileSelect_validates accepted FileUpload.initialState).
    + apply (bool_decide_eq_true_1 _). vm_compute. reflexivity.
    + vm_compute. discriminate.
Defined.

(** ** flashcards.tsx: reset *)

(** C7. [handleReset] sets the index and both counters to 0 and empties the
    set of studied cards, whatever the state; it keeps both filter
    selections, and with them the filtered deck of any [data]. *)
Theorem handleReset_resets_session (prev : Flashcards.FlashcardState) :
  let next := Flashcards.handleReset prev in
  Flashcards.currentIndex next = 0
  ∧ Flashcards.correctAnswers next = 0
  ∧ Flashcards.incorrectAnswers next = 0
  ∧ Flashcards.studiedCards next = ∅
  ∧ Flashcards.difficulty next = Flashcards.difficulty prev
  ∧ Flashcards.category next = Flashcards.category prev
  ∧ ∀ data, Flashcards.filteredCards data next = Flashcards.filteredCards data prev.
Proof. repeat split. Qed.

(** ** knowledge-tree.tsx *)

Lemma addEdge_appends (params : KnowledgeTree.Connection) (edges : list KnowledgeTree.Edge) :
  ∃ added, KnowledgeTree.addEdge params edges = edges ++ added
           ∧ (length added ≤ 1)%nat
           ∧ ∀ e, e ∈ added →
               KnowledgeTree.conn_source params = Some (KnowledgeTree.source e)
               ∧ KnowledgeTree.conn_target params = Some (KnowledgeTree.target e).
Proof.
  unfold KnowledgeTree.addEdge.
  destruct (KnowledgeTree.conn_source params) as [s|],
           (KnowledgeTree.conn_target params) as [t|];
    try (exists []; rewrite app_nil_r; split; [done|]; split; [simpl; lia|];
         intros e He; by apply elem_of_nil in He).
  destruct (negb (JS.truthy s) || negb (JS.truthy t)).
  { exists []. rewrite app_nil_r. split; [done|]. split; [simpl; lia|].
    intros e He. by apply elem_of_nil in He. }
  destruct (KnowledgeTree.connectionExists _ edges).
  { exists []. rewrite app_nil_r. split; [done|]. split; [simpl; lia|].
    intros e He. by apply elem_of_nil in He. }
  eexists [_]. split; [done|]. split; [simpl; lia|].
  intros e He. apply list_elem_of_singleton in He. by subst e.
Qed.

Lemma applyNodeChange_content (item item' : KnowledgeTree.Node)
    (c : KnowledgeTree.NodeChange) :
  KnowledgeTree.applyNodeChange item c = Some item' →
  KnowledgeTree.nodeContent (KnowledgeTree.graphNode item')
  = KnowledgeTree.nodeContent (KnowledgeTree.graphNode item).
Proof.
  destruct c as [i size|i [position|] drag|i value|i]; simpl; intros H;
    by simplify_eq.
Qed.

Lemma applyNodeChangesTo_content (changes : list KnowledgeTree.NodeChange)
    (item item' : KnowledgeTree.Node) :
  KnowledgeTree.applyNodeChangesTo changes item = Some item' →
  KnowledgeTree.nodeContent (KnowledgeTree.graphNode item')
  = KnowledgeTree.nodeContent (KnowledgeTree.graphNode item).
Proof.
  unfold KnowledgeTree.applyNodeChangesTo.
  generalize (List.filter
                (λ c, bool_decide (KnowledgeTree.nodeChangeId c
                                   = Api.node_id (KnowledgeTree.graphNode item)))
                changes).
  intros l. revert item'. induction l as [|c l IH] using rev_ind; intros item'.
  - simpl. by intros [= <-].
  - rewrite foldl_app. simpl.
    destruct (foldl _ (Some item) l) as [updateItem|]; simpl; [|done].
    intros H%applyNodeChange_content. rewrite H. by apply IH.
Qed.

Lemma applyNodeChanges_content (changes : list KnowledgeTree.NodeChange)
    (nodes : list KnowledgeTree.Node) :
  ((λ n, KnowledgeTree.nodeContent (KnowledgeTree.graphNode n))
     <$> KnowledgeTree.applyNodeChanges changes nodes)
  `sublist_of`
  ((λ n, KnowledgeTree.nodeContent (KnowledgeTree.graphNode n)) <$> nodes).
Proof.
  unfold KnowledgeTree.applyNodeChanges.
  induction nodes as [|n nodes IH]; [done|].
  simpl.
  destruct (KnowledgeTree.applyNodeChangesTo changes n) as [n'|] eqn:Hn.
  - simpl. rewrite (applyNodeChangesTo_content _ _ _ Hn).
    by apply sublist_skip.
  - by apply sublist_cons.
Qed.

Lemma applyEdgeChangesTo_ref (changes : list KnowledgeTree.EdgeChange)
    (item item' : KnowledgeTree.Edge) :
  KnowledgeTree.applyEdgeChangesTo changes item = Some item' →
  KnowledgeTree.edgeRef item' = KnowledgeTree.edgeRef item.
Proof.
  unfold KnowledgeTree.applyEdgeChangesTo.
  generalize (List.filter
                (λ c, bool_decide (KnowledgeTree.edgeChangeId c
                                   = KnowledgeTree.id item)) changes).
  intros l. revert item'. induction l as [|c l IH] using rev_ind; intros item'.
  - simpl. by intros [= <-].
  - rewrite foldl_app. simpl.
    destruct (foldl _ (Some item) l) as [updateItem|]; simpl; [|done].
    destruct c as [i value|i]; simpl; [|done].
    intros [= <-]. by rewrite <- (IH updateItem).
Qed.

Lemma applyEdgeChanges_refs (changes : list KnowledgeTree.EdgeChange)
    (edges : list KnowledgeTree.Edge) (e : KnowledgeTree.Edge) :
  e ∈ KnowledgeTree.applyEdgeChanges changes edges →
  ∃ given, given ∈ edges ∧ KnowledgeTree.edgeRef e = KnowledgeTree.edgeRef given.
Proof.
  unfold KnowledgeTree.applyEdgeChanges.
  intros (given & Hin & He)%list_elem_of_omap.
  exists given. split; [done|]. by apply (applyEdgeChangesTo_ref changes).
Qed.

Lemma interact_content (st : KnowledgeTree.State) (i : KnowledgeTree.Interaction) :
  KnowledgeTree.renderedContent (KnowledgeTree.interact st i)
  `sublist_of` KnowledgeTree.renderedContent st.
Proof.
  destruct i as [changes|changes|params|node]; simpl; try done.
  apply applyNodeChanges_content.
Qed.

Lemma edge_origin_ref data actions e e' :
  KnowledgeTree.edgeRef e' = KnowledgeTree.edgeRef e →
  KnowledgeTree.edgeOrigin data actions e → KnowledgeTree.edgeOrigin data actions e'.
Proof.
  unfold KnowledgeTree.edgeOrigin, KnowledgeTree.edgeRef. intros [= Hid Hs Ht].
  rewrite Hid, Hs, Ht. done.
Qed.

Lemma edge_origin_later data actions i e :
  KnowledgeTree.edgeOrigin data actions e → KnowledgeTree.edgeOrigin data (actions ++ [i]) e.
Proof.
  intros [Hgiven|(params & Hin & Hs & Ht)]; [by left|].
  right. exists params. split; [|done].
  unfold KnowledgeTree.drawn. rewrite omap_app. apply elem_of_app. by left.
Qed.

Lemma interactions_edge_origin (data : Api.KnowledgeGraphResponse)
    (actions : list KnowledgeTree.Interaction) (e : KnowledgeTree.Edge) :
  e ∈ KnowledgeTree.edges (foldl KnowledgeTree.interact (KnowledgeTree.mount data) actions) →
  KnowledgeTree.edgeOrigin data actions e.
Proof.
  revert e. induction actions as [|i actions IH] using rev_ind; intros e.
  - simpl. intros (given & -> & Hin)%list_elem_of_fmap. left. by exists given.
  - rewrite foldl_app. simpl.
    destruct i as [changes|changes|params|node]; simpl.
    + intros He. by apply edge_origin_later, IH.
    + intros (given & Hin & Href)%applyEdgeChanges_refs.
      apply edge_origin_later, (edge_origin_ref _ _ given); [done|]. by apply IH.
    + destruct (addEdge_appends params
                  (KnowledgeTree.edges
                     (foldl KnowledgeTree.interact (KnowledgeTree.mount data) actions)))
        as (added & -> & _ & Hadded).
      intros [He|He]%elem_of_app; [by apply edge_origin_later, IH|].
      right. exists params. split; [|by apply Hadded].
      unfold KnowledgeTree.drawn. rewrite omap_app. apply elem_of_app. right.
      simpl. apply list_elem_of_here.
    + intros He. by apply edge_origin_later, IH.
Qed.

Lemma interactions_content (data : Api.KnowledgeGraphResponse)
    (actions : list KnowledgeTree.Interaction) :
  KnowledgeTree.renderedContent
    (foldl KnowledgeTree.interact (KnowledgeTree.mount data) actions)
  `sublist_of` (KnowledgeTree.nodeContent <$> Api.nodes data).
Proof.
  induction actions as [|i actions IH] using rev_ind.
  - unfold KnowledgeTree.renderedContent. simpl.
    by rewrite <- list_fmap_compose.
  - rewrite foldl_app; simpl.
    etrans; [apply interact_content|exact IH].
Qed.

(** C4, as stated, fails: drawing a connection between two nodes that are
    not linked yet adds an edge, with a new id, to the rendered edge set. *)
Lemma onConnect_adds_an_edge :
  let st := KnowledgeTree.mount sample_graph in
  let st' := KnowledgeTree.interact st (KnowledgeTree.Connect sample_connection) in
  KnowledgeTree.edgeRefs st'
  = KnowledgeTree.edgeRefs st
    ++ [ (JS.lit "reactflow__edge-r-c", JS.lit "r", JS.lit "c") ]
  ∧ KnowledgeTree.edgeRefs st' ≠ KnowledgeTree.edgeRefs st.
Proof. vm_compute. split; [reflexivity|discriminate]. Qed.

(** It fails for nodes as well: the user selects node c and presses
    Backspace, and React Flow hands the removal of the node and of the
    edge that leads to it to the change handlers. *)
Lemma delete_key_removes_a_node_and_its_edge :
  let st := foldl KnowledgeTree.interact (KnowledgeTree.mount sample_graph)
              [ KnowledgeTree.NodesChange
                  [KnowledgeTree.NodeSelectionChange (JS.lit "c") true];
                KnowledgeTree.EdgesChange
                  [KnowledgeTree.EdgeRemoveChange (JS.lit "e3")];
                KnowledgeTree.NodesChange
                  [KnowledgeTree.NodeRemoveChange (JS.lit "c")] ] in
  KnowledgeTree.nodeIds st = [ JS.lit "r"; JS.lit "a"; JS.lit "b" ]
  ∧ KnowledgeTree.edgeRefs st
    = [ (JS.lit "e1", JS.lit "r", JS.lit "a");
        (JS.lit "e2", JS.lit "r", JS.lit "b") ].
Proof. vm_compute. split; reflexivity. Qed.

(** C4, amended.  The UI does change the node set and the edge set of the
    rendered graph: a drawn connection appends an edge, and the change
    handlers remove the nodes and edges the user deletes.  What no
    sequence of interactions (changes of nodes and edges, drawn
    connections, node clicks) does: add a node, or alter the id, type,
    label, description or level of a node, or the id, source or target of
    an edge.  The rendered nodes are nodes of the given graph with their
    content, in the given order, possibly fewer; every rendered edge is an
    edge of the given graph or joins the two ends of a drawn connection.
    A node click changes neither nodes nor edges; a drawn connection
    leaves the nodes alone and appends no edge or one; a change of nodes
    leaves the edges alone, a change of edges the nodes. *)
Theorem interactions_add_no_node_and_alter_no_content
    (data : Api.KnowledgeGraphResponse) (actions : list KnowledgeTree.Interaction) :
  let st := foldl KnowledgeTree.interact (KnowledgeTree.mount data) actions in
  KnowledgeTree.renderedContent st
    `sublist_of` (KnowledgeTree.nodeContent <$> Api.nodes data)
  ∧ (∀ e, e ∈ KnowledgeTree.edges st →
       (∃ given, given ∈ Api.edges data
                 ∧ KnowledgeTree.edgeRef e
                   = (Api.edge_id given, Api.edge_source given, Api.edge_target given))
       ∨ (∃ params, params ∈ KnowledgeTree.drawn actions
                    ∧ KnowledgeTree.conn_source params = Some (KnowledgeTree.source e)
                    ∧ KnowledgeTree.conn_target params = Some (KnowledgeTree.target e)))
  ∧ (∀ node,
       KnowledgeTree.nodes (KnowledgeTree.interact st (KnowledgeTree.NodeClick node))
         = KnowledgeTree.nodes st
       ∧ KnowledgeTree.edges (KnowledgeTree.interact st (KnowledgeTree.NodeClick node))
         = KnowledgeTree.edges st)
  ∧ (∀ params,
       KnowledgeTree.nodes (KnowledgeTree.interact st (KnowledgeTree.Connect params))
         = KnowledgeTree.nodes st
       ∧ ∃ added,
           KnowledgeTree.edges (KnowledgeTree.interact st (KnowledgeTree.Connect params))
             = KnowledgeTree.edges st ++ added
           ∧ (length added ≤ 1)%nat
           ∧ ∀ e, e ∈ added →
               KnowledgeTree.conn_source params = Some (KnowledgeTree.source e)
               ∧ KnowledgeTree.conn_target params = Some (KnowledgeTree.target e))
  ∧ (∀ changes,
       KnowledgeTree.edges (KnowledgeTree.interact st (KnowledgeTree.NodesChange changes))
         = KnowledgeTree.edges st)
  ∧ (∀ changes,
       KnowledgeTree.nodes (KnowledgeTree.interact st (KnowledgeTree.EdgesChange changes))
         = KnowledgeTree.nodes st).
Proof.
  simpl. split_and!.
  - apply interactions_content.
  - apply interactions_edge_origin.
  - done.
  - intros params. split; [done|]. apply addEdge_appends.
  - done.
  - done.
Qed.

Lemma interactions_add_no_node_and_alter_no_content_witness :
  let actions := [ KnowledgeTree.Connect sample_connection;
                   KnowledgeTree.NodesChange
                     [KnowledgeTree.NodeRemoveChange (JS.lit "b")] ] in
  let st := foldl KnowledgeTree.interact (KnowledgeTree.mount sample_graph) actions in
  KnowledgeTree.renderedContent st
    `sublist_of` (KnowledgeTree.nodeContent <$> Api.nodes sample_graph)
  ∧ ∃ added,
      KnowledgeTree.edges
        (KnowledgeTree.interact st (KnowledgeTree.Connect sample_connection))
      = KnowledgeTree.edges st ++ added
      ∧ (length added ≤ 1)%nat.
Proof.
  intros actions st.
  destruct (interactions_add_no_node_and_alter_no_content sample_graph actions)
    as (Hnodes & _ & _ & Hconnect & _).
  split; [exact Hnodes|].
  destruct (Hconnect sample_connection) as (_ & added & Hedges & Hlen & _).
  exists added. split; [exact Hedges|exact Hlen].
Defined.

(** ** dashboard.tsx: the fan-out after an upload *)

Lemma ticks_snoc (k : nat) :
  DashboardSession.ticks k ++ [DashboardSession.SetState DashboardUI.Tick]
  = DashboardSession.ticks (S k).
Proof.
  unfold DashboardSession.ticks. simpl. by rewrite replicate_cons_app.
Qed.

Lemma session_run_start doc :
  DashboardSession.run_invariant (DashboardSession.handleUploadComplete doc).
Proof.
  unfold DashboardSession.run_invariant. cbn. split_and!; try done.
  - by intros (? & [?|[?|?]]).
  - by intros (? & ? & ? & ? & ? & ?).
  - by exists 0%nat.
Qed.

Lemma session_run_deliver r ev :
  DashboardSession.run_invariant r →
  DashboardSession.run_invariant (DashboardSession.deliver r ev).1.
Proof.
  destruct r as [doc gp fp sp ap interval effs].
  unfold DashboardSession.run_invariant.
  destruct ev as [|o|o|o]; cbn.
  - destruct ap as [|[[g f] s]|reason]; cbn; intros H; destruct_and?; subst; cbn.
    + destruct H3 as [k ->]. split_and!; try done. exists (S k).
      by rewrite <- (assoc_L (++)), ticks_snoc.
    + done.
    + destruct H2 as (k & k' & ->). split_and!; try done. exists k, (S k').
      rewrite <- !(assoc_L (++)). cbn. by rewrite ticks_snoc.
  - destruct gp, fp, sp, ap as [|[[g' f'] s']|reason'], o;
      session_cases; close_session_run.
  - destruct gp, fp, sp, ap as [|[[g' f'] s']|reason'], o;
      session_cases; close_session_run.
  - destruct gp, fp, sp, ap as [|[[g' f'] s']|reason'], o;
      session_cases; close_session_run.
Qed.

Lemma session_runs_invariant (evs : list DashboardSession.Event) :
  Forall DashboardSession.run_invariant
    (DashboardSession.runs (DashboardSession.run evs)).
Proof.
  unfold DashboardSession.run.
  induction evs as [|ev evs IH] using rev_ind; [by apply Forall_nil|].
  rewrite foldl_app. cbn [foldl].
  set (d := foldl DashboardSession.dispatch DashboardSession.mount evs) in *.
  destruct ev as [doc|i ev|view]; cbn.
  - apply Forall_app. split; [done|].
    apply Forall_singleton, session_run_start.
  - destruct (DashboardSession.runs d !! i) as [r|] eqn:Hr; [|done]. cbn.
    apply Forall_insert; [done|]. apply session_run_deliver.
    by eapply Forall_lookup_1.
  - done.
Qed.

Lemma session_run_of (evs : list DashboardSession.Event) (r : DashboardSession.Run) :
  r ∈ DashboardSession.runs (DashboardSession.run evs) →
  DashboardSession.run_invariant r.
Proof.
  intros Hr. by eapply Forall_forall; [apply session_runs_invariant|].
Qed.

(** What one event of a run hands to [setState]. *)
Lemma session_deliver_updates r ev :
  let r' := (DashboardSession.deliver r ev).1 in
  let us := (DashboardSession.deliver r ev).2 in
  ((us = [] ∨ us = [DashboardUI.Tick])
   ∧ DashboardSession.allPromise r' = DashboardSession.allPromise r)
  ∨ (us = [DashboardUI.Fail]
     ∧ DashboardSession.allPromise r = DashboardSession.Pending
     ∧ ∃ reason, DashboardSession.allPromise r' = DashboardSession.Rejected reason)
  ∨ (∃ g f s, us = [DashboardUI.Store g f s]
              ∧ DashboardSession.allPromise r = DashboardSession.Pending
              ∧ DashboardSession.allPromise r' = DashboardSession.Fulfilled (g, f, s)).
Proof.
  destruct r as [doc gp fp sp ap interval effs].
  destruct ev as [|o|o|o]; cbn.
  - destruct interval; cbn; left; split; auto.
  - destruct gp, fp, sp, ap as [|[[g' f'] s']|reason'], o;
      unfold DashboardSession.resume; cbn;
      first [ left; split; [by left|done]
            | right; left; split; [done|]; split; [done|]; by eexists
            | right; right; by eexists _, _, _ ].
  - destruct gp, fp, sp, ap as [|[[g' f'] s']|reason'], o;
      unfold DashboardSession.resume; cbn;
      first [ left; split; [by left|done]
            | right; left; split; [done|]; split; [done|]; by eexists
            | right; right; by eexists _, _, _ ].
  - destruct gp, fp, sp, ap as [|[[g' f'] s']|reason'], o;
      unfold DashboardSession.resume; cbn;
      first [ left; split; [by left|done]
            | right; left; split; [done|]; split; [done|]; by eexists
            | right; right; by eexists _, _, _ ].
Qed.

Lemma session_artifacts (evs : list DashboardSession.Event) :
  let d := DashboardSession.run evs in
  Dashboard.artifacts (DashboardSession.ui d) = (None, None, None)
  ∨ ∃ i r g f s,
      DashboardSession.runs d !! i = Some r
      ∧ DashboardSession.allPromise r = DashboardSession.Fulfilled (g, f, s)
      ∧ Dashboard.artifacts (DashboardSession.ui d) = (Some g, Some f, Some s).
Proof.
  cbn zeta. unfold DashboardSession.run.
  induction evs as [|ev evs IH] using rev_ind; [by left|].
  rewrite foldl_app. cbn [foldl].
  set (d := foldl DashboardSession.dispatch DashboardSession.mount evs) in *.
  destruct ev as [doc|i ev|view]; cbn.
  - destruct IH as [IH|(j & r & g & f & s & Hj & Hall & Ha)]; [by left|].
    right. exists j, r, g, f, s. split; [|done].
    by apply lookup_app_l_Some.
  - destruct (DashboardSession.runs d !! i) as [r|] eqn:Hr; [|done]. cbn.
    destruct (session_deliver_updates r ev)
      as [[Hus Hsame]|[(Hus & _ & _)|(g & f & s & Hus & _ & Hnew)]].
    + assert (Dashboard.artifacts
                (foldl DashboardUI.apply (DashboardSession.ui d)
                   (DashboardSession.deliver r ev).2)
              = Dashboard.artifacts (DashboardSession.ui d)) as ->
        by (destruct Hus as [-> | ->]; done).
      destruct IH as [IH|(j & r0 & g & f & s & Hj & Hall & Ha)]; [by left|].
      right. destruct (decide (j = i)) as [->|Hne].
      * exists i, (DashboardSession.deliver r ev).1, g, f, s.
        split; [apply list_lookup_insert_eq; by eapply lookup_lt_Some|].
        split; [|done]. rewrite Hsame. congruence.
      * exists j, r0, g, f, s. split; [|done].
        by rewrite list_lookup_insert_ne.
    + rewrite Hus. cbn. destruct IH as [IH|(j & r0 & g & f & s & Hj & Hall & Ha)];
        [by left|].
      right. exists j, r0, g, f, s.
      assert (j ≠ i) as Hne.
      { intros ->. destruct (session_deliver_updates r ev)
          as [[[Hu|Hu] _]|[(_ & Hp & _)|(? & ? & ? & Hu & _)]]; congruence. }
      split; [by rewrite list_lookup_insert_ne|done].
    + rewrite Hus. cbn. right.
      exists i, (DashboardSession.deliver r ev).1, g, f, s.
      split; [apply list_lookup_insert_eq; by eapply lookup_lt_Some|done].
  - destruct IH as [IH|(j & r & g & f & s & Hj & Hall & Ha)]; [left|right].
    + rewrite <- IH. unfold DashboardUI.apply.
      by destruct (DashboardUI.navEnabled _ _).
    + exists j, r, g, f, s. split; [done|]. split; [done|].
      rewrite <- Ha. unfold DashboardUI.apply.
      by destruct (DashboardUI.navEnabled _ _).
Qed.

Lemma session_fulfilled_stays (d : DashboardSession.Session)
    (ev : DashboardSession.Event) (j : nat) (r : DashboardSession.Run)
    (x : DashboardSession.Results) :
  DashboardSession.runs d !! j = Some r →
  DashboardSession.allPromise r = DashboardSession.Fulfilled x →
  ∃ r', DashboardSession.runs (DashboardSession.dispatch d ev) !! j = Some r'
        ∧ DashboardSession.allPromise r' = DashboardSession.Fulfilled x.
Proof.
  intros Hj Hall. destruct ev as [doc|i ev|view]; cbn.
  - exists r. split; [by apply lookup_app_l_Some|done].
  - destruct (DashboardSession.runs d !! i) as [r0|] eqn:Hr; [|by exists r]. cbn.
    destruct (decide (j = i)) as [->|Hne].
    + exists (DashboardSession.deliver r0 ev).1.
      split; [apply list_lookup_insert_eq; by eapply lookup_lt_Some|].
      assert (r0 = r) as -> by congruence.
      destruct (session_deliver_updates r ev)
        as [[_ Hsame]|[(_ & Hp & _)|(? & ? & ? & _ & Hp & _)]]; congruence.
    + exists r. split; [by rewrite list_lookup_insert_ne|done].
  - by exists r.
Qed.

Lemma session_progress (evs : list DashboardSession.Event) :
  let d := DashboardSession.run evs in
  Dashboard.generationProgress (DashboardSession.ui d) ≤ 90
  ∨ ∃ i r x, DashboardSession.runs d !! i = Some r
             ∧ DashboardSession.allPromise r = DashboardSession.Fulfilled x.
Proof.
  cbn zeta. unfold DashboardSession.run.
  induction evs as [|ev evs IH] using rev_ind; [left; cbn; lia|].
  rewrite foldl_app. cbn [foldl].
  set (d := foldl DashboardSession.dispatch DashboardSession.mount evs) in *.
  destruct IH as [IH|(j & r & x & Hj & Hall)].
  - destruct ev as [doc|i ev|view]; cbn.
    + left. lia.
    + destruct (DashboardSession.runs d !! i) as [r|] eqn:Hr; [|by left]. cbn.
      destruct (session_deliver_updates r ev)
        as [[[Hus|Hus] _]|[(Hus & _ & _)|(g & f & s & Hus & _ & Hnew)]];
        rewrite Hus; cbn; [by left|left; lia|left; lia|].
      right. exists i, (DashboardSession.deliver r ev).1, (g, f, s).
      split; [apply list_lookup_insert_eq; by eapply lookup_lt_Some|done].
    + left. unfold DashboardUI.apply.
      by destruct (DashboardUI.navEnabled _ _).
  - right. destruct (session_fulfilled_stays d ev j r x Hj Hall) as (r' & ? & ?).
    by exists j, r', x.
Qed.

Lemma store_not_in_start doc g f s :
  DashboardSession.SetState (DashboardUI.Store g f s) ∉ DashboardSession.start doc.
Proof.
  unfold DashboardSession.start. rewrite !not_elem_of_cons.
  split_and!; try done. apply not_elem_of_nil.
Qed.

Lemma elem_of_ticks (e : DashboardSession.Effect) (k : nat) :
  e ∈ DashboardSession.ticks k → e = DashboardSession.SetState DashboardUI.Tick.
Proof. by intros [-> _]%elem_of_replicate. Qed.

Lemma keeps_phase_Tick : DashboardSession.keeps_phase DashboardUI.Tick.
Proof.
  intros st. split; [done|]. unfold Dashboard.marked_complete. cbn. lia.
Qed.

Lemma keeps_phase_Fail : DashboardSession.keeps_phase DashboardUI.Fail.
Proof.
  intros st. split; [done|]. unfold Dashboard.marked_complete. cbn. lia.
Qed.

Lemma keeps_phase_Begin doc : DashboardSession.keeps_phase (DashboardUI.Begin doc).
Proof.
  intros st. split; [done|]. unfold Dashboard.marked_complete. cbn. lia.
Qed.

Lemma fulfilled_unique r g f s g' f' s' :
  DashboardSession.fulfilled r g f s → DashboardSession.fulfilled r g' f' s' →
  g = g' ∧ f = f' ∧ s = s'.
Proof.
  unfold DashboardSession.fulfilled. intros (Hg & Hf & Hs) (Hg' & Hf' & Hs').
  rewrite Hg in Hg'. rewrite Hf in Hf'. rewrite Hs in Hs'.
  by simplify_eq.
Qed.

Lemma fulfilled_not_rejected r g f s :
  DashboardSession.fulfilled r g f s → ¬ DashboardSession.some_rejected r.
Proof.
  unfold DashboardSession.fulfilled, DashboardSession.some_rejected,
    DashboardSession.rejected_with.
  intros (Hg & Hf & Hs) (reason & [H|[H|H]]); congruence.
Qed.

(** What a run has done, by how its stages ended. *)
Lemma session_run_effects (r : DashboardSession.Run) :
  DashboardSession.run_invariant r →
  (DashboardSession.some_rejected r →
     ∃ reason k k',
       DashboardSession.rejected_with r reason
       ∧ DashboardSession.allPromise r = DashboardSession.Rejected reason
       ∧ DashboardSession.progressInterval r = true
       ∧ DashboardSession.effects r
         = DashboardSession.start (DashboardSession.document r)
           ++ DashboardSession.ticks k
           ++ [ DashboardSession.ConsoleError DashboardSession.errorMessage reason;
                DashboardSession.SetState DashboardUI.Fail ]
           ++ DashboardSession.ticks k')
  ∧ (∀ g f s, DashboardSession.fulfilled r g f s →
       DashboardSession.allPromise r = DashboardSession.Fulfilled (g, f, s)
       ∧ DashboardSession.progressInterval r = false
       ∧ ∃ k, DashboardSession.effects r
              = DashboardSession.start (DashboardSession.document r)
                ++ DashboardSession.ticks k
                ++ [ DashboardSession.ClearInterval;
                     DashboardSession.SetState (DashboardUI.Store g f s) ])
  ∧ (¬ DashboardSession.some_rejected r → ¬ DashboardSession.all_fulfilled r →
       DashboardSession.allPromise r = DashboardSession.Pending
       ∧ DashboardSession.progressInterval r = true
       ∧ ∃ k, DashboardSession.effects r
              = DashboardSession.start (DashboardSession.document r)
                ++ DashboardSession.ticks k).
Proof.
  unfold DashboardSession.run_invariant.
  destruct (DashboardSession.allPromise r) as [|[[g0 f0] s0]|reason] eqn:Hall.
  - intros (Hi & Hrej & Hnot & k & He). split_and!.
    + by intros ?%Hrej.
    + intros g f s Hf. exfalso. apply Hnot. by exists g, f, s.
    + intros _ _. split_and!; try done. by exists k.
  - intros (Hi & Hf0 & k & He). split_and!.
    + by intros ?%(fulfilled_not_rejected r g0 f0 s0).
    + intros g f s Hf.
      destruct (fulfilled_unique _ _ _ _ _ _ _ Hf0 Hf) as (-> & -> & ->).
      split_and!; try done. by exists k.
    + intros _ Hnot. exfalso. apply Hnot. by exists g0, f0, s0.
  - intros (Hi & Hrej & k & k' & He). split_and!.
    + intros _. by exists reason, k, k'.
    + intros g f s Hf%fulfilled_not_rejected. exfalso. apply Hf. by exists reason.
    + intros Hnot. exfalso. apply Hnot. by exists reason.
Qed.

Lemma session_store_effect (r : DashboardSession.Run) g f s :
  DashboardSession.run_invariant r →
  DashboardSession.SetState (DashboardUI.Store g f s) ∈ DashboardSession.effects r
  ↔ DashboardSession.fulfilled r g f s.
Proof.
  unfold DashboardSession.run_invariant.
  destruct (DashboardSession.allPromise r) as [|[[g0 f0] s0]|reason] eqn:Hall.
  - intros (Hi & Hrej & Hnot & k & ->). split.
    + intros [H|H]%elem_of_app; [by apply store_not_in_start in H|].
      by apply elem_of_ticks in H.
    + intros Hf. exfalso. apply Hnot. by exists g, f, s.
  - intros (Hi & Hf0 & k & ->). split.
    + intros [H|[H|H]%elem_of_app]%elem_of_app.
      * by apply store_not_in_start in H.
      * by apply elem_of_ticks in H.
      * apply elem_of_cons in H as [H|H]; [done|].
        apply list_elem_of_singleton in H. by simplify_eq.
    + intros Hf. destruct (fulfilled_unique _ _ _ _ _ _ _ Hf0 Hf) as (-> & -> & ->).
      rewrite !elem_of_app. right; right.
      apply elem_of_cons. right. apply list_elem_of_here.
  - intros (Hi & Hrej & k & k' & ->). split.
    + intros [H|[H|[H|H]%elem_of_app]%elem_of_app]%elem_of_app.
      * by apply store_not_in_start in H.
      * by apply elem_of_ticks in H.
      * apply elem_of_cons in H as [H|H]; [done|].
        by apply list_elem_of_singleton in H.
      * by apply elem_of_ticks in H.
    + intros Hf%fulfilled_not_rejected. exfalso. apply Hf. by exists reason.
Qed.

Lemma session_first_failure (r : DashboardSession.Run)
    (ev : DashboardSession.RunEvent) (reason : jsstring) :
  DashboardSession.run_invariant r →
  ¬ DashboardSession.some_rejected r →
  DashboardSession.rejects r ev = Some reason →
  DashboardSession.effects (DashboardSession.deliver r ev).1
  = DashboardSession.effects r
    ++ [ DashboardSession.ConsoleError DashboardSession.errorMessage reason;
         DashboardSession.SetState DashboardUI.Fail ].
Proof.
  destruct r as [doc gp fp sp ap interval effs].
  unfold DashboardSession.run_invariant.
  destruct ev as [|o|o|o]; cbn; [done| | |].
  - destruct gp, fp, sp, ap as [|[[g' f'] s']|reason'], o; session_cases;
      try done; intros H Hnot [= ->]; try done; destruct_and?;
      try discriminate; exfalso;
      first [ by destruct_or?; simplify_eq
            | apply Hnot; eexists;
              first [ by left | by right; left | by right; right ] ].
  - destruct gp, fp, sp, ap as [|[[g' f'] s']|reason'], o; session_cases;
      try done; intros H Hnot [= ->]; try done; destruct_and?;
      try discriminate; exfalso;
      first [ by destruct_or?; simplify_eq
            | apply Hnot; eexists;
              first [ by left | by right; left | by right; right ] ].
  - destruct gp, fp, sp, ap as [|[[g' f'] s']|reason'], o; session_cases;
      try done; intros H Hnot [= ->]; try done; destruct_and?;
      try discriminate; exfalso;
      first [ by destruct_or?; simplify_eq
            | apply Hnot; eexists;
              first [ by left | by right; left | by right; right ] ].
Qed.

Lemma session_run_member (evs : list DashboardSession.Event) i r :
  DashboardSession.runs (DashboardSession.run evs) !! i = Some r →
  r ∈ DashboardSession.runs (DashboardSession.run evs).
Proof. apply list_elem_of_lookup_2. Qed.

Lemma session_artifacts_of_one_run (evs : list DashboardSession.Event) :
  let d := DashboardSession.run evs in
  Dashboard.artifacts (DashboardSession.ui d) = (None, None, None)
  ∨ ∃ r g f s, r ∈ DashboardSession.runs d
               ∧ DashboardSession.fulfilled r g f s
               ∧ Dashboard.artifacts (DashboardSession.ui d) = (Some g, Some f, Some s).
Proof.
  cbn zeta.
  destruct (session_artifacts evs) as [H|(i & r & g & f & s & Hi & Hall & Ha)];
    [by left|right].
  exists r, g, f, s. apply list_elem_of_lookup_2 in Hi.
  split; [done|]. split; [|done].
  pose proof (session_run_of evs r Hi) as Hinv.
  unfold DashboardSession.run_invariant in Hinv. rewrite Hall in Hinv.
  by destruct Hinv as (_ & ? & _).
Qed.

(** C1, as stated, fails: the summary and the graph are generated, the
    flashcards request fails, and the state keeps neither the summary nor
    the graph. *)
Lemma one_failed_stage_discards_the_others :
  let d := DashboardSession.run
             [ DashboardSession.UploadCompletes sample_document;
               DashboardSession.OfRun 0
                 (DashboardSession.SummarySettles (inr sample_summary));
               DashboardSession.OfRun 0
                 (DashboardSession.GraphSettles (inr sample_graph));
               DashboardSession.OfRun 0
                 (DashboardSession.FlashcardsSettle (inl (JS.lit "Bad Gateway"))) ] in
  ∃ r, DashboardSession.runs d = [r]
       ∧ DashboardSession.summaryPromise r = DashboardSession.Fulfilled sample_summary
       ∧ DashboardSession.graphPromise r = DashboardSession.Fulfilled sample_graph
       ∧ DashboardSession.flashcardsPromise r
         = DashboardSession.Rejected (JS.lit "Bad Gateway")
       ∧ Dashboard.summaries (DashboardSession.ui d) = None
       ∧ Dashboard.knowledgeGraph (DashboardSession.ui d) = None.
Proof. eexists. vm_compute. repeat split. Qed.

(** C1, amended.  The fan-out is all or nothing, in every run of the
    handler and whatever else writes to the state in between.  A run in
    which a stage has failed never writes a result to the state, whatever
    the other stages returned: besides the ticks of its interval, all it
    does after the [await] is one [console.error('Error generating
    content:', error)], where [error] is what a failed request was
    rejected with, and one update, which sets [isGenerating] to false and
    the progress to 0 and keeps the artifact cells.  The error logged is
    that of the first request to fail.  A run writes its three results,
    in one update, exactly when all three stages have succeeded.  So the
    artifact cells of the state are either all empty or hold the three
    results of one run all of whose stages succeeded: the state never
    holds the results of some stages of a run without the others. *)
Theorem fan_out_is_all_or_nothing (evs : list DashboardSession.Event) :
  let d := DashboardSession.run evs in
  (∀ r, r ∈ DashboardSession.runs d → DashboardSession.some_rejected r →
     (∀ g f s, DashboardSession.SetState (DashboardUI.Store g f s)
               ∉ DashboardSession.effects r)
     ∧ ∃ reason k k',
         DashboardSession.rejected_with r reason
         ∧ DashboardSession.effects r
           = DashboardSession.start (DashboardSession.document r)
             ++ DashboardSession.ticks k
             ++ [ DashboardSession.ConsoleError
                    (JS.lit "Error generating content:") reason;
                  DashboardSession.SetState DashboardUI.Fail ]
             ++ DashboardSession.ticks k')
  ∧ (∀ st, Dashboard.isGenerating (DashboardUI.apply st DashboardUI.Fail) = false
           ∧ Dashboard.generationProgress (DashboardUI.apply st DashboardUI.Fail) = 0
           ∧ Dashboard.artifacts (DashboardUI.apply st DashboardUI.Fail)
             = Dashboard.artifacts st)
  ∧ (∀ r ev reason,
       r ∈ DashboardSession.runs d → ¬ DashboardSession.some_rejected r →
       DashboardSession.rejects r ev = Some reason →
       DashboardSession.effects (DashboardSession.deliver r ev).1
       = DashboardSession.effects r
         ++ [ DashboardSession.ConsoleError
                (JS.lit "Error generating content:") reason;
              DashboardSession.SetState DashboardUI.Fail ])
  ∧ (∀ r g f s, r ∈ DashboardSession.runs d →
       DashboardSession.SetState (DashboardUI.Store g f s)
         ∈ DashboardSession.effects r
       ↔ DashboardSession.fulfilled r g f s)
  ∧ (Dashboard.artifacts (DashboardSession.ui d) = (None, None, None)
     ∨ ∃ r g f s, r ∈ DashboardSession.runs d
                  ∧ DashboardSession.fulfilled r g f s
                  ∧ Dashboard.artifacts (DashboardSession.ui d)
                    = (Some g, Some f, Some s)).
Proof.
  cbn zeta. split_and!.
  - intros r Hr Hrej. pose proof (session_run_of evs r Hr) as Hinv. split.
    + intros g f s Hin%(session_store_effect r g f s Hinv).
      by apply (fulfilled_not_rejected r g f s).
    + destruct (session_run_effects r Hinv) as (Hfailed & _ & _).
      destruct (Hfailed Hrej) as (reason & k & k' & Hwith & _ & _ & He).
      by exists reason, k, k'.
  - done.
  - intros r ev reason Hr Hnot Hev.
    by apply session_first_failure; [apply (session_run_of evs)| |].
  - intros r g f s Hr. by apply session_store_effect, (session_run_of evs).
  - apply session_artifacts_of_one_run.
Qed.

Lemma fan_out_is_all_or_nothing_witness :
  let r := first_run sample_failed_generation in
  (∀ g f s, DashboardSession.SetState (DashboardUI.Store g f s)
            ∉ DashboardSession.effects r)
  ∧ Dashboard.artifacts
      (DashboardSession.ui (DashboardSession.run sample_failed_generation))
    = (None, None, None).
Proof.
  intros r.
  destruct (fan_out_is_all_or_nothing sample_failed_generation)
    as (Hfailed & _ & _ & _ & _).
  split; [|vm_compute; reflexivity].
  apply (Hfailed r).
  - vm_compute. apply list_elem_of_here.
  - exists (JS.lit "Bad Gateway"). right; left. vm_compute. reflexivity.
Defined.

Lemma session_marked_complete (evs : list DashboardSession.Event) :
  let d := DashboardSession.run evs in
  Dashboard.marked_complete (DashboardSession.ui d) →
  ∃ r, r ∈ DashboardSession.runs d ∧ DashboardSession.all_fulfilled r.
Proof.
  cbn zeta. intros (_ & H100 & _).
  destruct (session_progress evs) as [Hle|(i & r & [[g f] s] & Hi & Hall)]; [lia|].
  apply list_elem_of_lookup_2 in Hi. exists r. split; [done|].
  pose proof (session_run_of evs r Hi) as Hinv.
  unfold DashboardSession.run_invariant in Hinv. rewrite Hall in Hinv.
  destruct Hinv as (_ & ? & _). by exists g, f, s.
Qed.

(** C5.  Every run of the handler calls the three generation functions
    (graph, flashcards, summary, in this order) before it awaits
    anything.  The one update that marks the phase complete
    ([isGenerating] false, progress 100, view switched to the knowledge
    tree) and records the three artifacts is issued by the run exactly
    when all three of its results have arrived; every other update the
    run issues, before or after, leaves the artifact cells as they are
    and the phase not marked complete.  In the state this shows as
    follows: whenever the phase is marked complete, and whenever an
    artifact is in the state, there is a run all three results of which
    have arrived. *)
Theorem generation_completes_after_all_three (evs : list DashboardSession.Event) :
  let d := DashboardSession.run evs in
  (∀ r, r ∈ DashboardSession.runs d →
     let doc := DashboardSession.document r in
     ∃ later,
       DashboardSession.effects r
       = [ DashboardSession.SetState (DashboardUI.Begin doc);
           DashboardSession.SetInterval;
           DashboardSession.Call
             (Api.generateKnowledgeGraph (Api.document_id doc) (Api.raw_text doc));
           DashboardSession.Call
             (Api.generateFlashcards (Api.document_id doc) (Api.raw_text doc));
           DashboardSession.Call
             (Api.generateSummary (Api.document_id doc) (Api.raw_text doc));
           DashboardSession.AwaitAll ] ++ later
       ∧ (∀ g f s, DashboardSession.SetState (DashboardUI.Store g f s) ∈ later
                   ↔ DashboardSession.fulfilled r g f s)
       ∧ (∀ u, DashboardSession.SetState u ∈ later →
               (∃ g f s, u = DashboardUI.Store g f s)
               ∨ DashboardSession.keeps_phase u))
  ∧ (∀ doc, DashboardSession.keeps_phase (DashboardUI.Begin doc))
  ∧ (∀ g f s st,
       Dashboard.marked_complete (DashboardUI.apply st (DashboardUI.Store g f s))
       ∧ Dashboard.artifacts (DashboardUI.apply st (DashboardUI.Store g f s))
         = (Some g, Some f, Some s))
  ∧ (Dashboard.marked_complete (DashboardSession.ui d) →
       ∃ r, r ∈ DashboardSession.runs d ∧ DashboardSession.all_fulfilled r)
  ∧ (Dashboard.artifacts (DashboardSession.ui d) ≠ (None, None, None) →
       ∃ r, r ∈ DashboardSession.runs d ∧ DashboardSession.all_fulfilled r).
Proof.
  cbn zeta. split_and!.
  - intros r Hr. pose proof (session_run_of evs r Hr) as Hinv.
    pose proof (session_store_effect r) as Hstore.
    assert (∃ later,
              DashboardSession.effects r
              = DashboardSession.start (DashboardSession.document r) ++ later
              ∧ ∀ u, DashboardSession.SetState u ∈ later →
                     (∃ g f s, u = DashboardUI.Store g f s)
                     ∨ u = DashboardUI.Tick ∨ u = DashboardUI.Fail)
      as (later & He & Hlater).
    { unfold DashboardSession.run_invariant in Hinv.
      destruct (DashboardSession.allPromise r) as [|[[g0 f0] s0]|reason].
      - destruct Hinv as (_ & _ & _ & k & ->). eexists. split; [done|].
        intros u [= ->]%elem_of_ticks. by right; left.
      - destruct Hinv as (_ & _ & k & ->). eexists. split; [done|].
        intros u [[= ->]%elem_of_ticks|H]%elem_of_app; [by right; left|].
        apply elem_of_cons in H as [H|H]; [done|].
        apply list_elem_of_singleton in H. injection H as ->.
        left. by exists g0, f0, s0.
      - destruct Hinv as (_ & _ & k & k' & ->). eexists. split; [done|].
        intros u [[= ->]%elem_of_ticks|[H|[= ->]%elem_of_ticks]%elem_of_app]%elem_of_app;
          [by right; left| |by right; left].
        apply elem_of_cons in H as [H|H]; [done|].
        apply list_elem_of_singleton in H. injection H as ->. by right; right. }
    exists later. split; [exact He|]. split.
    + intros g f s. rewrite <- (Hstore g f s Hinv), He, elem_of_app.
      split; [by right|]. intros [H|H]; [|done].
      by apply store_not_in_start in H.
    + intros u [Hu|[-> | ->]]%Hlater; [by left| |]; right.
      * apply keeps_phase_Tick.
      * apply keeps_phase_Fail.
  - apply keeps_phase_Begin.
  - intros g f s st. by split.
  - apply session_marked_complete.
  - intros Hsome.
    destruct (session_artifacts_of_one_run evs) as [H|(r & g & f & s & Hr & Hf & _)];
      [done|].
    exists r. split; [done|]. by exists g, f, s.
Qed.

Lemma generation_completes_after_all_three_witness :
  let d := DashboardSession.run sample_generation in
  Dashboard.marked_complete (DashboardSession.ui d)
  ∧ ∃ r, r ∈ DashboardSession.runs d ∧ DashboardSession.all_fulfilled r.
Proof.
  intros d.
  assert (Dashboard.marked_complete (DashboardSession.ui d)) as Hmarked
    by (vm_compute; repeat split).
  split; [exact Hmarked|].
  destruct (generation_completes_after_all_three sample_generation)
    as (_ & _ & _ & Hcomplete & _).
  exact (Hcomplete Hmarked).
Defined.


(** ** flashcards.tsx: the index and the filtered deck *)

Section FlashcardIndex.

Variable data : Api.FlashcardResponse.

Lemma filteredCards_filters (s s' : Flashcards.FlashcardState) :
  Flashcards.difficulty s' = Flashcards.difficulty s →
  Flashcards.category s' = Flashcards.category s →
  Flashcards.filteredCards data s' = Flashcards.filteredCards data s.
Proof. unfold Flashcards.filteredCards. by intros -> ->. Qed.

Lemma totalCards_filters (s s' : Flashcards.FlashcardState) :
  Flashcards.difficulty s' = Flashcards.difficulty s →
  Flashcards.category s' = Flashcards.category s →
  Flashcards.totalCards data s' = Flashcards.totalCards data s.
Proof.
  intros Hd Hc. unfold Flashcards.totalCards.
  by rewrite (filteredCards_filters s s' Hd Hc).
Qed.

Lemma currentCard_in_bounds (s : Flashcards.FlashcardState) :
  0 ≤ Flashcards.currentIndex s < Flashcards.totalCards data s →
  is_Some (Flashcards.currentCard data s).
Proof.
  intros [H0 Hlt]. unfold Flashcards.currentCard, Flashcards.index.
  rewrite bool_decide_eq_true_2 by done.
  apply lookup_lt_is_Some. unfold Flashcards.totalCards in Hlt. lia.
Qed.

Lemma currentCard_out_of_bounds (s : Flashcards.FlashcardState) :
  Flashcards.totalCards data s ≤ Flashcards.currentIndex s →
  Flashcards.currentCard data s = None.
Proof.
  intros Hge. unfold Flashcards.currentCard, Flashcards.index.
  case_bool_decide; [|done].
  apply lookup_ge_None. unfold Flashcards.totalCards in Hge. lia.
Qed.

Lemma settled_dispatch (c : Flashcards.Component) (ev : Flashcards.Event) :
  Flashcards.settled data c → Flashcards.settled data (Flashcards.settle data (Flashcards.dispatch data c ev)).
Proof.
  destruct c as [s ts]. intros [Hts Hidx]. simpl in Hts. subst ts.
  unfold Flashcards.dispatch.
  destruct (Flashcards.offered data _ ev) eqn:Hoff; simpl; [|by split].
  unfold Flashcards.offered in Hoff. simpl in Hoff, Hidx.
  destruct ev; simpl.
  - (* ClickCard *) by split.
  - (* ClickNext *)
    clear Hoff. split; [done|]. unfold Flashcards.handleNext.
    case_bool_decide; simpl; [|done].
    right. rewrite (totalCards_filters s) by done. lia.
  - (* ClickPrevious *)
    clear Hoff. split; [done|]. unfold Flashcards.handlePrevious.
    case_bool_decide; simpl; [|done].
    right. rewrite (totalCards_filters s) by done. lia.
  - (* ClickCorrect *)
    clear Hoff.
    destruct (Flashcards.currentCard data s) as [card|]; [|by split].
    unfold Flashcards.settle. simpl.
    split; [done|]. simpl. unfold Flashcards.handleNext.
    case_bool_decide; simpl; [|done].
    right. rewrite (totalCards_filters s) by done. lia.
  - (* ClickIncorrect *)
    clear Hoff.
    destruct (Flashcards.currentCard data s) as [card|]; [|by split].
    unfold Flashcards.settle. simpl.
    split; [done|]. simpl. unfold Flashcards.handleNext.
    case_bool_decide; simpl; [|done].
    right. rewrite (totalCards_filters s) by done. lia.
  - (* ClickShuffle *) split; [done|by left].
  - (* ClickReset *) split; [done|by left].
  - (* SelectDifficulty *) split; [done|by left].
  - (* SelectCategory *) split; [done|by left].
  - (* ClickClearFilters *)
    split; [done|]. left. simpl.
    unfold Flashcards.render in Hoff.
    destruct (bool_decide (length (Api.flashcards data) = 0%nat)); [done|].
    case_bool_decide as Htotal.
    + lia.
    + by destruct (Flashcards.currentCard data s).
  - (* TimerFires *)
    done.
Qed.

(** When every timer started by a mark fires before the next event, the
    index stays within the filtered deck and a card is on display
    whenever the filtered deck is not empty. *)
Lemma index_in_bounds_when_timers_settle (evs : list Flashcards.Event) :
  let c := Flashcards.run_settled data Flashcards.mount evs in
  Flashcards.index_in_bounds data (Flashcards.state c)
  ∧ (Flashcards.totalCards data (Flashcards.state c) ≠ 0 →
     is_Some (Flashcards.currentCard data (Flashcards.state c))).
Proof.
  simpl.
  assert (Flashcards.settled data (Flashcards.run_settled data Flashcards.mount evs)) as [_ H].
  { unfold Flashcards.run_settled.
    induction evs as [|ev evs IH] using rev_ind.
    - split; [done|by left].
    - rewrite foldl_app. simpl. by apply settled_dispatch. }
  pose proof (Nat2Z.is_nonneg
    (length (Flashcards.filteredCards data
       (Flashcards.state (Flashcards.run_settled data Flashcards.mount evs))))) as Hn.
  fold (Flashcards.totalCards data
          (Flashcards.state (Flashcards.run_settled data Flashcards.mount evs))) in Hn.
  split.
  - unfold Flashcards.index_in_bounds. lia.
  - intros Hne. apply currentCard_in_bounds. lia.
Qed.

End FlashcardIndex.

(** C9: the index can leave the filtered deck.  With a deck of two cards
    the user turns the first card and marks it twice before the timer of
    the first mark has fired (each event is offered by the screen when it
    happens).  Both timers run the [handleNext] of a render at which the
    index was 0, so both pass the guard [0 < 2 - 1], and each adds one to
    the index of the moment: the index ends at 2, the size of the filtered
    deck, and no card is there to display. *)
Theorem two_quick_marks_run_past_the_deck :
  let evs := [ Flashcards.ClickCard; Flashcards.ClickCorrect; Flashcards.ClickCorrect;
               Flashcards.TimerFires; Flashcards.TimerFires ] in
  let c := Flashcards.run sample_deck Flashcards.mount evs in
  Flashcards.all_offered sample_deck Flashcards.mount evs = true
  ∧ Flashcards.currentIndex (Flashcards.state c) = 2
  ∧ Flashcards.totalCards sample_deck (Flashcards.state c) = 2
  ∧ Flashcards.currentCard sample_deck (Flashcards.state c) = None
  ∧ Flashcards.render sample_deck (Flashcards.state c) = Flashcards.RenderError
  ∧ ¬ Flashcards.index_in_bounds sample_deck (Flashcards.state c).
Proof.
  vm_compute. repeat split; try reflexivity.
  intros [H|[_ H]]; discriminate.
Qed.

(** The same happens when a filter change falls between a mark and its
    timer: the timer's guard is the one of the unfiltered deck. *)
Lemma mark_then_filter_runs_past_the_deck :
  let evs := [ Flashcards.ClickCard; Flashcards.ClickCorrect;
               Flashcards.SelectDifficulty (JS.lit "easy");
               Flashcards.TimerFires ] in
  let c := Flashcards.run sample_deck Flashcards.mount evs in
  Flashcards.all_offered sample_deck Flashcards.mount evs = true
  ∧ Flashcards.currentIndex (Flashcards.state c) = 1
  ∧ Flashcards.totalCards sample_deck (Flashcards.state c) = 1
  ∧ Flashcards.render sample_deck (Flashcards.state c) = Flashcards.RenderError.
Proof. vm_compute. repeat split. Qed.

(** ** The Knowledge-Tree stage: validation against the specification *)

Section GraphSearch.

Variable g : Api.KnowledgeGraphResponse.

Lemma elem_of_successors (seen : gset jsstring) (x : jsstring) :
  x ∈ KnowledgeTreeStage.successors g seen ↔
  ∃ s, s ∈ seen ∧ KnowledgeTreeStage.edge_between g s x.
Proof.
  unfold KnowledgeTreeStage.successors, KnowledgeTreeStage.edge_between.
  rewrite elem_of_list_to_set, list_elem_of_fmap. split.
  - intros (e & -> & He).
    apply list_elem_of_In, filter_In in He as [He Hs].
    apply bool_decide_eq_true_1 in Hs.
    exists (Api.edge_source e). split; [done|].
    exists e. by rewrite list_elem_of_In.
  - intros (s & Hs & e & He & <- & <-).
    exists e. split; [done|].
    apply list_elem_of_In, filter_In. split; [by apply list_elem_of_In|].
    by apply bool_decide_eq_true_2.
Qed.

Lemma elem_of_expand (seen : gset jsstring) (x : jsstring) :
  x ∈ KnowledgeTreeStage.expand g seen ↔
  x ∈ seen ∨ ∃ s, s ∈ seen ∧ KnowledgeTreeStage.edge_between g s x.
Proof.
  unfold KnowledgeTreeStage.expand.
  by rewrite elem_of_union, elem_of_successors.
Qed.

Lemma expand_grows (seen : gset jsstring) :
  seen ⊆ KnowledgeTreeStage.expand g seen.
Proof. intros x Hx. apply elem_of_expand. by left. Qed.

Lemma search_grows (rounds : nat) (seen : gset jsstring) :
  seen ⊆ KnowledgeTreeStage.search g rounds seen.
Proof.
  revert seen. induction rounds as [|n IH]; intros seen; simpl; [done|].
  etrans; [apply expand_grows|apply IH].
Qed.

(** Soundness: the search finds only what can be reached. *)
Lemma search_sound (rounds : nat) (seen : gset jsstring) (x : jsstring) :
  x ∈ KnowledgeTreeStage.search g rounds seen →
  ∃ s, s ∈ seen ∧ KnowledgeTreeStage.reachable g s x.
Proof.
  revert seen. induction rounds as [|n IH]; intros seen; simpl.
  - intros Hx. exists x. split; [done|apply rtc_refl].
  - intros Hx. destruct (IH _ Hx) as (s & Hs & Hreach).
    apply elem_of_expand in Hs as [Hs|(s0 & Hs0 & Hedge)].
    + by exists s.
    + exists s0. split; [done|]. by eapply rtc_l.
Qed.

(** A set that a round does not enlarge holds all that can be reached
    from it. *)
Lemma closed_holds_reachable (seen : gset jsstring) (s x : jsstring) :
  KnowledgeTreeStage.expand g seen = seen →
  s ∈ seen → KnowledgeTreeStage.reachable g s x → x ∈ seen.
Proof.
  intros Hclosed Hs Hreach. induction Hreach as [|s y x Hedge _ IH]; [done|].
  apply IH. rewrite <- Hclosed. apply elem_of_expand. right. by exists s.
Qed.

Lemma search_closed (rounds : nat) (seen : gset jsstring) :
  KnowledgeTreeStage.expand g seen = seen →
  KnowledgeTreeStage.search g rounds seen = seen.
Proof.
  intros Hclosed. induction rounds as [|n IH]; simpl; [done|].
  by rewrite Hclosed.
Qed.

(** Each round either adds an id or the search is over. *)
Lemma search_progress (rounds : nat) (seen : gset jsstring) :
  KnowledgeTreeStage.expand g (KnowledgeTreeStage.search g rounds seen)
    = KnowledgeTreeStage.search g rounds seen
  ∨ (size seen + rounds ≤ size (KnowledgeTreeStage.search g rounds seen))%nat.
Proof.
  revert seen. induction rounds as [|n IH]; intros seen; simpl.
  - right. lia.
  - destruct (decide (KnowledgeTreeStage.expand g seen = seen)) as [Hc|Hc].
    + left. rewrite Hc. by rewrite search_closed.
    + destruct (IH (KnowledgeTreeStage.expand g seen)) as [Hclosed|Hsize];
        [by left|right].
      assert (seen ⊂ KnowledgeTreeStage.expand g seen) as Hlt.
      { split; [apply expand_grows|].
        intros Hsub. apply Hc. apply set_eq. intros x. split; [apply Hsub|].
        apply expand_grows. }
      apply subset_size in Hlt. lia.
Qed.

Lemma size_list_to_set_le (l : list jsstring) :
  (size (list_to_set l : gset jsstring) ≤ length l)%nat.
Proof.
  induction l as [|x l IH].
  - rewrite list_to_set_nil, size_empty. simpl. lia.
  - rewrite list_to_set_cons, size_union_alt, size_singleton. simpl length.
    assert (size (list_to_set l ∖ {[x]} : gset jsstring)
            ≤ size (list_to_set l : gset jsstring))%nat
      by (apply subseteq_size; intros y [Hy _]%elem_of_difference; exact Hy).
    lia.
Qed.

Hypothesis endpoints : KnowledgeTreeStage.endpoints_exist g.

Lemma expand_within_nodes (seen : gset jsstring) :
  seen ⊆ list_to_set (KnowledgeTreeStage.nodeIds g) →
  KnowledgeTreeStage.expand g seen ⊆ list_to_set (KnowledgeTreeStage.nodeIds g).
Proof.
  intros Hsub x [Hx|(s & _ & e & He & _ & <-)]%elem_of_expand; [by apply Hsub|].
  apply elem_of_list_to_set. by apply endpoints.
Qed.

Lemma search_within_nodes (rounds : nat) (seen : gset jsstring) :
  seen ⊆ list_to_set (KnowledgeTreeStage.nodeIds g) →
  KnowledgeTreeStage.search g rounds seen
    ⊆ list_to_set (KnowledgeTreeStage.nodeIds g).
Proof.
  revert seen. induction rounds as [|n IH]; intros seen Hsub; simpl; [done|].
  by apply IH, expand_within_nodes.
Qed.

(** Completeness: as many rounds as there are nodes find every id that
    can be reached from the ids the search starts with. *)
Lemma search_complete (start : gset jsstring) (s x : jsstring) :
  start ⊆ list_to_set (KnowledgeTreeStage.nodeIds g) →
  s ∈ start →
  KnowledgeTreeStage.reachable g s x →
  x ∈ KnowledgeTreeStage.search g (length (Api.nodes g)) start.
Proof.
  intros Hstart Hs Hreach.
  set (found := KnowledgeTreeStage.search g (length (Api.nodes g)) start).
  assert (s ∈ found) as Hfound by (by apply search_grows).
  assert (found ⊆ list_to_set (KnowledgeTreeStage.nodeIds g)) as Hwithin
    by (by apply search_within_nodes).
  destruct (search_progress (length (Api.nodes g)) start) as [Hclosed|Hsize].
  - by eapply closed_holds_reachable.
  - exfalso. fold found in Hsize.
    assert (0 < size start)%nat as Hpos.
    { destruct (decide (size start = 0%nat)) as [Hz|]; [|lia].
      apply size_empty_inv in Hz. exfalso.
      apply (not_elem_of_empty (C:=gset jsstring) s). by apply Hz. }
    apply subseteq_size in Hwithin.
    pose proof (size_list_to_set_le (KnowledgeTreeStage.nodeIds g)) as Hle.
    unfold KnowledgeTreeStage.nodeIds in Hle at 2.
    rewrite length_fmap in Hle. lia.
Qed.

(** A path of at least one edge is a path followed by an edge. *)
Lemma reachable_via_edges_last (a b : jsstring) :
  KnowledgeTreeStage.reachable_via_edges g a b ↔
  ∃ s, KnowledgeTreeStage.reachable g a s ∧ KnowledgeTreeStage.edge_between g s b.
Proof.
  unfold KnowledgeTreeStage.reachable_via_edges, KnowledgeTreeStage.reachable.
  split.
  - intros Htc. induction Htc as [a b Hedge|a y b Hedge _ (s & Hreach & Hlast)].
    + exists a. split; [apply rtc_refl|done].
    + exists s. split; [by eapply rtc_l|done].
  - intros (s & Hreach & Hlast). eapply tc_rtc_l; [exact Hreach|by apply tc_once].
Qed.

End GraphSearch.

Section GraphValidation.

Variable g : Api.KnowledgeGraphResponse.

Lemma check_variants_spec :
  KnowledgeTreeStage.check_variants g = true ↔
  ∀ n, n ∈ Api.nodes g → Api.node_type n ∈ KnowledgeTreeStage.variants.
Proof.
  unfold KnowledgeTreeStage.check_variants. rewrite forallb_forall.
  split; intros H n Hn.
  - apply list_elem_of_In in Hn. specialize (H n Hn).
    by rewrite bool_decide_eq_true in H.
  - apply bool_decide_eq_true_2, H. by apply list_elem_of_In.
Qed.

Lemma check_endpoints_spec :
  KnowledgeTreeStage.check_endpoints g = true ↔ KnowledgeTreeStage.endpoints_exist g.
Proof.
  unfold KnowledgeTreeStage.check_endpoints, KnowledgeTreeStage.endpoints_exist.
  rewrite forallb_forall. split; intros H e He.
  - apply list_elem_of_In in He. specialize (H e He).
    apply andb_true_iff in H as [Hs Ht].
    by rewrite !bool_decide_eq_true in Hs, Ht.
  - apply list_elem_of_In in He. destruct (H e He) as [Hs Ht].
    apply andb_true_iff. split; by apply bool_decide_eq_true_2.
Qed.

Lemma elem_of_roots (r : Api.GraphNode) :
  r ∈ KnowledgeTreeStage.roots g ↔
  r ∈ Api.nodes g ∧ KnowledgeTreeStage.isRoot r = true.
Proof.
  unfold KnowledgeTreeStage.roots.
  by rewrite !list_elem_of_In, filter_In.
Qed.

Lemma elem_of_root_ids (x : jsstring) :
  x ∈ (list_to_set (Api.node_id <$> KnowledgeTreeStage.roots g) : gset jsstring) ↔
  ∃ r, r ∈ Api.nodes g ∧ KnowledgeTreeStage.isRoot r = true ∧ Api.node_id r = x.
Proof.
  rewrite elem_of_list_to_set, list_elem_of_fmap. split.
  - intros (r & -> & [Hr Hroot]%elem_of_roots). by exists r.
  - intros (r & Hr & Hroot & <-). exists r. split; [done|].
    by apply elem_of_roots.
Qed.

Lemma check_connected_sound :
  KnowledgeTreeStage.check_connected g = true → KnowledgeTreeStage.connected g.
Proof.
  unfold KnowledgeTreeStage.check_connected, KnowledgeTreeStage.connected.
  rewrite forallb_forall. intros H n Hn Hnot.
  apply list_elem_of_In in Hn. specialize (H n Hn).
  rewrite Hnot in H. simpl in H. apply bool_decide_eq_true_1 in H.
  apply elem_of_successors in H as (s & Hs & Hedge).
  destruct (search_sound g _ _ _ Hs) as (x & Hx & Hreach).
  apply elem_of_root_ids in Hx as (r & Hr & Hroot & <-).
  exists r. split; [done|]. split; [done|].
  apply reachable_via_edges_last. by exists s.
Qed.

Lemma check_connected_complete :
  KnowledgeTreeStage.endpoints_exist g →
  KnowledgeTreeStage.connected g →
  KnowledgeTreeStage.check_connected g = true.
Proof.
  intros Hend Hconn. unfold KnowledgeTreeStage.check_connected.
  apply forallb_forall. intros n Hn.
  destruct (KnowledgeTreeStage.isRoot n) eqn:Hnot; [done|]. simpl.
  apply bool_decide_eq_true_2.
  apply list_elem_of_In in Hn.
  destruct (Hconn n Hn Hnot) as (r & Hr & Hroot & Hreach).
  apply reachable_via_edges_last in Hreach as (s & Hreach & Hedge).
  apply elem_of_successors. exists s. split; [|done].
  apply (search_complete g Hend _ (Api.node_id r)); [| |done].
  - intros x (r' & Hr' & _ & <-)%elem_of_root_ids.
    apply elem_of_list_to_set, list_elem_of_fmap. by exists r'.
  - apply elem_of_root_ids. by exists r.
Qed.

Lemma check_levels_spec :
  KnowledgeTreeStage.check_levels g = true ↔ KnowledgeTreeStage.edge_levels g.
Proof.
  unfold KnowledgeTreeStage.check_levels, KnowledgeTreeStage.edge_levels,
    KnowledgeTreeStage.edge_between.
  rewrite forallb_forall. split.
  - intros H a b Ha Hb (e & He & Hs & Ht).
    apply list_elem_of_In in He, Ha, Hb.
    specialize (H e He). rewrite forallb_forall in H.
    specialize (H a Ha). rewrite forallb_forall in H.
    specialize (H b Hb).
    rewrite !bool_decide_eq_true_2 in H by done. simpl in H. lia.
  - intros H e He. apply forallb_forall. intros a Ha.
    apply forallb_forall. intros b Hb.
    apply list_elem_of_In in He, Ha, Hb.
    repeat case_bool_decide; simpl; try done.
    apply Z.leb_le. apply H; [done|done|]. by exists e.
Qed.

Lemma path_head_in_nodes (a : Api.GraphNode) (rest : list Api.GraphNode) :
  KnowledgeTreeStage.path g (a :: rest) → a ∈ Api.nodes g.
Proof. by inversion 1. Qed.

(** Levels never decrease along a path. *)
Lemma path_levels (p : list Api.GraphNode) :
  KnowledgeTreeStage.edge_levels g → KnowledgeTreeStage.path g p →
  KnowledgeTreeStage.levels_non_decreasing p.
Proof.
  intros Hlevels Hpath.
  induction Hpath as [n Hn|a b rest Ha Hedge Hpath IH];
    intros i j x y Hij Hi Hj.
  - destruct i, j; simpl in *; try done. by simplify_eq.
  - destruct i as [|i], j as [|j]; simpl in *; try lia.
    + by simplify_eq.
    + simplify_eq.
      trans (Api.node_level b).
      * apply Hlevels; [done|by eapply path_head_in_nodes|done].
      * apply (IH 0%nat j b y); [lia|done|done].
    + apply (IH i j x y); [lia|done|done].
Qed.

Lemma validate_spec :
  KnowledgeTreeStage.validate g = true ↔ KnowledgeTreeStage.well_formed g.
Proof.
  unfold KnowledgeTreeStage.validate, KnowledgeTreeStage.well_formed.
  rewrite !andb_true_iff, check_variants_spec, check_endpoints_spec,
    check_levels_spec.
  split.
  - intros [[[Hv He] Hc] Hl]. split_and!; try done.
    by apply check_connected_sound.
  - intros (Hv & He & Hc & Hl). split_and!; try done.
    by apply check_connected_complete.
Qed.

(** With one root, it is the root every other node is reached from. *)
Lemma connected_unique_root (r n : Api.GraphNode) :
  KnowledgeTreeStage.connected g →
  KnowledgeTreeStage.unique_root g r →
  n ∈ Api.nodes g → KnowledgeTreeStage.isRoot n = false →
  KnowledgeTreeStage.reachable_via_edges g (Api.node_id r) (Api.node_id n).
Proof.
  intros Hconn Hunique Hn Hnot.
  destruct (Hconn n Hn Hnot) as (r' & Hr' & Hroot & Hreach).
  assert (r' ∈ KnowledgeTreeStage.roots g) as Hin by (by apply elem_of_roots).
  rewrite Hunique in Hin. apply list_elem_of_singleton in Hin. by subst r'.
Qed.

End GraphValidation.

(** The stage hands on exactly the replies that are well formed. *)
Lemma knowledge_tree_stage_spec
    (complete : jsstring → KnowledgeTreeStage.StageError + Api.KnowledgeGraphResponse)
    (text : jsstring) (g : Api.KnowledgeGraphResponse) :
  KnowledgeTreeStage.knowledge_tree_stage complete text = inr g ↔
  complete text = inr g ∧ KnowledgeTreeStage.well_formed g.
Proof.
  unfold KnowledgeTreeStage.knowledge_tree_stage.
  destruct (complete text) as [err|g'].
  - split; [done|]. by intros [[=] _].
  - destruct (KnowledgeTreeStage.validate g') eqn:Hv.
    + split.
      * intros [= ->]. split; [done|by apply validate_spec].
      * by intros [[= ->] _].
    + split; [done|]. intros [[= ->] Hwf%validate_spec]. congruence.
Qed.



Lemma sample_disconnected_is_not_connected :
  ¬ KnowledgeTreeStage.connected sample_disconnected.
Proof.
  intros Hconn.
  assert (KnowledgeTreeStage.validate sample_disconnected = true) as Hv;
    [|vm_compute in Hv; discriminate].
  apply validate_spec. split_and!.
  - by apply check_variants_spec.
  - by apply check_endpoints_spec.
  - exact Hconn.
  - by apply check_levels_spec.
Qed.

(** A leaf that shares its id with the root is not thereby reached: with
    no edge leading to it the reply is refused. *)
Lemma shared_id_is_not_connected :
  KnowledgeTreeStage.knowledge_tree_stage (λ _, inr sample_shared_id) []
  = inl KnowledgeTreeStage.MalformedResponse.
Proof. by vm_compute. Qed.


(** * Further properties of the components *)

(** ** file-upload.tsx: selection *)

Lemma handleFileSelect_accepts (f : FileUpload.File) (prev : FileUpload.UploadState) :
  FileUploadComponent.accepted f →
  FileUpload.handleFileSelect f prev
  = {| FileUpload.file := Some f;
       FileUpload.uploading := FileUpload.uploading prev;
       FileUpload.progress := FileUpload.progress prev;
       FileUpload.error := None;
       FileUpload.success := false |}.
Proof.
  intros [Htype Hsize]. unfold FileUpload.handleFileSelect, JS.includes.
  rewrite bool_decide_eq_true_2 by done. simpl.
  by rewrite bool_decide_eq_false_2 by lia.
Qed.

Lemma handleFileSelect_refuses (f : FileUpload.File) (prev : FileUpload.UploadState) :
  ¬ FileUploadComponent.accepted f →
  ∃ message,
    FileUpload.handleFileSelect f prev
    = {| FileUpload.file := None;
         FileUpload.uploading := FileUpload.uploading prev;
         FileUpload.progress := FileUpload.progress prev;
         FileUpload.error := Some message;
         FileUpload.success := FileUpload.success prev |}
    ∧ message ≠ [].
Proof.
  intros Hno. unfold FileUpload.handleFileSelect, JS.includes.
  case_bool_decide as Htype; simpl.
  - case_bool_decide as Hsize.
    + by eexists.
    + destruct Hno. split; [done|lia].
  - by eexists.
Qed.

Lemma handleFileSelect_file (f : FileUpload.File) (prev : FileUpload.UploadState) (g : FileUpload.File) :
  FileUpload.file (FileUpload.handleFileSelect f prev) = Some g →
  g = f ∧ FileUploadComponent.accepted f
  ∧ FileUpload.error (FileUpload.handleFileSelect f prev) = None
  ∧ FileUpload.success (FileUpload.handleFileSelect f prev) = false.
Proof.
  unfold FileUpload.handleFileSelect, JS.includes, FileUploadComponent.accepted.
  repeat case_bool_decide; simpl; try done.
  intros [= ->]. repeat split; first [done|lia].
Qed.

(** ** file-upload.tsx: the component *)

Section UploadComponent.

Import FileUploadComponent.


Lemma upload_consistent_mount : consistent mount.
Proof.
  unfold consistent, mount. simpl.
  destruct_and?; split_and!; first [done|lia|idtac]. 
Qed.

Lemma upload_consistent_dispatch c ev : consistent c → consistent (dispatch c ev).
Proof.
  intros Hc. unfold dispatch.
  destruct (offered c ev) eqn:Hoff; simpl; [|done].
  destruct c as [[file uploading progress error success] inflight n touts ups fails comp].
  unfold consistent in *. simpl in *.
  destruct Hc as (Hfl & Hacc & Hups & Hsucc & Hprog & Herr & Hint).
  unfold offered, render in Hoff.
  destruct ev as [files| | | |o|]; simpl in *.
  - (* SelectFiles *)
    destruct file; [discriminate Hoff|].
    destruct success; [by destruct Hsucc as [[? [=]] _]|].
    destruct inflight as [|call [|]]; [|by destruct Hfl as (_ & _ & ? & [=] & _)|done].
    subst uploading. destruct files as [|f rest]; simpl.
    { destruct_and?. split_and!; first [done|lia]. }
    destruct (decide (FileUpload.type f ∈ FileUpload.allowedTypes
                      ∧ FileUpload.size f ≤ 50 * 1024 * 1024)) as [Hf|Hf].
    + rewrite (handleFileSelect_accepts f _ Hf). simpl.
      destruct_and?; split_and!; first [done|lia|idtac].
      by intros ? [= <-].
    + destruct (handleFileSelect_refuses f
                  {| FileUpload.file := None; FileUpload.uploading := false;
                     FileUpload.progress := progress; FileUpload.error := error;
                     FileUpload.success := false |} Hf) as (m & -> & _).
      simpl. destruct_and?; split_and!; first [done|lia|idtac].
  - (* ClickUpload *)
    destruct file as [f|]; [|discriminate Hoff]. simpl in *.
    destruct uploading, success; simpl in Hoff; try discriminate Hoff.
    destruct inflight as [|call [|]]; [|by destruct Hfl|done].
    unfold handleUpload. simpl.
    destruct_and?; split_and!; first [done|lia|idtac].
    + by exists f.
    + apply Forall_app. split; [done|]. apply Forall_singleton. by apply Hacc.
    + simpl in *. lia.
  - (* ClickRemove *)
    destruct file as [f|]; [|discriminate Hoff]. simpl in *.
    destruct uploading, success; simpl in Hoff; try discriminate Hoff.
    destruct inflight as [|call [|]]; [|by destruct Hfl|done].
    destruct_and?; split_and!; first [done|lia|idtac].
  - (* IntervalFires *)
    destruct_and?; split_and!; first [done|lia|idtac].
  - (* UploadSettles *)
    unfold handleUpload_settled. simpl.
    destruct inflight as [|call [|]]; [discriminate Hoff| |done].
    destruct Hfl as (-> & -> & f & -> & ->). destruct Hsucc as [-> ->].
    destruct o; simpl.
    + destruct_and?; split_and!; first [done|lia|idtac].
      simpl in *. lia.
    + destruct_and?; split_and!; first [done|lia|idtac].
      * intros ? m _ [= <-]. apply elem_of_app. right. apply list_elem_of_here.
      * simpl in *. rewrite length_app. simpl. lia.
    + destruct_and?; split_and!; first [done|lia|idtac].
      * intros ? m _ [= <-]. apply elem_of_app. right. apply list_elem_of_here.
      * simpl in *. rewrite length_app. simpl. lia.
  - (* TimeoutFires *)
    destruct touts as [|result rest]; [discriminate Hoff|].
    destruct success; [|by destruct Hsucc].
    destruct Hsucc as [Hfile Hlen]. simpl.
    destruct_and?; split_and!; first [done|lia|idtac].
    rewrite !length_app in *. simpl in *. lia.
Qed.

Lemma upload_consistent_run evs : consistent (run evs).
Proof.
  unfold run. induction evs as [|ev evs IH] using rev_ind.
  - apply upload_consistent_mount.
  - rewrite foldl_app. simpl. by apply upload_consistent_dispatch.
Qed.

Lemma upload_run_snoc evs ev : run (evs ++ [ev]) = dispatch (run evs) ev.
Proof. unfold run. by rewrite foldl_app. Qed.

(** X2. At most one upload is in flight, and it is in flight exactly while
    the state says [uploading]; the file being uploaded is the file on
    display, and it passed the checks of [handleFileSelect]. *)
Theorem upload_one_request_at_a_time (evs : list Event) :
  let c := run evs in
  (length (inFlight c) ≤ 1)%nat
  ∧ (FileUpload.uploading (state c) = true ↔ inFlight c ≠ [])
  ∧ (∀ call, call ∈ inFlight c →
       ∃ f, FileUpload.file (state c) = Some f
            ∧ call = ApiUpload.uploadDocument f
            ∧ accepted f).
Proof.
  simpl. destruct (upload_consistent_run evs) as (Hfl & Hacc & _).
  destruct (inFlight (run evs)) as [|call [|]]; [| |done].
  - rewrite Hfl. split; [simpl; lia|]. split; [done|].
    intros call Hcall. by apply elem_of_nil in Hcall.
  - destruct Hfl as (-> & _ & f & Hfile & ->).
    split; [simpl; lia|]. split; [done|].
    intros call ->%list_elem_of_singleton. exists f. auto.
Qed.

(** X1. Whatever the user does, every file handed to [uploadDocument] has
    one of the three allowed MIME types and at most [50 * 1024 * 1024]
    bytes. *)
Theorem only_validated_files_are_uploaded (evs : list Event) (f : FileUpload.File) :
  f ∈ uploads (run evs) →
  FileUpload.type f ∈ FileUpload.allowedTypes
  ∧ FileUpload.size f ≤ 50 * 1024 * 1024.
Proof.
  intros Hf. destruct (upload_consistent_run evs) as (_ & _ & Hups & _).
  rewrite Forall_forall in Hups. by apply Hups.
Qed.

Lemma reported_were_returned evs r :
  r ∈ timeouts (run evs) ++ completed (run evs) → r ∈ returned evs.
Proof.
  revert r. induction evs as [|ev evs IH] using rev_ind; intros r.
  - simpl. by intros ?%elem_of_nil.
  - rewrite upload_run_snoc. unfold returned. rewrite omap_app.
    fold (returned evs). rewrite (elem_of_app (returned evs)).
    unfold dispatch. destruct (offered (run evs) ev); simpl; [|by left; apply IH].
    destruct ev as [files| | | |o|]; simpl; try (by left; apply IH).
    + unfold handleUpload.
      destruct (FileUpload.file (state (run evs))); simpl; by left; apply IH.
    + unfold handleUpload_settled.
      destruct (inFlight (run evs)); [by left; apply IH|].
      destruct o; simpl; try (by left; apply IH).
      rewrite <- (assoc_L (++)), elem_of_app, (elem_of_app [result]).
      intros [Hr|[Hr|Hr]].
      * left. apply IH. apply elem_of_app. by left.
      * right. apply list_elem_of_singleton in Hr as ->. apply list_elem_of_here.
      * left. apply IH. apply elem_of_app. by right.
    + destruct (timeouts (run evs)) as [|result rest] eqn:Ht; simpl.
      * intros Hr. left. apply IH. by rewrite Ht in Hr.
      * intros Hr. left. apply IH.
        rewrite !elem_of_app, list_elem_of_singleton in Hr.
        rewrite elem_of_app, elem_of_cons.
        destruct Hr as [Hr|[Hr|Hr]]; auto.
Qed.

(** X3. A mounted upload component calls [onUploadComplete] at most once,
    only with a document the server returned, and only after the upload
    has been marked successful. *)
Theorem at_most_one_document_reported (evs : list Event) :
  let c := run evs in
  (length (completed c) ≤ 1)%nat
  ∧ ∀ r, r ∈ completed c →
      r ∈ returned evs
      ∧ FileUpload.success (state c) = true
      ∧ FileUpload.uploading (state c) = false.
Proof.
  simpl. destruct (upload_consistent_run evs) as (Hfl & _ & _ & Hsucc & _).
  destruct (FileUpload.success (state (run evs))) eqn:Hs.
  - destruct Hsucc as [_ Hlen]. rewrite length_app in Hlen.
    split; [lia|]. intros r Hr. split.
    + apply reported_were_returned, elem_of_app. by right.
    + split; [done|].
      destruct (inFlight (run evs)) as [|? [|]]; [done| |done].
      by destruct Hfl as (_ & ? & _).
  - destruct Hsucc as [_ ->]. split; [simpl; lia|].
    intros r Hr. by apply elem_of_nil in Hr.
Qed.

(** X4. The error panel is part of the file card, and a refused selection
    removes the file: a message shown in the error panel is always the
    message of a failed upload, and after a refused selection the screen is
    the drop zone, although the state holds the refusal message. *)
Theorem validation_messages_are_not_displayed (evs : list Event) :
  (∀ card message,
     render (state (run evs)) = FileCard card →
     errorPanel card = Some message →
     message ∈ failures (run evs))
  ∧ (∀ f prev,
       ¬ accepted f →
       is_Some (FileUpload.error (FileUpload.handleFileSelect f prev))
       ∧ render (FileUpload.handleFileSelect f prev) = DropZone).
Proof.
  split.
  - intros card message. unfold render, errorShown.
    destruct (upload_consistent_run evs) as (_ & _ & _ & _ & _ & Herr & _).
    destruct (FileUpload.file (state (run evs))) as [f|] eqn:Hfile; [|done].
    intros [= <-]. simpl.
    destruct (FileUpload.error (state (run evs))) as [m|] eqn:Hm; [|done].
    destruct (JS.truthy m); [|done]. intros [= <-]. by eapply Herr.
  - intros f prev Hno.
    destruct (handleFileSelect_refuses f prev Hno) as (m & -> & _).
    split; [by eexists|done].
Qed.

(** X5. The [catch] block of [handleUpload] does not clear the progress
    interval: the number of armed intervals is the number of failed uploads
    so far, plus one while an upload is running. *)
Theorem failed_upload_keeps_its_interval (evs : list Event) :
  let c := run evs in
  intervals c
  = (length (failures c)
     + (if FileUpload.uploading (state c) then 1 else 0))%nat.
Proof.
  simpl. destruct (upload_consistent_run evs) as (Hfl & _ & _ & _ & _ & _ & ->).
  destruct (inFlight (run evs)) as [|? [|]]; [| |done].
  - by rewrite Hfl.
  - by destruct Hfl as (-> & _).
Qed.

Lemma success_dispatch c ev :
  consistent c → FileUpload.success (state c) = true →
  FileUpload.success (state (dispatch c ev)) = true
  ∧ FileUpload.file (state (dispatch c ev)) = FileUpload.file (state c)
  ∧ uploads (dispatch c ev) = uploads c.
Proof.
  intros (Hfl & _ & _ & Hsucc & _) Hs. rewrite Hs in Hsucc.
  destruct Hsucc as [[f Hfile] _].
  unfold dispatch. destruct (offered c ev) eqn:Hoff; simpl; [|done].
  unfold offered, render in Hoff. rewrite Hfile, Hs in Hoff.
  destruct ev as [files| | | |o|]; simpl in *.
  - discriminate Hoff.
  - by rewrite andb_false_r in Hoff.
  - by rewrite andb_false_r in Hoff.
  - done.
  - destruct (inFlight c) as [|? [|]]; [discriminate Hoff| |done].
    destruct Hfl as (_ & ? & _). congruence.
  - by destruct (timeouts c).
Qed.

(** X6. After a successful upload nothing the screen offers changes the
    file or the success flag, and no further upload is started. *)
Theorem success_is_final (evs later : list Event) :
  FileUpload.success (state (run evs)) = true →
  FileUpload.success (state (run (evs ++ later))) = true
  ∧ FileUpload.file (state (run (evs ++ later))) = FileUpload.file (state (run evs))
  ∧ uploads (run (evs ++ later)) = uploads (run evs).
Proof.
  intros Hs. induction later as [|ev later IH] using rev_ind.
  - by rewrite app_nil_r.
  - rewrite (assoc_L (++)), upload_run_snoc. destruct IH as (IHs & IHf & IHu).
    destruct (success_dispatch (run (evs ++ later)) ev (upload_consistent_run _) IHs)
      as (-> & -> & ->).
    done.
Qed.

(** X7. The file and the error after a selection depend on the selected
    file only, not on the state before; selecting the same file twice is
    the same as selecting it once. *)
Theorem selection_depends_on_selected_file
    (f : FileUpload.File) (prev prev' : FileUpload.UploadState) :
  FileUpload.file (FileUpload.handleFileSelect f prev)
  = FileUpload.file (FileUpload.handleFileSelect f prev')
  ∧ FileUpload.error (FileUpload.handleFileSelect f prev)
    = FileUpload.error (FileUpload.handleFileSelect f prev')
  ∧ FileUpload.handleFileSelect f (FileUpload.handleFileSelect f prev)
    = FileUpload.handleFileSelect f prev.
Proof.
  unfold FileUpload.handleFileSelect.
  destruct (negb _); [done|]. by destruct (bool_decide _).
Qed.

End UploadComponent.

(** ** tutor-chat.tsx: the conversation *)

Section Chat.

Import TutorChatComponent.

Variable context : option jsstring.

Lemma pattern_question (n : nat) :
  pattern n false ++ [TutorChat.user] = pattern n true.
Proof. unfold pattern. simpl. by rewrite app_nil_r. Qed.

Lemma pattern_reply (n : nat) :
  pattern n true ++ [TutorChat.tutor] = pattern (S n) false.
Proof.
  unfold pattern. simpl. rewrite app_nil_r. f_equal.
  rewrite <- (assoc_L (++)). simpl.
  induction n as [|n IH]; simpl; [done|]. by rewrite IH.
Qed.

Lemma pattern_length (n : nat) (loading : bool) :
  length (pattern n loading) = (1 + 2 * n + (if loading then 1 else 0))%nat.
Proof.
  unfold pattern. simpl. rewrite length_app. f_equal.
  assert (length (mjoin (replicate n [TutorChat.user; TutorChat.tutor])) = (2 * n)%nat) as ->.
  { induction n as [|n IH]; simpl; [done|]. rewrite IH. lia. }
  by destruct loading.
Qed.

Lemma chat_consistent_mount clock : consistent context (mount clock).
Proof.
  split; [by exists 0%nat|]. split; done.
Qed.

Lemma chat_consistent_send clock c :
  consistent context c → consistent context (send context clock c).
Proof.
  destruct c as [[messages input loading] pend snt].
  intros ([n Hn] & Hp & Hs). simpl in *.
  unfold send, TutorChat.handleSendMessage. simpl.
  destruct (negb (JS.truthy (JS.trim input)) || loading) eqn:Hguard; simpl.
  - rewrite !app_nil_r. split; [by exists n|]. split; done.
  - apply orb_false_iff in Hguard as [_ ->]. subst pend.
    split; [|split]; cbn [state TutorChat.messages TutorChat.isLoading pending sent].
    + exists n. rewrite fmap_app. cbn [fmap list_fmap TutorChat.type].
      rewrite Hn. apply pattern_question.
    + by eexists.
    + unfold questions in *. cbn [state TutorChat.messages] in *.
      rewrite List.filter_app, !fmap_app. simpl. by rewrite Hs.
Qed.

Lemma chat_consistent_dispatch c ev :
  consistent context c → consistent context (dispatch context c ev).
Proof.
  intros Hc. unfold dispatch.
  destruct (offered c ev) eqn:Hoff; simpl; [|done].
  destruct ev as [value|key shift clock|clock|outcome clock].
  - destruct c as [[messages input loading] pend snt]. exact Hc.
  - unfold handleKeyPress.
    destruct (bool_decide _ && negb shift); [by apply chat_consistent_send|done].
  - by apply chat_consistent_send.
  - destruct c as [[messages input loading] pend snt].
    destruct Hc as ([n Hn] & Hp & Hs). simpl in *.
    destruct loading; [|subst pend; discriminate Hoff].
    destruct Hp as [request ->]. simpl.
    split; [|split]; cbn [state TutorChat.messages TutorChat.isLoading pending sent
                            TutorChat.handleSendMessage_settled].
    + exists (S n). rewrite fmap_app.
      destruct outcome; cbn [fmap list_fmap TutorChat.type];
        rewrite Hn; apply pattern_reply.
    + done.
    + unfold questions in *.
      cbn [state TutorChat.messages TutorChat.handleSendMessage_settled] in *.
      rewrite List.filter_app. destruct outcome; simpl; by rewrite app_nil_r.
Qed.

Lemma chat_consistent_run clock evs : consistent context (run context clock evs).
Proof.
  unfold run. induction evs as [|ev evs IH] using rev_ind.
  - apply chat_consistent_mount.
  - rewrite foldl_app. simpl. by apply chat_consistent_dispatch.
Qed.

(** X8. In every run of the chat the transcript is the greeting followed by
    question and reply in turn, ending with an open question exactly while
    a request is in flight; at most one request is in flight, and the
    number of messages is [1 + 2 * exchanges] plus the open question. *)
Theorem conversation_alternates (clock : TutorChat.Clock) (evs : list Event) :
  let c := run context clock evs in
  ∃ exchanges : nat,
    TutorChat.type <$> TutorChat.messages (state c)
    = pattern exchanges (TutorChat.isLoading (state c))
    ∧ length (TutorChat.messages (state c))
      = (1 + 2 * exchanges + length (pending c))%nat
    ∧ (length (pending c) ≤ 1)%nat
    ∧ (TutorChat.isLoading (state c) = true ↔ pending c ≠ []).
Proof.
  simpl. destruct (chat_consistent_run clock evs) as ([n Hn] & Hp & _).
  exists n. split; [done|].
  apply (f_equal length) in Hn. rewrite length_fmap, pattern_length in Hn.
  destruct (TutorChat.isLoading _).
  - destruct Hp as [request ->]. simpl. split; [lia|]. split; [lia|done].
  - rewrite Hp. simpl. split; [lia|]. split; [lia|done].
Qed.


Lemma dispatch_messages_prefix c ev :
  TutorChat.messages (state c)
    `prefix_of` TutorChat.messages (state (dispatch context c ev)).
Proof.
  unfold dispatch. destruct (offered c ev); simpl; [|done].
  assert (∀ clock, TutorChat.messages (state c)
            `prefix_of` TutorChat.messages (state (send context clock c))) as Hsend.
  { intros clock. unfold send, TutorChat.handleSendMessage.
    destruct (negb _ || _); simpl; [done|]. by apply prefix_app_r. }
  destruct ev as [value|key shift clock|clock|outcome clock]; simpl.
  - done.
  - unfold handleKeyPress. by destruct (bool_decide _ && negb shift).
  - done.
  - by apply prefix_app_r.
Qed.

(** X10. The transcript only grows: what has been displayed stays, in
    place, whatever happens later. *)
Theorem transcript_only_grows (clock : TutorChat.Clock) (evs later : list Event) :
  TutorChat.messages (state (run context clock evs))
    `prefix_of` TutorChat.messages (state (run context clock (evs ++ later))).
Proof.
  unfold run. rewrite foldl_app.
  generalize (foldl (dispatch context) (mount clock) evs). intros c.
  induction later as [|ev later IH] using rev_ind; [done|].
  rewrite foldl_app. simpl. etrans; [exact IH|apply dispatch_messages_prefix].
Qed.

End Chat.

(** ** knowledge-tree.tsx: the node statistics *)


Lemma nodeStats_fold (acc : KnowledgeTreeStats.Stats) (nodes : list Api.GraphNode) :
  foldl KnowledgeTreeStats.count acc nodes
  = {| KnowledgeTreeStats.total := KnowledgeTreeStats.total acc;
       KnowledgeTreeStats.root :=
         KnowledgeTreeStats.root acc + KnowledgeTreeStats.typed "root" nodes;
       KnowledgeTreeStats.branch :=
         KnowledgeTreeStats.branch acc + KnowledgeTreeStats.typed "branch" nodes;
       KnowledgeTreeStats.leaf :=
         KnowledgeTreeStats.leaf acc + KnowledgeTreeStats.typed "leaf" nodes |}.
Proof.
  revert acc. induction nodes as [|n nodes IH]; intros acc.
  - destruct acc. unfold KnowledgeTreeStats.typed. simpl. f_equal; lia.
  - simpl. rewrite IH. unfold KnowledgeTreeStats.count, KnowledgeTreeStats.typed.
    simpl. repeat case_bool_decide; simpl; try clash_of_literals; f_equal; lia.
Qed.

Lemma typed_partition (nodes : list Api.GraphNode) :
  KnowledgeTreeStats.typed "root" nodes + KnowledgeTreeStats.typed "branch" nodes
  + KnowledgeTreeStats.typed "leaf" nodes + KnowledgeTreeStats.untyped nodes
  = Z.of_nat (length nodes).
Proof.
  unfold KnowledgeTreeStats.typed, KnowledgeTreeStats.untyped,
    KnowledgeTreeStage.variants.
  induction nodes as [|n nodes IH]; [done|].
  cbn [List.filter].
  repeat case_bool_decide; cbn [negb length];
    repeat match goal with
           | H : context [_ ∈ _ :: _] |- _ =>
               rewrite !elem_of_cons, elem_of_nil in H
           end;
    try clash_of_literals; try lia; exfalso; tauto.
Qed.

Lemma typed_content (t : string) (l1 l2 : list Api.GraphNode) :
  (KnowledgeTree.nodeContent <$> l1) `sublist_of` (KnowledgeTree.nodeContent <$> l2) →
  KnowledgeTreeStats.typed t l1 ≤ KnowledgeTreeStats.typed t l2.
Proof.
  unfold KnowledgeTreeStats.typed.
  revert l1. induction l2 as [|x l2 IH]; intros l1 Hsub.
  - apply sublist_nil_r, fmap_nil_inv in Hsub. by subst l1.
  - rewrite fmap_cons in Hsub.
    apply sublist_cons_r in Hsub as [Hsub|(l' & Heq & Hsub)].
    + specialize (IH _ Hsub). cbn [List.filter].
      destruct (bool_decide _); cbn [length]; lia.
    + destruct l1 as [|y l1]; [discriminate Heq|].
      rewrite fmap_cons in Heq.
      pose proof (f_equal tail Heq) as Hrest. simpl in Hrest. subst l'.
      pose proof (f_equal (λ l, (λ c, c.1.1.1.2) <$> head l) Heq) as Htype.
      simpl in Htype. injection Htype as Htype.
      specialize (IH _ Hsub). cbn [List.filter]. rewrite Htype.
      destruct (bool_decide _); cbn [length]; lia.
Qed.

(** X11. The node statistics count the nodes that are rendered, by type:
    the total is their number, and the root, branch and leaf counters add
    up to the total less the nodes of any other type.  Node clicks, drawn
    connections and changes of edges leave the statistics as they are;
    the nodes the user deletes are no longer counted, so no counter is
    ever above the count for the graph the component was given. *)
Theorem nodeStats_counts_by_type
    (data : Api.KnowledgeGraphResponse) (actions : list KnowledgeTree.Interaction) :
  let st := foldl KnowledgeTree.interact (KnowledgeTree.mount data) actions in
  let rendered st := KnowledgeTree.graphNode <$> KnowledgeTree.nodes st in
  let stats := KnowledgeTreeStats.nodeStats (rendered st) in
  KnowledgeTreeStats.total stats = Z.of_nat (length (rendered st))
  ∧ KnowledgeTreeStats.root stats = KnowledgeTreeStats.typed "root" (rendered st)
  ∧ KnowledgeTreeStats.branch stats = KnowledgeTreeStats.typed "branch" (rendered st)
  ∧ KnowledgeTreeStats.leaf stats = KnowledgeTreeStats.typed "leaf" (rendered st)
  ∧ KnowledgeTreeStats.root stats + KnowledgeTreeStats.branch stats
    + KnowledgeTreeStats.leaf stats
    = KnowledgeTreeStats.total stats - KnowledgeTreeStats.untyped (rendered st)
  ∧ KnowledgeTreeStats.total stats ≤ Z.of_nat (length (Api.nodes data))
  ∧ KnowledgeTreeStats.root stats ≤ KnowledgeTreeStats.typed "root" (Api.nodes data)
  ∧ KnowledgeTreeStats.branch stats ≤ KnowledgeTreeStats.typed "branch" (Api.nodes data)
  ∧ KnowledgeTreeStats.leaf stats ≤ KnowledgeTreeStats.typed "leaf" (Api.nodes data)
  ∧ (∀ node, KnowledgeTreeStats.nodeStats
               (rendered (KnowledgeTree.interact st (KnowledgeTree.NodeClick node)))
             = stats)
  ∧ (∀ params, KnowledgeTreeStats.nodeStats
                 (rendered (KnowledgeTree.interact st (KnowledgeTree.Connect params)))
               = stats)
  ∧ (∀ changes, KnowledgeTreeStats.nodeStats
                  (rendered (KnowledgeTree.interact st (KnowledgeTree.EdgesChange changes)))
                = stats).
Proof.
  simpl.
  set (st := foldl KnowledgeTree.interact (KnowledgeTree.mount data) actions).
  assert ((KnowledgeTree.nodeContent <$> (KnowledgeTree.graphNode <$> KnowledgeTree.nodes st))
          `sublist_of` (KnowledgeTree.nodeContent <$> Api.nodes data)) as Hsub.
  { rewrite <- list_fmap_compose.
    apply interactions_content. }
  unfold KnowledgeTreeStats.nodeStats. rewrite nodeStats_fold. simpl.
  pose proof (typed_partition (KnowledgeTree.graphNode <$> KnowledgeTree.nodes st)).
  pose proof (typed_content "root" _ _ Hsub).
  pose proof (typed_content "branch" _ _ Hsub).
  pose proof (typed_content "leaf" _ _ Hsub).
  pose proof (sublist_length _ _ Hsub) as Hlen. rewrite !length_fmap in Hlen.
  rewrite !length_fmap in *.
  split_and!; try done; lia.
Qed.

(** ** dashboard.tsx: runs of the fan-out, and navigation *)

(** *** One run on its own *)

Lemma run_invariant_start doc prev :
  Dashboard.run_invariant doc prev (Dashboard.handleUploadComplete doc prev).
Proof. split; [done|]. simpl. repeat split; lia. Qed.

Lemma run_invariant_deliver doc prev r ev :
  Dashboard.run_invariant doc prev r → Dashboard.run_invariant doc prev (Dashboard.deliver r ev).
Proof.
  destruct r as [ui gp fp sp interval susp effs].
  unfold Dashboard.run_invariant, Dashboard.marked_complete. simpl. intros [Hpre Hinv].
  destruct ev as [|o|o|o]; simpl.
  - destruct interval; simpl; [|by split].
    unfold Dashboard.all_promise in *; simpl in *.
    destruct gp, fp, sp; close_run_invariant.
  - unfold Dashboard.resume, Dashboard.all_promise in *; simpl in *.
    destruct gp, fp, sp, o; close_run_invariant.
  - unfold Dashboard.resume, Dashboard.all_promise in *; simpl in *.
    destruct gp, fp, sp, o; close_run_invariant.
  - unfold Dashboard.resume, Dashboard.all_promise in *; simpl in *.
    destruct gp, fp, sp, o; close_run_invariant.
Qed.

Lemma run_invariant_execute doc prev evs :
  Dashboard.run_invariant doc prev (Dashboard.execute doc prev evs).
Proof.
  unfold Dashboard.execute.
  induction evs as [|ev evs IH] using rev_ind.
  - apply run_invariant_start.
  - rewrite foldl_app. simpl. by apply run_invariant_deliver.
Qed.

Lemma all_promise_fulfilled r :
  Dashboard.all_fulfilled r ↔
  ∃ g f s, Dashboard.all_promise r = Dashboard.Fulfilled (g, f, s).
Proof.
  unfold Dashboard.all_fulfilled, Dashboard.all_promise. split.
  - intros (g & f & s & -> & -> & ->). by exists g, f, s.
  - intros (g & f & s & H).
    destruct (Dashboard.graphPromise r), (Dashboard.flashcardsPromise r),
      (Dashboard.summaryPromise r); try discriminate.
    injection H as -> -> ->. by exists g, f, s.
Qed.

Lemma all_promise_rejected r :
  Dashboard.some_rejected r ↔ Dashboard.all_promise r = Dashboard.Rejected.
Proof.
  unfold Dashboard.some_rejected, Dashboard.all_promise.
  destruct (Dashboard.graphPromise r), (Dashboard.flashcardsPromise r),
    (Dashboard.summaryPromise r); intuition congruence.
Qed.

Lemma interval_invariant_start doc prev :
  DashboardRun.interval_invariant doc (Dashboard.handleUploadComplete doc prev).
Proof.
  split; [done|]. simpl. split; [done|].
  rewrite !elem_of_cons, elem_of_nil.
  intros H. repeat (destruct H as [H|H]; [discriminate H|]). done.
Qed.

Lemma interval_invariant_deliver doc prev r ev :
  Dashboard.run_invariant doc prev r →
  DashboardRun.interval_invariant doc r →
  DashboardRun.interval_invariant doc (Dashboard.deliver r ev).
Proof.
  destruct r as [ui gp fp sp interval susp effs].
  unfold DashboardRun.interval_invariant, Dashboard.run_invariant.
  simpl. intros [_ Hrun] [Hdoc Hinv].
  destruct ev as [|o|o|o]; simpl.
  - destruct interval; simpl; [|by split].
    unfold Dashboard.all_promise in *; simpl in *.
    destruct gp, fp, sp; close_interval_invariant.
  - unfold Dashboard.resume, Dashboard.all_promise in *; simpl in *.
    destruct gp, fp, sp, o; close_interval_invariant.
  - unfold Dashboard.resume, Dashboard.all_promise in *; simpl in *.
    destruct gp, fp, sp, o; close_interval_invariant.
  - unfold Dashboard.resume, Dashboard.all_promise in *; simpl in *.
    destruct gp, fp, sp, o; close_interval_invariant.
Qed.

Lemma interval_invariant_execute doc prev evs :
  DashboardRun.interval_invariant doc (Dashboard.execute doc prev evs).
Proof.
  unfold Dashboard.execute.
  induction evs as [|ev evs IH] using rev_ind.
  - apply interval_invariant_start.
  - rewrite foldl_app. simpl.
    apply (interval_invariant_deliver doc prev); [|done].
    apply (run_invariant_execute doc prev evs).
Qed.

(** X13. The progress interval of [handleUploadComplete] is cleared exactly
    when all three requests have been fulfilled.  After a failure it stays
    armed, and its next tick raises the progress again. *)
Theorem interval_cleared_only_on_success
    (doc : Api.DocumentUploadResponse) (prev : Dashboard.DashboardState)
    (evs : list Dashboard.Event) :
  let r := Dashboard.execute doc prev evs in
  (Dashboard.progressInterval r = false ↔ Dashboard.all_fulfilled r)
  ∧ (Dashboard.ClearInterval ∈ Dashboard.effects r ↔ Dashboard.all_fulfilled r)
  ∧ (Dashboard.some_rejected r →
       Dashboard.progressInterval (Dashboard.deliver r Dashboard.IntervalFires) = true
       ∧ Dashboard.generationProgress
           (Dashboard.ui (Dashboard.deliver r Dashboard.IntervalFires))
         = Z.min (Dashboard.generationProgress (Dashboard.ui r) + 10) 90).
Proof.
  simpl. destruct (interval_invariant_execute doc prev evs) as [_ Hinv].
  pose proof (all_promise_fulfilled (Dashboard.execute doc prev evs)) as Hall.
  pose proof (all_promise_rejected (Dashboard.execute doc prev evs)) as Hrej.
  destruct (Dashboard.all_promise (Dashboard.execute doc prev evs))
    as [|[[g f] s]|] eqn:Hp; destruct Hinv as [Hi Hc].
  - assert (¬ Dashboard.all_fulfilled (Dashboard.execute doc prev evs)) as Hnot.
    { rewrite Hall. by intros (? & ? & ? & ?). }
    split; [|split].
    + rewrite Hi. split; [done|]. by intros ?%Hnot.
    + split; [by intros ?%Hc|by intros ?%Hnot].
    + intros Hr%Hrej. discriminate Hr.
  - assert (Dashboard.all_fulfilled (Dashboard.execute doc prev evs)) as Hyes.
    { rewrite Hall. by exists g, f, s. }
    split; [done|]. split; [done|].
    intros Hr%Hrej. discriminate Hr.
  - assert (¬ Dashboard.all_fulfilled (Dashboard.execute doc prev evs)) as Hnot.
    { rewrite Hall. by intros (? & ? & ? & ?). }
    split; [|split].
    + rewrite Hi. split; [done|]. by intros ?%Hnot.
    + split; [by intros ?%Hc|by intros ?%Hnot].
    + intros _. unfold Dashboard.deliver. rewrite Hi. done.
Qed.

(** *** Runs in a session *)

(** X12. When the three requests of a run have been fulfilled, what the
    run has done is determined by the document, the three results and the
    number of interval ticks before the last result arrived: the order of
    the settlements leaves no trace in it.  The update it ends with sets
    the view, the three artifacts, [isGenerating] and the progress to the
    same values whatever the state was, and keeps the document cell. *)
Theorem outcome_does_not_depend_on_order
    (evs : list DashboardSession.Event) (r : DashboardSession.Run)
    (g : Api.KnowledgeGraphResponse) (f : Api.FlashcardResponse)
    (s : Api.SummaryResponse) :
  r ∈ DashboardSession.runs (DashboardSession.run evs) →
  DashboardSession.fulfilled r g f s →
  (∃ k, DashboardSession.effects r
        = DashboardSession.start (DashboardSession.document r)
          ++ DashboardSession.ticks k
          ++ [ DashboardSession.ClearInterval;
               DashboardSession.SetState (DashboardUI.Store g f s) ])
  ∧ ∀ st, DashboardUI.apply st (DashboardUI.Store g f s)
          = {| Dashboard.currentView := Dashboard.view_knowledge_tree;
               Dashboard.document := Dashboard.document st;
               Dashboard.knowledgeGraph := Some g;
               Dashboard.flashcards := Some f;
               Dashboard.summaries := Some s;
               Dashboard.isGenerating := false;
               Dashboard.generationProgress := 100 |}.
Proof.
  intros Hr Hf. split; [|done].
  destruct (session_run_effects r (session_run_of evs r Hr)) as (_ & Hdone & _).
  by destruct (Hdone g f s Hf) as (_ & _ & ?).
Qed.

Lemma deliver_while_pending (r : DashboardSession.Run) (ev : DashboardSession.RunEvent) :
  DashboardSession.run_invariant r →
  DashboardSession.allPromise (DashboardSession.deliver r ev).1
  = DashboardSession.Pending →
  DashboardSession.allPromise r = DashboardSession.Pending
  ∧ (DashboardSession.deliver r ev).2
    = match ev with
      | DashboardSession.IntervalFires => [DashboardUI.Tick]
      | _ => []
      end.
Proof.
  destruct r as [doc gp fp sp ap interval effs].
  unfold DashboardSession.run_invariant.
  destruct ev as [|o|o|o]; cbn.
  - destruct ap as [|[[g f] s]|reason]; cbn; [|by destruct interval..].
    by intros (-> & _) _.
  - destruct gp, fp, sp, ap as [|[[g' f'] s']|reason'], o;
      unfold DashboardSession.resume; cbn; done.
  - destruct gp, fp, sp, ap as [|[[g' f'] s']|reason'], o;
      unfold DashboardSession.resume; cbn; done.
  - destruct gp, fp, sp, ap as [|[[g' f'] s']|reason'], o;
      unfold DashboardSession.resume; cbn; done.
Qed.

Lemma intervalFired_snoc (i : nat) (evs : list DashboardSession.Event)
    (ev : DashboardSession.Event) :
  DashboardSession.intervalFired i (evs ++ [ev])
  = DashboardSession.intervalFired i evs
    + match ev with
      | DashboardSession.OfRun j DashboardSession.IntervalFires =>
          if bool_decide (j = i) then 1 else 0
      | _ => 0
      end.
Proof.
  unfold DashboardSession.intervalFired.
  rewrite List.filter_app, length_app. cbn [List.filter].
  destruct ev as [doc|j [|o|o|o]|view]; cbn; try lia.
  destruct (bool_decide (j = i)); cbn; lia.
Qed.

(** X14. In a session with one upload: while the handler waits, the
    progress is ten times the number of ticks of its interval, capped at
    90, generation is marked as running and the document is the uploaded
    one, whatever navigation buttons are clicked in between. *)
Theorem progress_while_waiting
    (doc : Api.DocumentUploadResponse) (rest : list DashboardSession.Event) :
  forallb (λ ev, negb (DashboardSession.isUpload ev)) rest = true →
  let d := DashboardSession.run (DashboardSession.UploadCompletes doc :: rest) in
  ∃ r, DashboardSession.runs d = [r]
       ∧ (DashboardSession.allPromise r = DashboardSession.Pending →
            Dashboard.generationProgress (DashboardSession.ui d)
            = Z.min (10 * DashboardSession.intervalFired 0 rest) 90
            ∧ Dashboard.isGenerating (DashboardSession.ui d) = true
            ∧ Dashboard.document (DashboardSession.ui d) = Some doc).
Proof.
  cbn zeta. intros Hrest.
  assert (∃ r, DashboardSession.runs
                 (DashboardSession.run (DashboardSession.UploadCompletes doc :: rest))
               = [r]
               ∧ DashboardSession.run_invariant r
               ∧ (DashboardSession.allPromise r = DashboardSession.Pending →
                    Dashboard.generationProgress
                      (DashboardSession.ui
                         (DashboardSession.run
                            (DashboardSession.UploadCompletes doc :: rest)))
                    = Z.min (10 * DashboardSession.intervalFired 0 rest) 90
                    ∧ Dashboard.isGenerating
                        (DashboardSession.ui
                           (DashboardSession.run
                              (DashboardSession.UploadCompletes doc :: rest)))
                      = true
                    ∧ Dashboard.document
                        (DashboardSession.ui
                           (DashboardSession.run
                              (DashboardSession.UploadCompletes doc :: rest)))
                      = Some doc)) as (r & Hruns & _ & Hwait).
  2: { by exists r. }
  unfold DashboardSession.run.
  induction rest as [|ev rest IH] using rev_ind.
  - eexists. split; [done|]. split; [apply session_run_start|]. by intros _.
  - rewrite forallb_app in Hrest. apply andb_true_iff in Hrest as [Hrest Hev].
    destruct (IH Hrest) as (r & Hruns & Hinv & Hwait). clear IH.
    rewrite app_comm_cons, foldl_app.
    set (d := foldl DashboardSession.dispatch DashboardSession.mount
                (DashboardSession.UploadCompletes doc :: rest)) in *.
    clearbody d. cbn [foldl]. rewrite intervalFired_snoc.
    destruct ev as [doc'|i ev|view]; [done| |].
    + cbn. rewrite Hruns. destruct i as [|i]; cbn.
      * exists (DashboardSession.deliver r ev).1. split; [done|].
        split; [by apply session_run_deliver|].
        intros Hp. destruct (deliver_while_pending r ev Hinv Hp) as [Hbefore ->].
        destruct (Hwait Hbefore) as (Hprog & Hgen & Hdoc).
        destruct ev; cbn; rewrite ?Hprog, ?bool_decide_eq_true_2 by done;
          split_and!; try done; lia.
      * replace (@nil DashboardSession.Run !! i) with (@None DashboardSession.Run)
          by (by destruct i).
        exists r. split; [done|]. split; [done|].
        intros Hp. destruct (Hwait Hp) as (Hprog & Hgen & Hdoc).
        split_and!; try done. rewrite Hprog.
        destruct ev; rewrite ?bool_decide_eq_false_2 by done; f_equal; lia.
    + cbn. exists r. split; [done|]. split; [done|].
      intros Hp. rewrite Z.add_0_r. destruct (Hwait Hp) as (Hprog & Hgen & Hdoc).
      unfold DashboardUI.apply.
      by destruct (DashboardUI.navEnabled _ _).
Qed.

(** *** Navigation *)

Lemma view_ready_apply s u :
  DashboardUI.view_ready s → DashboardUI.view_ready (DashboardUI.apply s u).
Proof.
  destruct s as [view doc kg fc sm gen prog].
  unfold DashboardUI.view_ready. destruct u as [d| |g f d| |v]; simpl; try done.
  - by destruct view.
  - unfold DashboardUI.navEnabled. simpl.
    destruct v; simpl; try done;
      repeat case_bool_decide; simpl; done.
Qed.

Lemma view_ready_reach us : DashboardUI.view_ready (DashboardUI.reach us).
Proof.
  unfold DashboardUI.reach.
  induction us as [|u us IH] using rev_ind; [done|].
  rewrite foldl_app. simpl. by apply view_ready_apply.
Qed.

(** X15. The dashboard never shows one of the "being generated"
    placeholders: whenever the knowledge tree, the summaries or the
    flashcards are the current view, their artifact is there; and the
    tutor view always gets the text of the document as its context. *)
Theorem placeholders_are_never_shown (us : list DashboardUI.Update) :
  match DashboardUI.renderMainContent (DashboardUI.reach us) with
  | DashboardUI.KnowledgeTreePlaceholder
  | DashboardUI.SummariesPlaceholder
  | DashboardUI.FlashcardsPlaceholder => False
  | DashboardUI.TutorChatView context =>
      ∃ doc, Dashboard.document (DashboardUI.reach us) = Some doc
             ∧ context = Some (Api.raw_text doc)
  | _ => True
  end.
Proof.
  pose proof (view_ready_reach us) as Hready.
  unfold DashboardUI.view_ready, DashboardUI.renderMainContent in *.
  destruct (Dashboard.currentView (DashboardUI.reach us)); try done.
  - by destruct Hready as [? ->].
  - by destruct Hready as [? ->].
  - by destruct Hready as [? ->].
  - destruct Hready as [doc ->]. by exists doc.
Qed.

Lemma present_apply s u :
  (is_Some (Dashboard.document s) → is_Some (Dashboard.document (DashboardUI.apply s u)))
  ∧ (is_Some (Dashboard.knowledgeGraph s) → is_Some (Dashboard.knowledgeGraph (DashboardUI.apply s u)))
  ∧ (is_Some (Dashboard.flashcards s) → is_Some (Dashboard.flashcards (DashboardUI.apply s u)))
  ∧ (is_Some (Dashboard.summaries s) → is_Some (Dashboard.summaries (DashboardUI.apply s u))).
Proof.
  destruct u as [d| |g f d| |v]; simpl; try done.
  - by destruct (DashboardUI.navEnabled s v).
Qed.

(** X16. Once the document or an artifact is in the state it is never
    removed again, also not by a later upload or a failed generation. *)
Theorem artifacts_are_never_cleared (us later : list DashboardUI.Update) :
  let before := DashboardUI.reach us in
  let after := DashboardUI.reach (us ++ later) in
  (is_Some (Dashboard.document before) → is_Some (Dashboard.document after))
  ∧ (is_Some (Dashboard.knowledgeGraph before) → is_Some (Dashboard.knowledgeGraph after))
  ∧ (is_Some (Dashboard.flashcards before) → is_Some (Dashboard.flashcards after))
  ∧ (is_Some (Dashboard.summaries before) → is_Some (Dashboard.summaries after)).
Proof.
  simpl. unfold DashboardUI.reach. rewrite foldl_app.
  generalize (foldl DashboardUI.apply Dashboard.initialState us). intros s.
  induction later as [|u later IH] using rev_ind; [done|].
  rewrite foldl_app. simpl.
  destruct IH as (IHd & IHg & IHf & IHs).
  destruct (present_apply (foldl DashboardUI.apply s later) u) as (Hd & Hg & Hf & Hs).
  split_and!; auto.
Qed.

Lemma execute_is_reachable (us : list DashboardUI.Update)
    (doc : Api.DocumentUploadResponse) (evs : list Dashboard.Event) :
  ∃ steps,
    Dashboard.ui (Dashboard.execute doc (DashboardUI.reach us) evs)
    = DashboardUI.reach (us ++ DashboardUI.Begin doc :: steps)
    ∧ forallb (λ u, negb (DashboardUI.isNavigate u)) steps = true.
Proof.
  unfold Dashboard.execute.
  induction evs as [|ev evs IH] using rev_ind.
  - exists []. split; [|done]. unfold DashboardUI.reach. by rewrite foldl_app.
  - destruct IH as (steps & Hui & Hnav). rewrite foldl_app. simpl.
    set (r := foldl Dashboard.deliver
                (Dashboard.handleUploadComplete doc (DashboardUI.reach us)) evs) in *.
    assert (Dashboard.ui (Dashboard.deliver r ev) = Dashboard.ui r
            ∨ ∃ u, DashboardUI.isNavigate u = false
                   ∧ Dashboard.ui (Dashboard.deliver r ev)
                     = DashboardUI.apply (Dashboard.ui r) u) as [Hsame|(u & Hu & Hstep)].
    { clearbody r. clear Hui. destruct r as [ui gp fp sp interval susp effs].
      destruct ev as [|o|o|o]; simpl.
      - destruct interval; [|by left]. right. by exists DashboardUI.Tick.
      - unfold Dashboard.resume, Dashboard.all_promise; simpl.
        destruct gp, fp, sp, o, susp; simpl;
          first [ by left
                | right; by exists DashboardUI.Fail
                | right; by eexists (DashboardUI.Store _ _ _) ].
      - unfold Dashboard.resume, Dashboard.all_promise; simpl.
        destruct gp, fp, sp, o, susp; simpl;
          first [ by left
                | right; by exists DashboardUI.Fail
                | right; by eexists (DashboardUI.Store _ _ _) ].
      - unfold Dashboard.resume, Dashboard.all_promise; simpl.
        destruct gp, fp, sp, o, susp; simpl;
          first [ by left
                | right; by exists DashboardUI.Fail
                | right; by eexists (DashboardUI.Store _ _ _) ]. }
    + exists steps. by rewrite Hsame.
    + exists (steps ++ [u]). split.
      * rewrite Hstep, Hui. unfold DashboardUI.reach.
        replace (us ++ DashboardUI.Begin doc :: steps ++ [u])
          with ((us ++ DashboardUI.Begin doc :: steps) ++ [u])
          by (by rewrite <- (assoc_L (++))).
        by rewrite (foldl_app _ (us ++ _)).
      * rewrite forallb_app, Hnav. simpl. by rewrite Hu.
Qed.

(** X17. Every request the tutor chat sends from the dashboard has two
    members: the question as typed, and the raw text of the current
    document as context. *)
Theorem dashboard_tutor_requests_carry_the_document
    (us : list DashboardUI.Update) (context : option jsstring)
    (clock : TutorChat.Clock) (st : TutorChat.State) (request : Api.ApiCall) :
  DashboardUI.renderMainContent (DashboardUI.reach us) = DashboardUI.TutorChatView context →
  (TutorChat.handleSendMessage context clock st).2 = Some request →
  ∃ doc, Dashboard.document (DashboardUI.reach us) = Some doc
         ∧ Api.body request
           = [ (JS.lit "question", Api.JString (TutorChat.inputValue st));
               (JS.lit "context", Api.JString (Api.raw_text doc)) ].
Proof.
  intros Hview Hsend.
  pose proof (placeholders_are_never_shown us) as Hshown.
  rewrite Hview in Hshown. destruct Hshown as (doc & Hdoc & ->).
  exists doc. split; [done|].
  unfold TutorChat.handleSendMessage in Hsend.
  destruct (negb _ || _); simpl in Hsend; [done|].
  injection Hsend as <-. apply askTutor_body.
Qed.

(** ** flashcards.tsx: what every run keeps *)

Section FlashcardRuns.

Variable data : Api.FlashcardResponse.

Lemma currentCard_in_deck (s : Flashcards.FlashcardState) (card : Api.Flashcard) :
  Flashcards.currentCard data s = Some card →
  card ∈ Flashcards.filteredCards data s ∧ card ∈ Api.flashcards data.
Proof.
  unfold Flashcards.currentCard, Flashcards.index.
  case_bool_decide; [|done]. intros Hcard%list_elem_of_lookup_2.
  split; [done|].
  apply list_elem_of_In in Hcard. unfold Flashcards.filteredCards in Hcard.
  apply filter_In in Hcard as [Hcard _]. by apply list_elem_of_In.
Qed.

Lemma size_add_one (studied : gset jsstring) (id : jsstring) :
  (size (studied ∪ {[ id ]}) ≤ size studied + 1)%nat.
Proof.
  rewrite size_union_alt.
  assert (size ({[ id ]} ∖ studied : gset jsstring) ≤ size ({[ id ]} : gset jsstring))%nat
    by (apply subseteq_size; intros y [Hy _]%elem_of_difference; exact Hy).
  rewrite size_singleton in *. lia.
Qed.

Lemma sound_mark (s : Flashcards.FlashcardState) (card : Api.Flashcard) :
  FlashcardsRun.sound data s →
  Flashcards.currentCard data s = Some card →
  FlashcardsRun.sound data (Flashcards.handleCorrect card s)
  ∧ FlashcardsRun.sound data (Flashcards.handleIncorrect card s).
Proof.
  intros (Hflip & Hidx & Hc & Hi & Hsub & Hsize) [_ Hcard]%currentCard_in_deck.
  assert (Api.card_id card ∈ FlashcardsRun.deckIds data) as Hid.
  { apply elem_of_list_to_set, list_elem_of_fmap. by exists card. }
  pose proof (size_add_one (Flashcards.studiedCards s) (Api.card_id card)).
  split; unfold FlashcardsRun.sound; simpl; split_and!; try done; try lia;
    intros y [Hy| ->%elem_of_singleton]%elem_of_union; auto.
Qed.

Lemma sound_handleNext (rendered s : Flashcards.FlashcardState) :
  FlashcardsRun.sound data s →
  FlashcardsRun.sound data (Flashcards.handleNext data rendered s).
Proof.
  intros (Hflip & Hidx & Hc & Hi & Hsub & Hsize).
  unfold Flashcards.handleNext. case_bool_decide; [|done].
  unfold FlashcardsRun.sound; simpl; split_and!; try done; lia.
Qed.

Lemma sound_dispatch (c : Flashcards.Component) (ev : Flashcards.Event) :
  FlashcardsRun.sound data (Flashcards.state c) →
  FlashcardsRun.sound data (Flashcards.state (Flashcards.dispatch data c ev)).
Proof.
  intros Hs. unfold Flashcards.dispatch.
  destruct (Flashcards.offered data c ev); simpl; [|done].
  destruct c as [s ts]. simpl in *.
  destruct ev; simpl;
    try (by apply sound_handleNext);
    try (destruct (Flashcards.currentCard data s) as [card|] eqn:Hcard;
         [by apply sound_mark|done]);
    try (destruct ts as [|rendered rest]; [done|]; simpl; by apply sound_handleNext);
    destruct Hs as (Hflip & Hidx & Hc & Hi & Hsub & Hsize);
    unfold FlashcardsRun.sound, Flashcards.handlePrevious;
    try case_bool_decide; simpl; split_and?;
    first [ done | lia | by rewrite Hflip | by rewrite size_empty ].
Qed.

Lemma sound_run (evs : list Flashcards.Event) :
  FlashcardsRun.sound data (Flashcards.state (Flashcards.run data Flashcards.mount evs)).
Proof.
  unfold Flashcards.run.
  induction evs as [|ev evs IH] using rev_ind.
  - unfold FlashcardsRun.sound. simpl.
    split_and!; first [done | by rewrite size_empty].
  - rewrite foldl_app. simpl. by apply sound_dispatch.
Qed.

(** X18. In every run, timers included: the card is flipped exactly when
    the answer is shown, and the index and both counters are never
    negative. *)
Theorem card_side_and_index_in_every_run (evs : list Flashcards.Event) :
  let s := Flashcards.state (Flashcards.run data Flashcards.mount evs) in
  Flashcards.isFlipped s = Flashcards.showAnswer s
  ∧ 0 ≤ Flashcards.currentIndex s
  ∧ 0 ≤ Flashcards.correctAnswers s
  ∧ 0 ≤ Flashcards.incorrectAnswers s.
Proof.
  simpl. by destruct (sound_run evs) as (? & ? & ? & ? & _).
Qed.

(** X19. In every run the studied set holds ids of cards of the deck only,
    and it has at most as many elements as marks were counted. *)
Theorem studied_cards_in_every_run (evs : list Flashcards.Event) :
  let s := Flashcards.state (Flashcards.run data Flashcards.mount evs) in
  (∀ id, id ∈ Flashcards.studiedCards s →
         ∃ card, card ∈ Api.flashcards data ∧ Api.card_id card = id)
  ∧ Z.of_nat (size (Flashcards.studiedCards s))
    ≤ Flashcards.correctAnswers s + Flashcards.incorrectAnswers s.
Proof.
  simpl. destruct (sound_run evs) as (_ & _ & _ & _ & Hsub & Hsize).
  split; [|done]. intros id Hid%Hsub.
  apply elem_of_list_to_set, list_elem_of_fmap in Hid as (card & -> & Hcard).
  by exists card.
Qed.

Lemma settled_run (evs : list Flashcards.Event) :
  Flashcards.settled data (Flashcards.run_settled data Flashcards.mount evs).
Proof.
  unfold Flashcards.run_settled.
  induction evs as [|ev evs IH] using rev_ind.
  - split; [done|by left].
  - rewrite foldl_app. simpl. by apply settled_dispatch.
Qed.

Lemma filteredCards_all (s : Flashcards.FlashcardState) :
  Flashcards.difficulty s = JS.lit "all" →
  Flashcards.category s = JS.lit "all" →
  Flashcards.filteredCards data s = Api.flashcards data.
Proof.
  intros Hd Hc. unfold Flashcards.filteredCards. rewrite Hd, Hc.
  induction (Api.flashcards data) as [|card cards IH]; [done|].
  cbn [List.filter]. rewrite IH.
  by rewrite !bool_decide_eq_true_2 by done.
Qed.

(** X20. When the filters match no card, "Clear Filters" brings back the
    first card of the deck (in runs whose timers fire before the next
    event). *)
Theorem clear_filters_shows_first_card (evs : list Flashcards.Event) :
  let c := Flashcards.run_settled data Flashcards.mount evs in
  Flashcards.render data (Flashcards.state c) = Flashcards.NoMatch →
  ∃ first,
    head (Api.flashcards data) = Some first
    ∧ Flashcards.render data
        (Flashcards.state (Flashcards.dispatch data c Flashcards.ClickClearFilters))
      = Flashcards.Study first.
Proof.
  simpl. intros Hscreen.
  destruct (settled_run evs) as [_ Hidx].
  set (c := Flashcards.run_settled data Flashcards.mount evs) in *.
  unfold Flashcards.dispatch, Flashcards.offered. rewrite Hscreen. simpl.
  unfold Flashcards.render in Hscreen.
  case_bool_decide as Hdeck; [done|].
  case_bool_decide as Htotal; [|by destruct (Flashcards.currentCard _ _)].
  assert (Flashcards.currentIndex (Flashcards.state c) = 0) as Hzero by lia.
  destruct (Api.flashcards data) as [|first cards] eqn:Hcards; [done|].
  exists first. split; [done|].
  unfold Flashcards.render. rewrite Hcards.
  assert (Flashcards.filteredCards data
            (Flashcards.handleClearFilters (Flashcards.state c))
          = first :: cards) as Hall.
  { rewrite filteredCards_all by done. done. }
  unfold Flashcards.totalCards, Flashcards.currentCard. rewrite Hall. simpl.
  rewrite Hzero. done.
Qed.

Lemma currentCard_bounds (s : Flashcards.FlashcardState) (card : Api.Flashcard) :
  Flashcards.currentCard data s = Some card →
  0 ≤ Flashcards.currentIndex s < Flashcards.totalCards data s.
Proof.
  unfold Flashcards.currentCard, Flashcards.index, Flashcards.totalCards.
  case_bool_decide; [|done]. intros Hcard%lookup_lt_Some. lia.
Qed.

Lemma offered_study (c : Flashcards.Component) (ev : Flashcards.Event) :
  Flashcards.offered data c ev = true →
  ev ≠ Flashcards.TimerFires → ev ≠ Flashcards.ClickClearFilters →
  ∃ card, Flashcards.render data (Flashcards.state c) = Flashcards.Study card
          ∧ Flashcards.currentCard data (Flashcards.state c) = Some card.
Proof.
  unfold Flashcards.offered. intros Hoff Ht Hc.
  destruct (Flashcards.render data (Flashcards.state c)) as [| |card|] eqn:Hr;
    try (by destruct ev; simpl in Hoff).
  exists card. split; [done|]. clear Hoff.
  unfold Flashcards.render in Hr. repeat case_bool_decide; try done.
  destruct (Flashcards.currentCard data (Flashcards.state c)); congruence.
Qed.

(** X21. Where "Next" is offered it moves to the next card, which exists,
    and "Previous" then leads back to the card it came from, question side
    up, with counters, studied set and filters untouched. *)
Theorem next_then_previous_returns (c : Flashcards.Component) :
  Flashcards.offered data c Flashcards.ClickNext = true →
  let there := Flashcards.dispatch data c Flashcards.ClickNext in
  let back := Flashcards.dispatch data there Flashcards.ClickPrevious in
  Flashcards.currentIndex (Flashcards.state there)
    = Flashcards.currentIndex (Flashcards.state c) + 1
  ∧ is_Some (Flashcards.currentCard data (Flashcards.state there))
  ∧ Flashcards.state back
    = {| Flashcards.currentIndex := Flashcards.currentIndex (Flashcards.state c);
         Flashcards.isFlipped := false;
         Flashcards.showAnswer := false;
         Flashcards.correctAnswers := Flashcards.correctAnswers (Flashcards.state c);
         Flashcards.incorrectAnswers := Flashcards.incorrectAnswers (Flashcards.state c);
         Flashcards.studiedCards := Flashcards.studiedCards (Flashcards.state c);
         Flashcards.difficulty := Flashcards.difficulty (Flashcards.state c);
         Flashcards.category := Flashcards.category (Flashcards.state c) |}
  ∧ Flashcards.currentCard data (Flashcards.state back)
    = Flashcards.currentCard data (Flashcards.state c).
Proof.
  intros Hoff. simpl.
  destruct (offered_study c _ Hoff) as (card & Hscreen & Hcard); [done|done|].
  pose proof (currentCard_bounds _ _ Hcard) as Hbounds.
  assert (Flashcards.currentIndex (Flashcards.state c)
          < Flashcards.totalCards data (Flashcards.state c) - 1) as Hlt.
  { unfold Flashcards.offered in Hoff. rewrite Hscreen in Hoff.
    apply negb_true_iff, bool_decide_eq_false_1 in Hoff. lia. }
  destruct c as [s ts]. simpl in Hscreen, Hcard, Hbounds, Hlt. simpl.
  assert (Flashcards.dispatch data {| Flashcards.state := s; Flashcards.timers := ts |}
            Flashcards.ClickNext
          = {| Flashcards.state :=
                 {| Flashcards.currentIndex := Flashcards.currentIndex s + 1;
                    Flashcards.isFlipped := false; Flashcards.showAnswer := false;
                    Flashcards.correctAnswers := Flashcards.correctAnswers s;
                    Flashcards.incorrectAnswers := Flashcards.incorrectAnswers s;
                    Flashcards.studiedCards := Flashcards.studiedCards s;
                    Flashcards.difficulty := Flashcards.difficulty s;
                    Flashcards.category := Flashcards.category s |};
               Flashcards.timers := ts |}) as ->.
  { unfold Flashcards.dispatch. rewrite Hoff. simpl.
    unfold Flashcards.setState, Flashcards.handleNext. simpl.
    by rewrite bool_decide_eq_true_2 by done. }
  set (s' := {| Flashcards.currentIndex := Flashcards.currentIndex s + 1;
                Flashcards.isFlipped := false |}).
  assert (Flashcards.totalCards data s' = Flashcards.totalCards data s) as Htotal
    by (by apply totalCards_filters).
  assert (is_Some (Flashcards.currentCard data s')) as [card' Hcard'].
  { apply currentCard_in_bounds. rewrite Htotal. simpl. lia. }
  split; [done|]. split; [by eexists|].
  assert (Flashcards.offered data
            {| Flashcards.state := s'; Flashcards.timers := ts |}
            Flashcards.ClickPrevious = true) as Hoff'.
  { unfold Flashcards.offered, Flashcards.render. simpl.
    rewrite Hcard'.
    unfold Flashcards.render in Hscreen.
    destruct (bool_decide (length (Api.flashcards data) = 0%nat)); [done|].
    rewrite bool_decide_eq_false_2 by lia.
    apply negb_true_iff, bool_decide_eq_false_2. simpl. lia. }
  unfold Flashcards.dispatch. rewrite Hoff'. simpl.
  unfold Flashcards.handlePrevious. simpl.
  rewrite bool_decide_eq_true_2 by lia. simpl.
  replace (Flashcards.currentIndex s + 1 - 1) with (Flashcards.currentIndex s) by lia.
  split; [done|].
  unfold Flashcards.currentCard. simpl.
  by rewrite (filteredCards_filters data s).
Qed.

End FlashcardRuns.

(** ** The properties above at sample runs *)

Lemma only_validated_files_are_uploaded_witness :
  FileUpload.type sample_pdf ∈ FileUpload.allowedTypes
  ∧ FileUpload.size sample_pdf ≤ 50 * 1024 * 1024.
Proof.
  apply (only_validated_files_are_uploaded sample_upload sample_pdf).
  vm_compute. apply list_elem_of_here.
Defined.

Lemma upload_one_request_at_a_time_witness :
  ∃ f, FileUpload.file
         (FileUploadComponent.state
            (FileUploadComponent.run
               [ FileUploadComponent.SelectFiles [sample_pdf];
                 FileUploadComponent.ClickUpload ])) = Some f
       ∧ ApiUpload.uploadDocument sample_pdf = ApiUpload.uploadDocument f
       ∧ FileUploadComponent.accepted f.
Proof.
  destruct (upload_one_request_at_a_time
              [ FileUploadComponent.SelectFiles [sample_pdf];
                FileUploadComponent.ClickUpload ]) as (_ & _ & Hcall).
  apply Hcall. vm_compute. apply list_elem_of_here.
Defined.

Lemma at_most_one_document_reported_witness :
  sample_document ∈ FileUploadComponent.returned sample_upload
  ∧ FileUpload.success
      (FileUploadComponent.state (FileUploadComponent.run sample_upload)) = true
  ∧ FileUpload.uploading
      (FileUploadComponent.state (FileUploadComponent.run sample_upload)) = false.
Proof.
  destruct (at_most_one_document_reported sample_upload) as [_ Hreported].
  apply Hreported. vm_compute. apply list_elem_of_here.
Defined.

Lemma validation_messages_are_not_displayed_witness :
  JS.lit "Network error"
    ∈ FileUploadComponent.failures (FileUploadComponent.run sample_failed_upload)
  ∧ FileUploadComponent.render
      (FileUpload.handleFileSelect (sample_file "image/png" 10) FileUpload.initialState)
    = FileUploadComponent.DropZone.
Proof.
  destruct (validation_messages_are_not_displayed sample_failed_upload)
    as [Hshown Hrefused].
  split.
  - eapply Hshown; vm_compute; reflexivity.
  - apply Hrefused. intros [Htype _].
    assert (JS.includes FileUpload.allowedTypes
              (FileUpload.type (sample_file "image/png" 10)) = true) as Hinc
      by (by apply bool_decide_eq_true_2).
    vm_compute in Hinc. discriminate Hinc.
Defined.

Lemma success_is_final_witness :
  FileUpload.file
    (FileUploadComponent.state
       (FileUploadComponent.run
          (sample_upload ++ [ FileUploadComponent.ClickRemove;
                              FileUploadComponent.SelectFiles [sample_pdf];
                              FileUploadComponent.ClickUpload ])))
  = Some sample_pdf.
Proof.
  destruct (success_is_final sample_upload
              [ FileUploadComponent.ClickRemove;
                FileUploadComponent.SelectFiles [sample_pdf];
                FileUploadComponent.ClickUpload ]) as (_ & Hfile & _).
  - vm_compute. reflexivity.
  - rewrite Hfile. vm_compute. reflexivity.
Defined.

Lemma outcome_does_not_depend_on_order_witness :
  ∃ k, DashboardSession.effects (first_run sample_generation)
       = DashboardSession.start sample_document
         ++ DashboardSession.ticks k
         ++ [ DashboardSession.ClearInterval;
              DashboardSession.SetState
                (DashboardUI.Store sample_graph sample_deck sample_summary) ].
Proof.
  apply (outcome_does_not_depend_on_order sample_generation
           (first_run sample_generation)).
  - vm_compute. apply list_elem_of_here.
  - vm_compute. repeat split.
Defined.

Lemma interval_cleared_only_on_success_witness :
  let r := Dashboard.execute sample_document Dashboard.initialState
             [ Dashboard.FlashcardsSettle None ] in
  Dashboard.progressInterval (Dashboard.deliver r Dashboard.IntervalFires) = true
  ∧ Dashboard.generationProgress
      (Dashboard.ui (Dashboard.deliver r Dashboard.IntervalFires))
    = Z.min (Dashboard.generationProgress (Dashboard.ui r) + 10) 90.
Proof.
  intros r.
  destruct (interval_cleared_only_on_success sample_document Dashboard.initialState
              [ Dashboard.FlashcardsSettle None ]) as (_ & _ & Hfailed).
  apply Hfailed. right; left. vm_compute. reflexivity.
Defined.

Lemma progress_while_waiting_witness :
  let rest := [ DashboardSession.OfRun 0 DashboardSession.IntervalFires;
                DashboardSession.ClickNavigation Dashboard.view_tutor;
                DashboardSession.OfRun 0
                  (DashboardSession.SummarySettles (inr sample_summary));
                DashboardSession.OfRun 0 DashboardSession.IntervalFires ] in
  let d := DashboardSession.run
             (DashboardSession.UploadCompletes sample_document :: rest) in
  Dashboard.generationProgress (DashboardSession.ui d) = 20
  ∧ Dashboard.isGenerating (DashboardSession.ui d) = true.
Proof.
  intros rest d.
  destruct (progress_while_waiting sample_document rest) as (r & Hr & Hwait).
  - vm_compute. reflexivity.
  - vm_compute in Hr. injection Hr as <-.
    destruct Hwait as (Hprogress & Hgenerating & _); [reflexivity|].
    split; [exact Hprogress|exact Hgenerating].
Defined.

Lemma artifacts_are_never_cleared_witness :
  is_Some
    (Dashboard.knowledgeGraph
       (DashboardUI.reach
          ([ DashboardUI.Begin sample_document;
             DashboardUI.Store sample_graph sample_deck sample_summary ]
           ++ [ DashboardUI.Begin sample_document; DashboardUI.Tick;
                DashboardUI.Fail ]))).
Proof.
  apply (artifacts_are_never_cleared
           [ DashboardUI.Begin sample_document;
             DashboardUI.Store sample_graph sample_deck sample_summary ]
           [ DashboardUI.Begin sample_document; DashboardUI.Tick;
             DashboardUI.Fail ]).
  exists sample_graph. vm_compute. reflexivity.
Defined.

Lemma dashboard_tutor_requests_carry_the_document_witness :
  ∃ doc request,
    Dashboard.document
      (DashboardUI.reach [ DashboardUI.Begin sample_document;
                           DashboardUI.Navigate Dashboard.view_tutor ])
    = Some doc
    ∧ Api.body request
      = [ (JS.lit "question", Api.JString (JS.lit "why?"));
          (JS.lit "context", Api.JString (Api.raw_text doc)) ].
Proof.
  destruct (dashboard_tutor_requests_carry_the_document
              [ DashboardUI.Begin sample_document;
                DashboardUI.Navigate Dashboard.view_tutor ]
              (Some (Api.raw_text sample_document))
              sample_clock
              {| TutorChat.messages := [];
                 TutorChat.inputValue := JS.lit "why?";
                 TutorChat.isLoading := false |}
              (Api.askTutor (JS.lit "why?") (Some (Api.raw_text sample_document))))
    as (doc & Hdoc & Hbody).
  - vm_compute. reflexivity.
  - vm_compute. reflexivity.
  - exists doc. eexists. split; [exact Hdoc|exact Hbody].
Defined.

Lemma studied_cards_in_every_run_witness :
  ∃ card, card ∈ Api.flashcards sample_deck ∧ Api.card_id card = JS.lit "1".
Proof.
  destruct (studied_cards_in_every_run sample_deck
              [ Flashcards.ClickCard; Flashcards.ClickCorrect ]) as [Hstudied _].
  apply Hstudied. compute_done.
Defined.

Lemma clear_filters_shows_first_card_witness :
  ∃ first,
    head (Api.flashcards sample_deck) = Some first
    ∧ Flashcards.render sample_deck
        (Flashcards.state
           (Flashcards.dispatch sample_deck
              (Flashcards.run_settled sample_deck Flashcards.mount
                 [ Flashcards.SelectCategory (JS.lit "definition") ])
              Flashcards.ClickClearFilters))
      = Flashcards.Study first.
Proof.
  apply (clear_filters_shows_first_card sample_deck
           [ Flashcards.SelectCategory (JS.lit "definition") ]).
  vm_compute. reflexivity.
Defined.

Lemma next_then_previous_returns_witness :
  Flashcards.currentCard sample_deck
    (Flashcards.state
       (Flashcards.dispatch sample_deck
          (Flashcards.dispatch sample_deck Flashcards.mount Flashcards.ClickNext)
          Flashcards.ClickPrevious))
  = Flashcards.currentCard sample_deck (Flashcards.state Flashcards.mount).
Proof.
  apply (next_then_previous_returns sample_deck Flashcards.mount).
  vm_compute. reflexivity.
Defined.
